(** * CadViser: the OBJ part analyzer and the part manager

    A shallow embedding of [part-analyzer.js] (class [PartAnalyzer]) and of
    [part-manager.js] (class [PartManager]), followed by the properties of
    the two classes that the specification of the viewer states and by
    further properties of the two classes, read off the code.

    Conventions of the embedding:
    - a JavaScript string is a [string], a sequence of 8-bit code units
      (the OBJ artifact is ASCII text);
    - a JavaScript number, be it a coordinate read by [parseFloat] or an
      index read by [parseInt], is a binary64 [float];
    - [null] and [undefined] are [None];
    - a method of a class is a function from the object's state to its new
      state; a method that can throw returns a [Completion];
    - console output and DOM updates are not part of the state. *)

From Stdlib Require Import ZArith Floats Ascii String List DecimalString DecimalNat.
From stdpp Require Import base option list gmap strings fin_maps.

Set Default Proof Using "Type".
Set Warnings "-inexact-float".
Set Warnings "-clear-no-such-hyp".
Open Scope string_scope.

(** ** JavaScript values and string primitives *)

Module JS.

(** The values a caller can hand to a function that expects a string.
    [JSObject] stands for every object, array and function. *)
Inductive JSValue :=
| JSUndefined
| JSNull
| JSBoolean (b : bool)
| JSNumber (n : float)
| JSString (s : string)
| JSObject.

(** ToBoolean. *)
Definition truthy (v : JSValue) : bool :=
  match v with
  | JSUndefined | JSNull => false
  | JSBoolean b => b
  | JSNumber n => negb (PrimFloat.is_zero n || PrimFloat.is_nan n)
  | JSString s => negb (String.eqb s "")
  | JSObject => true
  end.

(** [typeof v] for the values above ([typeof null] is ["object"]). *)
Definition typeof (v : JSValue) : string :=
  match v with
  | JSUndefined => "undefined"
  | JSNull | JSObject => "object"
  | JSBoolean _ => "boolean"
  | JSNumber _ => "number"
  | JSString _ => "string"
  end.

(** Outcome of a statement that may throw. *)
Inductive Completion (A : Type) :=
| Normal (a : A)
| Throw (message : string).
Arguments Normal {A} a.
Arguments Throw {A} message.

Definition bind {A B} (c : Completion A) (k : A → Completion B) : Completion B :=
  match c with
  | Normal a => k a
  | Throw m => Throw m
  end.

(** [xs.map(f)] for a callback that may throw: left to right, the first
    throw ends the call. *)
Fixpoint mapM {A B} (f : A → Completion B) (xs : list A) : Completion (list B) :=
  match xs with
  | [] => Normal []
  | x :: xs' =>
      bind (f x) (λ y, bind (mapM f xs') (λ ys, Normal (y :: ys)))
  end.

(** [try { c } catch (error) { log }] around a state update: a throw
    leaves the state as it was before the statement. *)
Definition tryCatch {S} (c : Completion S) (before : S) : S :=
  match c with
  | Normal s => s
  | Throw _ => before
  end.

Definition newline : ascii := ascii_of_nat 10.

(** White space and line terminators among the code units 0..255. *)
Definition isWhiteSpace (c : ascii) : bool :=
  let n := nat_of_ascii c in
  (Nat.eqb n 32 || (Nat.leb 9 n && Nat.leb n 13) || Nat.eqb n 160)%bool.

Definition isDigit (c : ascii) : bool :=
  let n := nat_of_ascii c in (Nat.leb 48 n && Nat.leb n 57)%bool.

Definition digitValue (c : ascii) : Z := (Z.of_nat (nat_of_ascii c) - 48)%Z.

(** Value of a hexadecimal digit, if [c] is one. *)
Definition hexValue (c : ascii) : option Z :=
  let n := nat_of_ascii c in
  if (Nat.leb 48 n && Nat.leb n 57)%bool then Some (Z.of_nat n - 48)%Z
  else if (Nat.leb 97 n && Nat.leb n 102)%bool then Some (Z.of_nat n - 87)%Z
  else if (Nat.leb 65 n && Nat.leb n 70)%bool then Some (Z.of_nat n - 55)%Z
  else None.

(** [s.split(sep)] for a one-character separator. *)
Fixpoint splitChar (sep : ascii) (s : string) : list string :=
  match s with
  | EmptyString => [EmptyString]
  | String c rest =>
      if Ascii.eqb c sep then EmptyString :: splitChar sep rest
      else match splitChar sep rest with
           | [] => [String c EmptyString]
           | piece :: pieces => String c piece :: pieces
           end
  end.

Fixpoint trimStart (s : string) : string :=
  match s with
  | EmptyString => EmptyString
  | String c rest => if isWhiteSpace c then trimStart rest else s
  end.

(** Drops trailing white space: the result is empty when only white space
    remains. *)
Fixpoint trimEnd (s : string) : string :=
  match s with
  | EmptyString => EmptyString
  | String c rest =>
      match trimEnd rest with
      | EmptyString => if isWhiteSpace c then EmptyString else String c EmptyString
      | rest' => String c rest'
      end
  end.

Definition trim (s : string) : string := trimEnd (trimStart s).

Definition startsWith (s pre : string) : bool := String.prefix pre s.

(** [s.split(/\s+/)]: the pieces between maximal runs of white space.
    [cur] is the piece being read, reversed; [inRun] tells whether the
    previous character was white space. *)
Fixpoint splitWhitespaceGo (s : string) (cur : string) (inRun : bool) : list string :=
  match s with
  | EmptyString => [String.rev cur]
  | String c rest =>
      if isWhiteSpace c then
        if inRun then splitWhitespaceGo rest cur true
        else String.rev cur :: splitWhitespaceGo rest EmptyString true
      else splitWhitespaceGo rest (String c cur) false
  end.

Definition splitWhitespace (s : string) : list string :=
  splitWhitespaceGo s EmptyString false.

(** [xs.join(sep)]. *)
Definition join (sep : string) (xs : list string) : string := String.concat sep xs.

(** [xs.slice(1)]. *)
Definition slice1 {A} (xs : list A) : list A := tail xs.

Definition toLowerCaseChar (c : ascii) : ascii :=
  let n := nat_of_ascii c in
  if (Nat.leb 65 n && Nat.leb n 90)%bool then ascii_of_nat (n + 32) else c.

Fixpoint toLowerCase (s : string) : string :=
  match s with
  | EmptyString => EmptyString
  | String c rest => String (toLowerCaseChar c) (toLowerCase rest)
  end.

(** [s.includes(sub)]. *)
Fixpoint includes (s sub : string) : bool :=
  if String.prefix sub s then true
  else match s with
       | EmptyString => false
       | String _ rest => includes rest sub
       end.

(** [n.toString()] and [`${n}`] for a non-negative integer. *)
Definition toString (n : nat) : string := NilEmpty.string_of_uint (Nat.to_uint n).

Fixpoint repeatChar (n : nat) (c : ascii) : string :=
  match n with
  | O => EmptyString
  | S n' => String c (repeatChar n' c)
  end.

(** [s.padStart(width, c)] for a one-character pad. *)
Definition padStart (width : nat) (c : ascii) (s : string) : string :=
  repeatChar (width - String.length s) c ++ s.

(** Longest prefix of decimal digits, and the rest. *)
Fixpoint spanDigits (s : string) : string * string :=
  match s with
  | EmptyString => (EmptyString, EmptyString)
  | String c rest =>
      if isDigit c then let '(ds, r) := spanDigits rest in (String c ds, r)
      else (EmptyString, s)
  end.

(** Value of a string of decimal digits, most significant first. *)
Fixpoint digitsValue (acc : Z) (ds : string) : Z :=
  match ds with
  | EmptyString => acc
  | String c rest => digitsValue (10 * acc + digitValue c)%Z rest
  end.

(** Longest prefix of hexadecimal digits folded into [acc]; the flag tells
    whether a digit was read. *)
Fixpoint hexDigitsValue (acc : Z) (seen : bool) (s : string) : Z * bool :=
  match s with
  | EmptyString => (acc, seen)
  | String c rest =>
      match hexValue c with
      | Some d => hexDigitsValue (16 * acc + d)%Z true rest
      | None => (acc, seen)
      end
  end.

(** The binary64 number nearest to [m * 10^e] (ties to even), negated when
    [neg]: the Number value of a decimal literal. *)
Definition decimalToFloat (neg : bool) (m : Z) (e : Z) : float :=
  match m with
  | Z.pos p =>
      if (0 <=? e)%Z
      then SF2Prim (binary_normalize prec emax ((if neg then Z.neg p else Z.pos p) * 10 ^ e)%Z 0%Z false)
      else SF2Prim (SFdiv prec emax (S754_finite neg p 0%Z)
                          (S754_finite false (Z.to_pos (10 ^ (- e))%Z) 0%Z))
  | _ => if neg then PrimFloat.neg_zero else PrimFloat.zero
  end.

(** The exponent part [e[+-]digits] at the head of [s], or [0] when [s]
    does not start with a complete one. *)
Definition exponentPart (s : string) : Z :=
  match s with
  | String c rest =>
      if (Ascii.eqb c "e" || Ascii.eqb c "E")%bool then
        let '(neg, r) :=
          match rest with
          | String "-" r => (true, r)
          | String "+" r => (false, r)
          | _ => (false, rest)
          end in
        let '(ds, _) := spanDigits r in
        match ds with
        | EmptyString => 0%Z
        | _ => if neg then (- digitsValue 0 ds)%Z else digitsValue 0 ds
        end
      else 0%Z
  | EmptyString => 0%Z
  end.

(** [parseFloat(s)]: leading white space is skipped and the longest prefix
    that is a decimal literal is read; [nan] when there is none. *)
Definition parseFloat (s : string) : float :=
  let s0 := trimStart s in
  let '(neg, s1) :=
    match s0 with
    | String "-" r => (true, r)
    | String "+" r => (false, r)
    | _ => (false, s0)
    end in
  if String.prefix "Infinity" s1 then (if neg then PrimFloat.neg_infinity else PrimFloat.infinity)
  else
    let '(ip, s2) := spanDigits s1 in
    let '(fp, s3) :=
      match s2 with
      | String "." r => spanDigits r
      | _ => (EmptyString, s2)
      end in
    match ip ++ fp with
    | EmptyString => PrimFloat.nan
    | ds => decimalToFloat neg (digitsValue 0 ds)
              (exponentPart s3 - Z.of_nat (String.length fp))%Z
    end.

(** The Number value of the integer of magnitude [v], negated when
    [neg]: the binary64 number nearest to it (ties to even), [Infinity]
    beyond the range of binary64 and [-0] for a negated zero. *)
Definition integerToFloat (neg : bool) (v : Z) : float := decimalToFloat neg v 0.

(** [parseInt(s)] without a radix: an optional sign, an optional [0x]
    prefix that selects radix 16, then the longest prefix of digits;
    [nan] when there is no digit. The digits are read as an exact integer,
    which is rounded once to the Number that is returned: an index above
    [2^53] may come back changed, and a very long one as [Infinity]. *)
Definition parseInt (s : string) : float :=
  let s0 := trimStart s in
  let '(neg, s1) :=
    match s0 with
    | String "-" r => (true, r)
    | String "+" r => (false, r)
    | _ => (false, s0)
    end in
  match s1 with
  | String "0" (String x r) =>
      if (Ascii.eqb x "x" || Ascii.eqb x "X")%bool then
        let '(v, seen) := hexDigitsValue 0 false r in
        if seen then integerToFloat neg v else PrimFloat.nan
      else
        let '(ds, _) := spanDigits s1 in integerToFloat neg (digitsValue 0 ds)
  | _ =>
      let '(ds, _) := spanDigits s1 in
      match ds with
      | EmptyString => PrimFloat.nan
      | _ => integerToFloat neg (digitsValue 0 ds)
      end
  end.

(** [Math.min] and [Math.max] of two numbers: [NaN] is contagious and
    [-0] is below [+0]. *)
Definition Math_min (a b : float) : float :=
  if (PrimFloat.is_nan a || PrimFloat.is_nan b)%bool then PrimFloat.nan
  else if PrimFloat.ltb a b then a
  else if PrimFloat.ltb b a then b
  else if PrimFloat.get_sign a then a else b.

Definition Math_max (a b : float) : float :=
  if (PrimFloat.is_nan a || PrimFloat.is_nan b)%bool then PrimFloat.nan
  else if PrimFloat.ltb a b then b
  else if PrimFloat.ltb b a then a
  else if PrimFloat.get_sign a then b else a.

(** A loop whose body may throw, the first throw ending it:
    [for (const x of xs) acc = f(acc, x)], and the callback loop of
    [xs.reduce(f, acc)]. *)
Fixpoint foldM {A B} (f : B → A → Completion B) (acc : B) (xs : list A) : Completion B :=
  match xs with
  | [] => Normal acc
  | x :: xs' => bind (f acc x) (λ acc', foldM f acc' xs')
  end.

End JS.

(** ** The part analyzer ([part-analyzer.js]) *)

Module PartAnalyzer.
Import JS.

(** [{ x, y, z }]: a vertex, a normal, a corner of a box. *)
Record Vec3 := { x : float; y : float; z : float }.

(** [{ u, v }]. *)
Record TexCoord := { u : float; v : float }.

(** One corner of a face. [vertexIndex] has passed the check of
    [handleFace]; the other two indices may be [NaN]. *)
Record FaceVertex := {
  vertexIndex : float;
  textureIndex : float;
  normalIndex : float
}.

Record BoundingBox := { min : Vec3; max : Vec3 }.

(** The object built by [handleObjectName]. [boundingBox], [center] and
    [size] are unset until [calculateBoundingBox] has run. *)
Record Part := {
  name : string;
  vertices : list Vec3;
  normals : list Vec3;
  textureCoords : list TexCoord;
  faces : list (list FaceVertex);
  material : option string;
  boundingBox : option BoundingBox;
  center : option Vec3;
  size : option Vec3;
  partNumber : string;
  type : string
}.

(** The fields of the class. [parts] is the array of accepted parts in the
    order of acceptance; [materials] is created empty and never written. *)
Record PartAnalyzer := {
  parts : list Part;
  materials : list (string * string);
  currentPart : option Part;
  currentMaterial : option string
}.

(** [new PartAnalyzer()]. *)
Definition constructor : PartAnalyzer :=
  {| parts := []; materials := []; currentPart := None; currentMaterial := None |}.

Definition setCurrentPart (c : option Part) (this : PartAnalyzer) : PartAnalyzer :=
  {| parts := parts this; materials := materials this;
     currentPart := c; currentMaterial := currentMaterial this |}.

(** [this.parts.push(p)]. *)
Definition pushPart (p : Part) (this : PartAnalyzer) : PartAnalyzer :=
  {| parts := parts this ++ [p]; materials := materials this;
     currentPart := currentPart this; currentMaterial := currentMaterial this |}.

(** [`P-${partCount.toString().padStart(3, '0')}`]. *)
Definition formatPartNumber (partCount : nat) : string :=
  "P-" ++ padStart 3 "0" (toString partCount).

Definition generatePartNumber (this : PartAnalyzer) : string :=
  let partCount := length (parts this) + 1 in
  formatPartNumber partCount.

Definition detectPartType (name : string) : string :=
  if String.eqb name "" then "Unknown"
  else
    let lowerName := toLowerCase name in
    if (includes lowerName "pipe" || includes lowerName "tube")%bool then "Pipe"
    else if includes lowerName "flange" then "Flange"
    else if (includes lowerName "elbow" || includes lowerName "bend")%bool then "Elbow"
    else if (includes lowerName "tee" || includes lowerName "t-joint")%bool then "Tee"
    else if includes lowerName "valve" then "Valve"
    else if includes lowerName "fitting" then "Fitting"
    else if (includes lowerName "support" || includes lowerName "bracket")%bool then "Support"
    else if (includes lowerName "gasket" || includes lowerName "seal")%bool then "Gasket"
    else if (includes lowerName "bolt" || includes lowerName "screw")%bool then "Fastener"
    else if includes lowerName "nut" then "Nut"
    else "Component".

(** The loop of [calculateBoundingBox]: running minimum and maximum. *)
Definition boxStep (acc : BoundingBox) (vertex : Vec3) : BoundingBox :=
  {| min := {| x := Math_min (x (min acc)) (x vertex);
               y := Math_min (y (min acc)) (y vertex);
               z := Math_min (z (min acc)) (z vertex) |};
     max := {| x := Math_max (x (max acc)) (x vertex);
               y := Math_max (y (max acc)) (y vertex);
               z := Math_max (z (max acc)) (z vertex) |} |}.

Definition emptyBox : BoundingBox :=
  {| min := {| x := PrimFloat.infinity; y := PrimFloat.infinity; z := PrimFloat.infinity |};
     max := {| x := PrimFloat.neg_infinity; y := PrimFloat.neg_infinity;
               z := PrimFloat.neg_infinity |} |}.

Definition boxOf (vs : list Vec3) : BoundingBox := fold_left boxStep vs emptyBox.

Definition centerOf (b : BoundingBox) : Vec3 :=
  {| x := PrimFloat.div (PrimFloat.add (x (min b)) (x (max b))) 2;
     y := PrimFloat.div (PrimFloat.add (y (min b)) (y (max b))) 2;
     z := PrimFloat.div (PrimFloat.add (z (min b)) (z (max b))) 2 |}.

Definition sizeOf (b : BoundingBox) : Vec3 :=
  {| x := PrimFloat.sub (x (max b)) (x (min b));
     y := PrimFloat.sub (y (max b)) (y (min b));
     z := PrimFloat.sub (z (max b)) (z (min b)) |}.

Definition calculateBoundingBox (part : Part) : Part :=
  match vertices part with
  | [] => part
  | _ =>
      let box := boxOf (vertices part) in
      {| name := name part; vertices := vertices part; normals := normals part;
         textureCoords := textureCoords part; faces := faces part;
         material := material part;
         boundingBox := Some box;
         center := Some (centerOf box);
         size := Some (sizeOf box);
         partNumber := partNumber part; type := type part |}
  end.

(** [x > 0] on numbers. *)
Definition positive (a : float) : bool := PrimFloat.ltb 0 a.

(** [part.size.x > 0 && part.size.y > 0 && part.size.z > 0]; the method is
    only called after [calculateBoundingBox] on a part with vertices, where
    [size] is set. *)
Definition validatePart (part : Part) : bool :=
  (Nat.ltb 0 (length (vertices part))
   && Nat.ltb 0 (length (faces part))
   && bool_decide (is_Some (boundingBox part))
   && match size part with
      | Some s => positive (x s) && positive (y s) && positive (z s)
      | None => false
      end)%bool.

Definition finalizePart (this : PartAnalyzer) : PartAnalyzer :=
  match currentPart this with
  | None => this
  | Some cur =>
      match vertices cur with
      | [] => this
      | _ =>
          let cur' := calculateBoundingBox cur in
          let this' := if validatePart cur' then pushPart cur' this else this in
          setCurrentPart None this'
      end
  end.

Definition handleObjectName (name : string) (this : PartAnalyzer) : PartAnalyzer :=
  let this1 := match currentPart this with
               | Some _ => finalizePart this
               | None => this
               end in
  setCurrentPart
    (Some {| name := if String.eqb name "" then "Part_" ++ toString (length (parts this1) + 1)
                     else name;
             vertices := []; normals := []; textureCoords := []; faces := [];
             material := None; boundingBox := None; center := None; size := None;
             partNumber := generatePartNumber this1;
             type := detectPartType name |})
    this1.

Definition handleGroupName (name : string) (this : PartAnalyzer) : PartAnalyzer :=
  match currentPart this with
  | None => handleObjectName name this
  | Some cur =>
      if (negb (String.eqb name "") && negb (String.eqb name (PartAnalyzer.name cur)))%bool
      then handleObjectName name (finalizePart this)
      else this
  end.

Definition handleMaterialUsage (materialName : option string) (this : PartAnalyzer)
  : PartAnalyzer :=
  match currentPart this with
  | None => this
  | Some cur =>
      let m := match materialName with
               | Some n => if String.eqb n "" then "default" else n
               | None => "default"
               end in
      setCurrentPart
        (Some {| name := name cur; vertices := vertices cur; normals := normals cur;
                 textureCoords := textureCoords cur; faces := faces cur;
                 material := Some m;
                 boundingBox := boundingBox cur; center := center cur; size := size cur;
                 partNumber := partNumber cur; type := type cur |})
        this
  end.

(** The callback of [coords.map] in the three coordinate handlers. *)
Definition parseCoord (what : string) (lineNumber : nat) (coord : string)
  : Completion float :=
  let value := parseFloat coord in
  if PrimFloat.is_nan value
  then Throw ("Invalid " ++ what ++ " coordinate at line " ++ toString lineNumber)
  else Normal value.

Definition handleVertex (coords : list string) (lineNumber : nat) (this : PartAnalyzer)
  : Completion PartAnalyzer :=
  match currentPart this with
  | Some cur =>
      if Nat.leb 3 (length coords) then
        bind (mapM (parseCoord "vertex" lineNumber) coords) (λ values,
          match values with
          | x :: y :: z :: _ =>
              Normal (setCurrentPart
                (Some {| name := name cur;
                         vertices := vertices cur ++ [{| x := x; y := y; z := z |}];
                         normals := normals cur;
                         textureCoords := textureCoords cur; faces := faces cur;
                         material := material cur;
                         boundingBox := boundingBox cur; center := center cur;
                         size := size cur;
                         partNumber := partNumber cur; type := type cur |})
                this)
          | _ => Normal this
          end)
      else Normal this
  | None => Normal this
  end.

Definition handleNormal (coords : list string) (lineNumber : nat) (this : PartAnalyzer)
  : Completion PartAnalyzer :=
  match currentPart this with
  | Some cur =>
      if Nat.leb 3 (length coords) then
        bind (mapM (parseCoord "normal" lineNumber) coords) (λ values,
          match values with
          | x :: y :: z :: _ =>
              Normal (setCurrentPart
                (Some {| name := name cur; vertices := vertices cur;
                         normals := normals cur ++ [{| x := x; y := y; z := z |}];
                         textureCoords := textureCoords cur; faces := faces cur;
                         material := material cur;
                         boundingBox := boundingBox cur; center := center cur;
                         size := size cur;
                         partNumber := partNumber cur; type := type cur |})
                this)
          | _ => Normal this
          end)
      else Normal this
  | None => Normal this
  end.

Definition handleTextureCoord (coords : list string) (lineNumber : nat)
  (this : PartAnalyzer) : Completion PartAnalyzer :=
  match currentPart this with
  | Some cur =>
      if Nat.leb 2 (length coords) then
        bind (mapM (parseCoord "texture" lineNumber) coords) (λ values,
          match values with
          | u :: v :: _ =>
              Normal (setCurrentPart
                (Some {| name := name cur; vertices := vertices cur;
                         normals := normals cur;
                         textureCoords := textureCoords cur ++ [{| u := u; v := v |}];
                         faces := faces cur;
                         material := material cur;
                         boundingBox := boundingBox cur; center := center cur;
                         size := size cur;
                         partNumber := partNumber cur; type := type cur |})
                this)
          | _ => Normal this
          end)
      else Normal this
  | None => Normal this
  end.

(** [indices[k] ? parseInt(indices[k]) - 1 : -1]: a missing or empty field
    gives [-1], a field that is no number gives [NaN]. *)
Definition optionalIndex (field : option string) : float :=
  match field with
  | None => (-1)%float
  | Some f => if String.eqb f "" then (-1)%float else (parseInt f - 1)%float
  end.

(** The callback of [faceData.map] in [handleFace]. *)
Definition parseFaceVertex (lineNumber : nat) (vertexData : string)
  : Completion FaceVertex :=
  let indices := splitChar "/" vertexData in
  let vertexIndex := parseInt (List.hd "" indices) in
  if (PrimFloat.is_nan vertexIndex || PrimFloat.ltb vertexIndex 1)%bool
  then Throw ("Invalid face vertex index at line " ++ toString lineNumber)
  else Normal {| vertexIndex := vertexIndex - 1;
                 textureIndex := optionalIndex (indices !! 1%nat);
                 normalIndex := optionalIndex (indices !! 2%nat) |}.

Definition handleFace (faceData : list string) (lineNumber : nat) (this : PartAnalyzer)
  : Completion PartAnalyzer :=
  match currentPart this with
  | Some cur =>
      if Nat.leb 3 (length faceData) then
        bind (mapM (parseFaceVertex lineNumber) faceData) (λ face,
          Normal (setCurrentPart
            (Some {| name := name cur; vertices := vertices cur; normals := normals cur;
                     textureCoords := textureCoords cur;
                     faces := faces cur ++ [face];
                     material := material cur;
                     boundingBox := boundingBox cur; center := center cur;
                     size := size cur;
                     partNumber := partNumber cur; type := type cur |})
            this))
      else Normal this
  | None => Normal this
  end.

(** Logs the library name; no material file is loaded. *)
Definition handleMaterialLibrary (libName : option string) (this : PartAnalyzer)
  : PartAnalyzer := this.

(** The [switch] on the first token of a line. *)
Definition dispatch (tokens : list string) (lineNumber : nat) (this : PartAnalyzer)
  : Completion PartAnalyzer :=
  let command := List.hd "" tokens in
  if String.eqb command "o" then Normal (handleObjectName (join " " (slice1 tokens)) this)
  else if String.eqb command "g" then Normal (handleGroupName (join " " (slice1 tokens)) this)
  else if String.eqb command "usemtl" then Normal (handleMaterialUsage (tokens !! 1%nat) this)
  else if String.eqb command "v" then handleVertex (slice1 tokens) lineNumber this
  else if String.eqb command "vn" then handleNormal (slice1 tokens) lineNumber this
  else if String.eqb command "vt" then handleTextureCoord (slice1 tokens) lineNumber this
  else if String.eqb command "f" then handleFace (slice1 tokens) lineNumber this
  else if String.eqb command "mtllib" then Normal (handleMaterialLibrary (tokens !! 1%nat) this)
  else Normal this.

(** The body of the loop over the lines, [lineNumber] already incremented. *)
Definition processLine (line : string) (lineNumber : nat) (this : PartAnalyzer)
  : PartAnalyzer :=
  let trimmedLine := trim line in
  if (String.eqb trimmedLine "" || startsWith trimmedLine "#")%bool then this
  else tryCatch (dispatch (splitWhitespace trimmedLine) lineNumber this) this.

(** [for (const line of lines)], [lineNumber] being the number of lines
    read so far. *)
Fixpoint processLines (lines : list string) (lineNumber : nat) (this : PartAnalyzer)
  : PartAnalyzer :=
  match lines with
  | [] => this
  | line :: rest => processLines rest (S lineNumber) (processLine line (S lineNumber) this)
  end.

(** The state of the analyzer when the loop of [analyzeOBJ] over the lines
    of [text] ends, before the last part is finalized. *)
Definition scan (text : string) : PartAnalyzer :=
  processLines (splitChar newline text) 0 constructor.

(** [analyzeOBJ(objContent)]: the returned array and the analyzer after
    the call. A rejected input returns a fresh empty array and leaves the
    analyzer as it is. *)
Definition analyzeOBJ (objContent : JSValue) (this : PartAnalyzer)
  : list Part * PartAnalyzer :=
  if (negb (truthy objContent) || negb (String.eqb (typeof objContent) "string"))%bool
  then ([], this)
  else
    match objContent with
    | JSString text =>
        let this1 := scan text in
        let this2 := match currentPart this1 with
                     | Some _ => finalizePart this1
                     | None => this1
                     end in
        (parts this2, this2)
    | _ => ([], this)
    end.

(** [{ min, max }] of [stats.sizeRange]. *)
Record SizeRange := { rangeMin : float; rangeMax : float }.

(** The object [getStatistics] returns. [partTypes] is a plain object
    indexed by [part.type]: the types are the strings [detectPartType]
    returns, none of which names a property that a plain object inherits,
    so the object is the finite map of the counts. *)
Record Statistics := {
  totalParts : nat;
  totalVertices : nat;
  totalFaces : nat;
  partTypes : gmap string nat;
  sizeRange : SizeRange
}.

(** [Math.max(size.x, size.y, size.z)]. *)
Definition largestExtent (size : Vec3) : float :=
  Math_max (Math_max (x size) (y size)) (z size).

(** The body of the loop of [getStatistics]. Reading [part.size.x] of a
    part without a size throws a [TypeError]. *)
Definition countPart (stats : Statistics) (part : Part) : Completion Statistics :=
  match size part with
  | Some size =>
      let partSize := largestExtent size in
      Normal {| totalParts := totalParts stats;
                totalVertices := totalVertices stats + length (vertices part);
                totalFaces := totalFaces stats + length (faces part);
                partTypes := <[type part := default 0 (partTypes stats !! type part) + 1]>
                               (partTypes stats);
                sizeRange :=
                  {| rangeMin := Math_min (rangeMin (sizeRange stats)) partSize;
                     rangeMax := Math_max (rangeMax (sizeRange stats)) partSize |} |}
  | None => Throw "Cannot read properties of undefined (reading 'x')"
  end.

Definition getStatistics (this : PartAnalyzer) : Completion Statistics :=
  foldM countPart
    {| totalParts := length (parts this); totalVertices := 0; totalFaces := 0;
       partTypes := ∅;
       sizeRange := {| rangeMin := PrimFloat.infinity; rangeMax := 0 |} |}
    (parts this).

(** [findPartsByType(type)] for a string. *)
Definition findPartsByType (type : string) (this : PartAnalyzer) : list Part :=
  List.filter (λ part, String.eqb (PartAnalyzer.type part) type) (parts this).

(** [part.size.x * part.size.y * part.size.z]. *)
Definition volume (part : Part) : Completion float :=
  match size part with
  | Some size => Normal (PrimFloat.mul (PrimFloat.mul (x size) (y size)) (z size))
  | None => Throw "Cannot read properties of undefined (reading 'x')"
  end.

(** The callback of [reduce] in [getLargestPart]. *)
Definition largerOf (largest current : Part) : Completion Part :=
  bind (volume current) (λ currentVolume,
    bind (volume largest) (λ largestVolume,
      Normal (if PrimFloat.ltb largestVolume currentVolume then current else largest))).

(** The callback of [reduce] in [getSmallestPart]. *)
Definition smallerOf (smallest current : Part) : Completion Part :=
  bind (volume current) (λ currentVolume,
    bind (volume smallest) (λ smallestVolume,
      Normal (if PrimFloat.ltb currentVolume smallestVolume then current else smallest))).

(** [getLargestPart()]: [None] is [null]; [reduce] without an initial
    value starts from the first part and calls back from the second on. *)
Definition getLargestPart (this : PartAnalyzer) : Completion (option Part) :=
  match parts this with
  | [] => Normal None
  | first :: rest => bind (foldM largerOf first rest) (λ part, Normal (Some part))
  end.

Definition getSmallestPart (this : PartAnalyzer) : Completion (option Part) :=
  match parts this with
  | [] => Normal None
  | first :: rest => bind (foldM smallerOf first rest) (λ part, Normal (Some part))
  end.

End PartAnalyzer.

(** ** The part manager ([part-manager.js]) *)

Module PartManager.

(** A reference to a material object. Materials are shared: several
    meshes may hold the same reference, and a write through one of them is
    seen through the others. *)
Inductive MaterialRef :=
| External (n : nat)         (* created by the application, e.g. hdpeMaterial *)
| Original (partId : string) (* the clone kept in originalMaterials *)
| Highlight                  (* this.highlightMaterial *)
| Highlight2                 (* this.highlight2Material *)
| Hidden.                    (* this.hiddenMaterial *)

Global Instance MaterialRef_eq_dec : EqDecision MaterialRef.
Proof. solve_decision. Defined.

Global Instance MaterialRef_countable : Countable MaterialRef.
Proof.
  refine (inj_countable'
    (λ r, match r with
          | External n => inl (inl n)
          | Original i => inl (inr i)
          | Highlight => inr 0
          | Highlight2 => inr 1
          | Hidden => inr 2
          end)
    (λ e, match e with
          | inl (inl n) => External n
          | inl (inr i) => Original i
          | inr 0 => Highlight
          | inr 1 => Highlight2
          | inr _ => Hidden
          end) _).
  by intros [].
Defined.

(** The invisible [Object3D] of a section: its plane type and where
    [positionSectionPlane] has put it. [offset] is the slider position the
    placement was computed from, [None] while the object sits at the origin
    (a plane type other than XY, XZ and YZ places nothing). *)
Record SectionPlane := { planeType : string; offset : option float }.

(** A [THREE.Plane] set from the normal and the position of a section
    plane. *)
Record ClippingPlane := { clipType : string; clipOffset : option float }.

(** The fields of a material that the manager writes. *)
Record Material := {
  clippingPlanes : option (list ClippingPlane);
  clipIntersection : bool;
  needsUpdate : bool
}.

(** A mesh handle of the rendering engine; [glowChildren] counts the
    children added by [addGlowEffect]. *)
Record Mesh := { visible : bool; material : MaterialRef; glowChildren : nat }.

(** The sprite of a floating label. *)
Record Label := { labelVisible : bool }.

(** The yellow copy of a mesh that shows the cut surface. *)
Record CrossSection := { crossPlane : ClippingPlane }.

(** The green rectangle that shows where the cut is. *)
Record VisualPlane := { visualVisible : bool; visualPlane : SectionPlane }.

(** An entry of [this.parts]: the part data and the overlay flags. The
    [mesh] field of the entry is the object stored under the same key in
    [partMeshes]. [insertionRank] is no property of the object: it is the
    place of the key in the insertion order that the Map [this.parts]
    keeps and that [this.parts.values()] follows, smaller ranks first. *)
Record RegisteredPart := {
  data : PartAnalyzer.Part;
  originalVisible : bool;
  isSelected : bool;
  isHighlighted : bool;
  isHidden : bool;
  insertionRank : nat
}.

(** The rank of the next key that is new to a Map with the entries [m]:
    one more than the largest rank in use. *)
Definition nextRank (m : gmap string RegisteredPart) : nat :=
  map_fold (λ _ p n, Nat.max (S (insertionRank p)) n) 0%nat m.

(** The values of a Map in the order of their ranks, first to last. *)
Fixpoint insertBy {A} (rank : A → nat) (a : A) (l : list A) : list A :=
  match l with
  | [] => [a]
  | b :: l' => if Nat.ltb (rank a) (rank b) then a :: b :: l' else b :: insertBy rank a l'
  end.

Definition sortBy {A} (rank : A → nat) (l : list A) : list A :=
  foldr (insertBy rank) [] l.

Definition valuesInOrder (m : gmap string RegisteredPart) : list RegisteredPart :=
  sortBy insertionRank (map_to_list m).*2.

(** The fields of the class. A mesh or label object is identified with
    the part id it is registered under (the loader registers each mesh
    once and writes the id into [mesh.userData.partId]); the material
    objects live in [materialStore]. [preIsolationState] is undefined
    until [isolatePart] has run; [cuttingPlaneVisuals] is undefined until
    the first section is created. *)
Record PartManager := {
  parts : gmap string RegisteredPart;
  partMeshes : gmap string Mesh;
  partLabels : gmap string Label;
  selectedPart : option string;
  visibleParts : gset string;
  highlightedParts : gset string;
  sectionPlanes : gmap string SectionPlane;
  crossSections : gmap string CrossSection;
  cuttingPlaneVisuals : option (gmap string VisualPlane);
  sectionedPartId : option string;
  showCuttingPlane : bool;
  originalMaterials : gmap string MaterialRef;
  highlight2Material : option MaterialRef;
  materialStore : gmap MaterialRef Material;
  preIsolationState : option (gmap string bool);
  localClippingEnabled : bool
}.

Definition setParts (v : gmap string RegisteredPart) (this : PartManager) : PartManager :=
  {| parts := v; partMeshes := partMeshes this; partLabels := partLabels this;
     selectedPart := selectedPart this; visibleParts := visibleParts this;
     highlightedParts := highlightedParts this; sectionPlanes := sectionPlanes this;
     crossSections := crossSections this;
     cuttingPlaneVisuals := cuttingPlaneVisuals this;
     sectionedPartId := sectionedPartId this;
     showCuttingPlane := showCuttingPlane this;
     originalMaterials := originalMaterials this;
     highlight2Material := highlight2Material this;
     materialStore := materialStore this; preIsolationState := preIsolationState this;
     localClippingEnabled := localClippingEnabled this |}.

Definition setPartMeshes (v : gmap string Mesh) (this : PartManager) : PartManager :=
  {| parts := parts this; partMeshes := v; partLabels := partLabels this;
     selectedPart := selectedPart this; visibleParts := visibleParts this;
     highlightedParts := highlightedParts this; sectionPlanes := sectionPlanes this;
     crossSections := crossSections this;
     cuttingPlaneVisuals := cuttingPlaneVisuals this;
     sectionedPartId := sectionedPartId this;
     showCuttingPlane := showCuttingPlane this;
     originalMaterials := originalMaterials this;
     highlight2Material := highlight2Material this;
     materialStore := materialStore this; preIsolationState := preIsolationState this;
     localClippingEnabled := localClippingEnabled this |}.

Definition setPartLabels (v : gmap string Label) (this : PartManager) : PartManager :=
  {| parts := parts this; partMeshes := partMeshes this; partLabels := v;
     selectedPart := selectedPart this; visibleParts := visibleParts this;
     highlightedParts := highlightedParts this; sectionPlanes := sectionPlanes this;
     crossSections := crossSections this;
     cuttingPlaneVisuals := cuttingPlaneVisuals this;
     sectionedPartId := sectionedPartId this;
     showCuttingPlane := showCuttingPlane this;
     originalMaterials := originalMaterials this;
     highlight2Material := highlight2Material this;
     materialStore := materialStore this; preIsolationState := preIsolationState this;
     localClippingEnabled := localClippingEnabled this |}.

Definition setSelectedPart (v : option string) (this : PartManager) : PartManager :=
  {| parts := parts this; partMeshes := partMeshes this; partLabels := partLabels this;
     selectedPart := v; visibleParts := visibleParts this;
     highlightedParts := highlightedParts this; sectionPlanes := sectionPlanes this;
     crossSections := crossSections this;
     cuttingPlaneVisuals := cuttingPlaneVisuals this;
     sectionedPartId := sectionedPartId this;
     showCuttingPlane := showCuttingPlane this;
     originalMaterials := originalMaterials this;
     highlight2Material := highlight2Material this;
     materialStore := materialStore this; preIsolationState := preIsolationState this;
     localClippingEnabled := localClippingEnabled this |}.

Definition setVisibleParts (v : gset string) (this : PartManager) : PartManager :=
  {| parts := parts this; partMeshes := partMeshes this; partLabels := partLabels this;
     selectedPart := selectedPart this; visibleParts := v;
     highlightedParts := highlightedParts this; sectionPlanes := sectionPlanes this;
     crossSections := crossSections this;
     cuttingPlaneVisuals := cuttingPlaneVisuals this;
     sectionedPartId := sectionedPartId this;
     showCuttingPlane := showCuttingPlane this;
     originalMaterials := originalMaterials this;
     highlight2Material := highlight2Material this;
     materialStore := materialStore this; preIsolationState := preIsolationState this;
     localClippingEnabled := localClippingEnabled this |}.

Definition setHighlightedParts (v : gset string) (this : PartManager) : PartManager :=
  {| parts := parts this; partMeshes := partMeshes this; partLabels := partLabels this;
     selectedPart := selectedPart this; visibleParts := visibleParts this;
     highlightedParts := v; sectionPlanes := sectionPlanes this;
     crossSections := crossSections this;
     cuttingPlaneVisuals := cuttingPlaneVisuals this;
     sectionedPartId := sectionedPartId this;
     showCuttingPlane := showCuttingPlane this;
     originalMaterials := originalMaterials this;
     highlight2Material := highlight2Material this;
     materialStore := materialStore this; preIsolationState := preIsolationState this;
     localClippingEnabled := localClippingEnabled this |}.

Definition setSectionPlanes (v : gmap string SectionPlane) (this : PartManager) : PartManager :=
  {| parts := parts this; partMeshes := partMeshes this; partLabels := partLabels this;
     selectedPart := selectedPart this; visibleParts := visibleParts this;
     highlightedParts := highlightedParts this; sectionPlanes := v;
     crossSections := crossSections this;
     cuttingPlaneVisuals := cuttingPlaneVisuals this;
     sectionedPartId := sectionedPartId this;
     showCuttingPlane := showCuttingPlane this;
     originalMaterials := originalMaterials this;
     highlight2Material := highlight2Material this;
     materialStore := materialStore this; preIsolationState := preIsolationState this;
     localClippingEnabled := localClippingEnabled this |}.

Definition setCrossSections (v : gmap string CrossSection) (this : PartManager) : PartManager :=
  {| parts := parts this; partMeshes := partMeshes this; partLabels := partLabels this;
     selectedPart := selectedPart this; visibleParts := visibleParts this;
     highlightedParts := highlightedParts this; sectionPlanes := sectionPlanes this;
     crossSections := v; cuttingPlaneVisuals := cuttingPlaneVisuals this;
     sectionedPartId := sectionedPartId this;
     showCuttingPlane := showCuttingPlane this;
     originalMaterials := originalMaterials this;
     highlight2Material := highlight2Material this;
     materialStore := materialStore this; preIsolationState := preIsolationState this;
     localClippingEnabled := localClippingEnabled this |}.

Definition setCuttingPlaneVisuals (v : option (gmap string VisualPlane)) (this : PartManager) : PartManager :=
  {| parts := parts this; partMeshes := partMeshes this; partLabels := partLabels this;
     selectedPart := selectedPart this; visibleParts := visibleParts this;
     highlightedParts := highlightedParts this; sectionPlanes := sectionPlanes this;
     crossSections := crossSections this; cuttingPlaneVisuals := v;
     sectionedPartId := sectionedPartId this;
     showCuttingPlane := showCuttingPlane this;
     originalMaterials := originalMaterials this;
     highlight2Material := highlight2Material this;
     materialStore := materialStore this; preIsolationState := preIsolationState this;
     localClippingEnabled := localClippingEnabled this |}.

Definition setSectionedPartId (v : option string) (this : PartManager) : PartManager :=
  {| parts := parts this; partMeshes := partMeshes this; partLabels := partLabels this;
     selectedPart := selectedPart this; visibleParts := visibleParts this;
     highlightedParts := highlightedParts this; sectionPlanes := sectionPlanes this;
     crossSections := crossSections this;
     cuttingPlaneVisuals := cuttingPlaneVisuals this; sectionedPartId := v;
     showCuttingPlane := showCuttingPlane this;
     originalMaterials := originalMaterials this;
     highlight2Material := highlight2Material this;
     materialStore := materialStore this; preIsolationState := preIsolationState this;
     localClippingEnabled := localClippingEnabled this |}.

Definition setShowCuttingPlane (v : bool) (this : PartManager) : PartManager :=
  {| parts := parts this; partMeshes := partMeshes this; partLabels := partLabels this;
     selectedPart := selectedPart this; visibleParts := visibleParts this;
     highlightedParts := highlightedParts this; sectionPlanes := sectionPlanes this;
     crossSections := crossSections this;
     cuttingPlaneVisuals := cuttingPlaneVisuals this;
     sectionedPartId := sectionedPartId this; showCuttingPlane := v;
     originalMaterials := originalMaterials this;
     highlight2Material := highlight2Material this;
     materialStore := materialStore this; preIsolationState := preIsolationState this;
     localClippingEnabled := localClippingEnabled this |}.

Definition setOriginalMaterials (v : gmap string MaterialRef) (this : PartManager) : PartManager :=
  {| parts := parts this; partMeshes := partMeshes this; partLabels := partLabels this;
     selectedPart := selectedPart this; visibleParts := visibleParts this;
     highlightedParts := highlightedParts this; sectionPlanes := sectionPlanes this;
     crossSections := crossSections this;
     cuttingPlaneVisuals := cuttingPlaneVisuals this;
     sectionedPartId := sectionedPartId this;
     showCuttingPlane := showCuttingPlane this; originalMaterials := v;
     highlight2Material := highlight2Material this;
     materialStore := materialStore this; preIsolationState := preIsolationState this;
     localClippingEnabled := localClippingEnabled this |}.

Definition setHighlight2Material (v : option MaterialRef) (this : PartManager) : PartManager :=
  {| parts := parts this; partMeshes := partMeshes this; partLabels := partLabels this;
     selectedPart := selectedPart this; visibleParts := visibleParts this;
     highlightedParts := highlightedParts this; sectionPlanes := sectionPlanes this;
     crossSections := crossSections this;
     cuttingPlaneVisuals := cuttingPlaneVisuals this;
     sectionedPartId := sectionedPartId this;
     showCuttingPlane := showCuttingPlane this;
     originalMaterials := originalMaterials this; highlight2Material := v;
     materialStore := materialStore this; preIsolationState := preIsolationState this;
     localClippingEnabled := localClippingEnabled this |}.

Definition setMaterialStore (v : gmap MaterialRef Material) (this : PartManager) : PartManager :=
  {| parts := parts this; partMeshes := partMeshes this; partLabels := partLabels this;
     selectedPart := selectedPart this; visibleParts := visibleParts this;
     highlightedParts := highlightedParts this; sectionPlanes := sectionPlanes this;
     crossSections := crossSections this;
     cuttingPlaneVisuals := cuttingPlaneVisuals this;
     sectionedPartId := sectionedPartId this;
     showCuttingPlane := showCuttingPlane this;
     originalMaterials := originalMaterials this;
     highlight2Material := highlight2Material this; materialStore := v;
     preIsolationState := preIsolationState this;
     localClippingEnabled := localClippingEnabled this |}.

Definition setPreIsolationState (v : option (gmap string bool)) (this : PartManager) : PartManager :=
  {| parts := parts this; partMeshes := partMeshes this; partLabels := partLabels this;
     selectedPart := selectedPart this; visibleParts := visibleParts this;
     highlightedParts := highlightedParts this; sectionPlanes := sectionPlanes this;
     crossSections := crossSections this;
     cuttingPlaneVisuals := cuttingPlaneVisuals this;
     sectionedPartId := sectionedPartId this;
     showCuttingPlane := showCuttingPlane this;
     originalMaterials := originalMaterials this;
     highlight2Material := highlight2Material this;
     materialStore := materialStore this; preIsolationState := v;
     localClippingEnabled := localClippingEnabled this |}.

Definition setLocalClippingEnabled (v : bool) (this : PartManager) : PartManager :=
  {| parts := parts this; partMeshes := partMeshes this; partLabels := partLabels this;
     selectedPart := selectedPart this; visibleParts := visibleParts this;
     highlightedParts := highlightedParts this; sectionPlanes := sectionPlanes this;
     crossSections := crossSections this;
     cuttingPlaneVisuals := cuttingPlaneVisuals this;
     sectionedPartId := sectionedPartId this;
     showCuttingPlane := showCuttingPlane this;
     originalMaterials := originalMaterials this;
     highlight2Material := highlight2Material this;
     materialStore := materialStore this; preIsolationState := preIsolationState this;
     localClippingEnabled := v |}.

(** [new PartManager(scene, camera, renderer)]. *)
Definition constructor : PartManager :=
  {| parts := ∅; partMeshes := ∅; partLabels := ∅; selectedPart := None;
     visibleParts := ∅; highlightedParts := ∅; sectionPlanes := ∅; crossSections := ∅;
     cuttingPlaneVisuals := None; sectionedPartId := None; showCuttingPlane := true;
     originalMaterials := ∅; highlight2Material := None; materialStore := ∅;
     preIsolationState := None; localClippingEnabled := false |}.

(** [for (const [key, value] of map) body]. A JavaScript [Map] is visited
    in insertion order, a [gmap] in the order of its keys: the loops of
    the class write, at each visit, what is stored under the visited key
    (the entry, its mesh, its label, its membership in a set), so both
    orders end in the same state. *)
Definition forOf {V S} (m : gmap string V) (body : string → V → S → S) (s : S) : S :=
  map_fold body s m.

(** A material the engine has just created. *)
Definition newMaterial : Material :=
  {| clippingPlanes := None; clipIntersection := false; needsUpdate := false |}.

(** The material object behind a reference. *)
Definition getMaterial (r : MaterialRef) (this : PartManager) : Material :=
  default newMaterial (materialStore this !! r).

Definition setVisible (v : bool) (m : Mesh) : Mesh :=
  {| visible := v; material := material m; glowChildren := glowChildren m |}.

Definition setMaterial (r : MaterialRef) (m : Mesh) : Mesh :=
  {| visible := visible m; material := r; glowChildren := glowChildren m |}.

Definition setGlowChildren (n : nat) (m : Mesh) : Mesh :=
  {| visible := visible m; material := material m; glowChildren := n |}.

Definition setIsSelected (b : bool) (p : RegisteredPart) : RegisteredPart :=
  {| data := data p; originalVisible := originalVisible p; isSelected := b;
     isHighlighted := isHighlighted p; isHidden := isHidden p;
     insertionRank := insertionRank p |}.

Definition setIsHighlighted (b : bool) (p : RegisteredPart) : RegisteredPart :=
  {| data := data p; originalVisible := originalVisible p; isSelected := isSelected p;
     isHighlighted := b; isHidden := isHidden p; insertionRank := insertionRank p |}.

Definition setIsHidden (b : bool) (p : RegisteredPart) : RegisteredPart :=
  {| data := data p; originalVisible := originalVisible p; isSelected := isSelected p;
     isHighlighted := isHighlighted p; isHidden := b; insertionRank := insertionRank p |}.

(** [mesh.visible = v] for the mesh registered under [id]. *)
Definition setMeshVisible (id : string) (v : bool) (this : PartManager) : PartManager :=
  setPartMeshes (alter (setVisible v) id (partMeshes this)) this.

(** [mesh.material = r] for the mesh registered under [id]. *)
Definition setMeshMaterial (id : string) (r : MaterialRef) (this : PartManager)
  : PartManager :=
  setPartMeshes (alter (setMaterial r) id (partMeshes this)) this.

Definition createPartLabel (partId : string) (partData : PartAnalyzer.Part)
  (this : PartManager) : PartManager :=
  setPartLabels (<[partId := {| labelVisible := true |}]> (partLabels this)) this.

Definition addPart (partData : PartAnalyzer.Part) (mesh : Mesh) (this : PartManager)
  : PartManager :=
  let partId := PartAnalyzer.partNumber partData in
  let this1 :=
    setParts (<[partId := {| data := partData; originalVisible := true;
                             isSelected := false; isHighlighted := false;
                             isHidden := false;
                             insertionRank :=
                               match parts this !! partId with
                               | Some entry => insertionRank entry
                               | None => nextRank (parts this)
                               end |}]> (parts this)) this in
  let this2 := setPartMeshes (<[partId := mesh]> (partMeshes this1)) this1 in
  let this3 := setVisibleParts ({[partId]} ∪ visibleParts this2) this2 in
  let this4 :=
    setOriginalMaterials (<[partId := Original partId]> (originalMaterials this3))
      (setMaterialStore
         (<[Original partId := getMaterial (material mesh) this3]> (materialStore this3))
         this3) in
  createPartLabel partId partData this4.

Definition isInSectioningMode (this : PartManager) : bool :=
  bool_decide (sectionedPartId this ≠ None).

Definition maintainSectioningIsolation (this : PartManager) : PartManager :=
  match sectionedPartId this with
  | Some sectioned =>
      forOf (partMeshes this)
        (λ id _ this', if bool_decide (id ≠ sectioned)
                       then setMeshVisible id false this'
                       else setMeshVisible id true this')
        this
  | None => this
  end.

Definition forceSectioningMode (partId : string) (this : PartManager) : PartManager :=
  maintainSectioningIsolation (setSectionedPartId (Some partId) this).

(** The per-frame tick. *)
Definition update (this : PartManager) : PartManager :=
  let this1 := maintainSectioningIsolation this in
  match sectionedPartId this1 with
  | Some sectioned =>
      if (negb (String.eqb sectioned "") && negb (isInSectioningMode this1))%bool
      then forceSectioningMode sectioned this1
      else this1
  | None => this1
  end.

Definition addGlowEffect (id : string) (this : PartManager) : PartManager :=
  setPartMeshes (alter (λ m, setGlowChildren (S (glowChildren m)) m) id (partMeshes this))
    this.

Definition removeGlowEffect (id : string) (this : PartManager) : PartManager :=
  setPartMeshes (alter (λ m, setGlowChildren (Nat.pred (glowChildren m)) m) id
                   (partMeshes this)) this.

Definition highlightPart (partId : string) (this : PartManager) : PartManager :=
  match parts this !! partId, partMeshes this !! partId with
  | Some part, Some _ =>
      if isHighlighted part then this
      else
        let this1 := setParts (<[partId := setIsHighlighted true part]> (parts this)) this in
        let this2 := setHighlightedParts ({[partId]} ∪ highlightedParts this1) this1 in
        addGlowEffect partId (setMeshMaterial partId Highlight this2)
  | _, _ => this
  end.

Definition removeHighlight (partId : string) (this : PartManager) : PartManager :=
  match parts this !! partId, partMeshes this !! partId with
  | Some part, Some _ =>
      if isHighlighted part then
        let this1 := setParts (<[partId := setIsHighlighted false part]> (parts this)) this in
        let this2 := setHighlightedParts (highlightedParts this1 ∖ {[partId]}) this1 in
        let this3 := match originalMaterials this2 !! partId with
                     | Some originalMaterial => setMeshMaterial partId originalMaterial this2
                     | None => this2
                     end in
        removeGlowEffect partId this3
      else this
  | _, _ => this
  end.

Definition deselectPart (partId : string) (this : PartManager) : PartManager :=
  let this1 :=
    match parts this !! partId with
    | Some part =>
        removeHighlight partId
          (setParts (<[partId := setIsSelected false part]> (parts this)) this)
    | None => this
    end in
  maintainSectioningIsolation this1.

Definition selectPart (partId : string) (this : PartManager) : PartManager :=
  let this1 :=
    match selectedPart this with
    | Some selected =>
        if (negb (String.eqb selected "") && negb (String.eqb selected partId))%bool
        then deselectPart selected this
        else this
    | None => this
    end in
  let this2 := setSelectedPart (Some partId) this1 in
  let this3 :=
    match parts this2 !! partId with
    | Some part =>
        highlightPart partId
          (setParts (<[partId := setIsSelected true part]> (parts this2)) this2)
    | None => this2
    end in
  maintainSectioningIsolation this3.

Definition deselectAllParts (this : PartManager) : PartManager :=
  let this1 :=
    match selectedPart this with
    | Some selected =>
        if String.eqb selected "" then this
        else setSelectedPart None (deselectPart selected this)
    | None => this
    end in
  maintainSectioningIsolation this1.

(** [handleClick(event)]; [hit] is the part id that [getClickedPart] finds
    under the pointer, if any. *)
Definition handleClick (hit : option string) (this : PartManager) : PartManager :=
  if isInSectioningMode this then this
  else match hit with
       | Some partId => selectPart partId this
       | None => deselectAllParts this
       end.

(** The application calls this once, after the registry is loaded; the
    material it creates is the object [Highlight2]. *)
Definition createHighlight2Material (this : PartManager) : PartManager :=
  setHighlight2Material (Some Highlight2)
    (setMaterialStore (<[Highlight2 := newMaterial]> (materialStore this)) this).

Definition switchToOrangeHighlight (partId : string) (this : PartManager) : PartManager :=
  match parts this !! partId, partMeshes this !! partId with
  | Some part, Some _ =>
      if isHighlighted part then
        let this1 := match highlight2Material this with
                     | Some _ => this
                     | None => createHighlight2Material this
                     end in
        setMeshMaterial partId (default Highlight2 (highlight2Material this1)) this1
      else this
  | _, _ => this
  end.

Definition switchToGreenHighlight (partId : string) (this : PartManager) : PartManager :=
  match parts this !! partId, partMeshes this !! partId with
  | Some part, Some _ =>
      if isHighlighted part then setMeshMaterial partId Highlight this else this
  | _, _ => this
  end.

Definition toggleCuttingPlaneVisibility (show : bool) (this : PartManager) : PartManager :=
  let this1 := setShowCuttingPlane show this in
  match cuttingPlaneVisuals this1 with
  | Some visuals =>
      setCuttingPlaneVisuals
        (Some (forOf visuals
                 (λ id _ vs, alter (λ vp, {| visualVisible := show;
                                             visualPlane := visualPlane vp |}) id vs)
                 visuals))
        this1
  | None => this1
  end.

Definition hidePart (partId : string) (this : PartManager) : PartManager :=
  match parts this !! partId, partMeshes this !! partId with
  | Some part, Some _ =>
      let this1 := setParts (<[partId := setIsHidden true part]> (parts this)) this in
      let this2 := setMeshVisible partId false this1 in
      let this3 := setVisibleParts (visibleParts this2 ∖ {[partId]}) this2 in
      setPartLabels (alter (λ _, {| labelVisible := false |}) partId (partLabels this3)) this3
  | _, _ => this
  end.

Definition showPart (partId : string) (this : PartManager) : PartManager :=
  match parts this !! partId, partMeshes this !! partId with
  | Some part, Some _ =>
      let this1 := setParts (<[partId := setIsHidden false part]> (parts this)) this in
      let this2 := setMeshVisible partId true this1 in
      let this3 := setVisibleParts ({[partId]} ∪ visibleParts this2) this2 in
      setPartLabels (alter (λ _, {| labelVisible := true |}) partId (partLabels this3)) this3
  | _, _ => this
  end.

Definition togglePartVisibility (partId : string) (this : PartManager) : PartManager :=
  match parts this !! partId with
  | Some part => if isHidden part then showPart partId this else hidePart partId this
  | None => this
  end.

Definition isolatePart (partId : string) (this : PartManager) : PartManager :=
  let snapshot :=
    forOf (parts this) (λ id part snap, <[id := isHidden part]> snap)
      (∅ : gmap string bool) in
  let this1 := setPreIsolationState (Some snapshot) this in
  forOf (parts this1)
    (λ id _ this', if bool_decide (id ≠ partId) then hidePart id this'
                   else showPart id this')
    this1.

Definition showAllParts (this : PartManager) : PartManager :=
  match preIsolationState this with
  | Some snapshot =>
      forOf snapshot
        (λ partId wasHidden this',
           if wasHidden then hidePart partId this' else showPart partId this')
        this
  | None => forOf (parts this) (λ partId _ this', showPart partId this') this
  end.

Definition togglePartLabels (visible : bool) (this : PartManager) : PartManager :=
  setPartLabels
    (forOf (partLabels this)
       (λ id _ labels, alter (λ _, {| labelVisible := visible |}) id labels)
       (partLabels this))
    this.

(** [positionSectionPlane(plane, planeType, position, mesh)]: the plane
    is put at the centre of the mesh's box, moved by
    [position * halfExtent] along the axis of the plane type. *)
Definition positionSectionPlane (plane : SectionPlane) (planeType : string)
  (position : float) : SectionPlane :=
  if (String.eqb planeType "XY" || String.eqb planeType "XZ" || String.eqb planeType "YZ")%bool
  then {| planeType := PartManager.planeType plane; offset := Some position |}
  else {| planeType := PartManager.planeType plane; offset := None |}.

(** The [THREE.Plane] through a section plane. *)
Definition clippingPlaneOf (sectionPlane : SectionPlane) : ClippingPlane :=
  {| clipType := planeType sectionPlane; clipOffset := offset sectionPlane |}.

Definition createCrossSectionMaterial (id : string) (sectionPlane : SectionPlane)
  (this : PartManager) : PartManager :=
  setCrossSections
    (<[id := {| crossPlane := clippingPlaneOf sectionPlane |}]> (crossSections this)) this.

Definition createCuttingPlaneVisualization (id : string) (sectionPlane : SectionPlane)
  (this : PartManager) : PartManager :=
  let visual := {| visualVisible := showCuttingPlane this; visualPlane := sectionPlane |} in
  let visuals := default ∅ (cuttingPlaneVisuals this) in
  setCuttingPlaneVisuals (Some (<[id := visual]> visuals)) this.

(** [addClippingPlane(mesh, sectionPlane)] for the mesh registered under
    [id]: the plane is pushed onto the clipping planes of the material the
    mesh holds at that moment. *)
Definition addClippingPlane (id : string) (sectionPlane : SectionPlane)
  (this : PartManager) : PartManager :=
  match partMeshes this !! id with
  | Some mesh =>
      let m := getMaterial (material mesh) this in
      let planes := default [] (clippingPlanes m) in
      let m' := {| clippingPlanes := Some (planes ++ [clippingPlaneOf sectionPlane])%list;
                   clipIntersection := false; needsUpdate := true |} in
      let this1 := setMaterialStore (<[material mesh := m']> (materialStore this)) this in
      let this2 := setLocalClippingEnabled true this1 in
      createCuttingPlaneVisualization id sectionPlane
        (createCrossSectionMaterial id sectionPlane this2)
  | None => this
  end.

Definition removeSectionPlane (partId : string) (this : PartManager) : PartManager :=
  let sectionPlane := sectionPlanes this !! partId in
  let crossSection := crossSections this !! partId in
  let this1 :=
    match sectionPlane with
    | Some _ =>
        let this' :=
          match partMeshes this !! partId with
          | Some mesh =>
              let m := getMaterial (material mesh) this in
              match clippingPlanes m with
              | Some _ =>
                  setMaterialStore
                    (<[material mesh := {| clippingPlanes := Some [];
                                           clipIntersection := clipIntersection m;
                                           needsUpdate := true |}]> (materialStore this))
                    this
              | None => this
              end
          | None => this
          end in
        setSectionPlanes (delete partId (sectionPlanes this')) this'
    | None => this
    end in
  let this2 :=
    match crossSection with
    | Some _ => setCrossSections (delete partId (crossSections this1)) this1
    | None => this1
    end in
  let this3 :=
    match cuttingPlaneVisuals this2 with
    | Some visuals =>
        match visuals !! partId with
        | Some _ => setCuttingPlaneVisuals (Some (delete partId visuals)) this2
        | None => this2
        end
    | None => this2
    end in
  let this4 := forOf (partMeshes this3) (λ id _ this', setMeshVisible id true this') this3 in
  let this5 := setSectionedPartId None this4 in
  if bool_decide (selectedPart this5 = Some partId)
  then switchToGreenHighlight partId this5
  else this5.

(** [createSectionPlane(partId, planeType, position)]: the returned
    section plane ([None] is [null]) and the manager after the call. *)
Definition createSectionPlane (partId planeType : string) (position : float)
  (this : PartManager) : option SectionPlane * PartManager :=
  match parts this !! partId, partMeshes this !! partId with
  | Some _, Some _ =>
      let this1 := removeSectionPlane partId this in
      let this2 :=
        forOf (partMeshes this1)
          (λ id _ this', if bool_decide (id ≠ partId) then setMeshVisible id false this'
                         else this')
          this1 in
      let this3 := forceSectioningMode partId this2 in
      let sectionPlane :=
        positionSectionPlane {| planeType := planeType; offset := None |} planeType position in
      let this4 := setSectionPlanes (<[partId := sectionPlane]> (sectionPlanes this3)) this3 in
      let this5 := switchToOrangeHighlight partId this4 in
      (Some sectionPlane, addClippingPlane partId sectionPlane this5)
  | _, _ => (None, this)
  end.

Definition updateSectionPlane (partId : string) (position : float) (this : PartManager)
  : PartManager :=
  match sectionPlanes this !! partId, partMeshes this !! partId with
  | Some sectionPlane, Some mesh =>
      let crossSection := crossSections this !! partId in
      let moved := positionSectionPlane sectionPlane (planeType sectionPlane) position in
      let this1 := setSectionPlanes (<[partId := moved]> (sectionPlanes this)) this in
      let this2 :=
        match cuttingPlaneVisuals this1 with
        | Some visuals =>
            setCuttingPlaneVisuals
              (Some (alter (λ vp, {| visualVisible := visualVisible vp;
                                     visualPlane := moved |}) partId visuals)) this1
        | None => this1
        end in
      let m := getMaterial (material mesh) this2 in
      let this3 :=
        match clippingPlanes m with
        | Some (_ :: planes) =>
            setMaterialStore
              (<[material mesh := {| clippingPlanes := Some (clippingPlaneOf moved :: planes);
                                     clipIntersection := clipIntersection m;
                                     needsUpdate := needsUpdate m |}]> (materialStore this2))
              this2
        | _ => this2
        end in
      match crossSection with
      | Some _ =>
          setCrossSections
            (<[partId := {| crossPlane := clippingPlaneOf moved |}]> (crossSections this3))
            this3
      | None => this3
      end
  | _, _ => this
  end.

(** [getSelectedPart()]. *)
Definition getSelectedPart (this : PartManager) : option RegisteredPart :=
  match selectedPart this with
  | Some selected => if String.eqb selected "" then None else parts this !! selected
  | None => None
  end.

(** [hasSectionPlane(partId)]. *)
Definition hasSectionPlane (partId : string) (this : PartManager) : bool :=
  bool_decide (is_Some (sectionPlanes this !! partId)).

(** The operations the interaction layer calls on a loaded registry, and
    the per-frame tick. *)
Inductive Op :=
| SelectPart (partId : string)
| DeselectPart (partId : string)
| DeselectAllParts
| HandleClick (hit : option string)
| HighlightPart (partId : string)
| RemoveHighlight (partId : string)
| HidePart (partId : string)
| ShowPart (partId : string)
| TogglePartVisibility (partId : string)
| IsolatePart (partId : string)
| ShowAllParts
| TogglePartLabels (visible : bool)
| ToggleCuttingPlaneVisibility (show : bool)
| CreateSectionPlane (partId planeType : string) (position : float)
| UpdateSectionPlane (partId : string) (position : float)
| RemoveSectionPlane (partId : string)
| Update.

Definition step (op : Op) (this : PartManager) : PartManager :=
  match op with
  | SelectPart partId => selectPart partId this
  | DeselectPart partId => deselectPart partId this
  | DeselectAllParts => deselectAllParts this
  | HandleClick hit => handleClick hit this
  | HighlightPart partId => highlightPart partId this
  | RemoveHighlight partId => removeHighlight partId this
  | HidePart partId => hidePart partId this
  | ShowPart partId => showPart partId this
  | TogglePartVisibility partId => togglePartVisibility partId this
  | IsolatePart partId => isolatePart partId this
  | ShowAllParts => showAllParts this
  | TogglePartLabels visible => togglePartLabels visible this
  | ToggleCuttingPlaneVisibility show => toggleCuttingPlaneVisibility show this
  | CreateSectionPlane partId planeType position =>
      (createSectionPlane partId planeType position this).2
  | UpdateSectionPlane partId position => updateSectionPlane partId position this
  | RemoveSectionPlane partId => removeSectionPlane partId this
  | Update => update this
  end.

(** The calls of [ops] made one after the other, first to last. *)
Definition run (ops : list Op) (this : PartManager) : PartManager :=
  fold_left (λ this' op, step op this') ops this.

(** [getAllParts()]: the entries in the order in which the Map keeps
    them, the order in which their keys were first set. *)
Definition getAllParts (this : PartManager) : list RegisteredPart :=
  valuesInOrder (parts this).

(** [getVisibleParts()]. *)
Definition getVisibleParts (this : PartManager) : list RegisteredPart :=
  List.filter (λ part, negb (isHidden part)) (getAllParts this).

(** [findPartsByType(type)] for a string. *)
Definition findPartsByType (type : string) (this : PartManager) : list RegisteredPart :=
  List.filter (λ part, String.eqb (PartAnalyzer.type (data part)) type) (getAllParts this).

(** [getSectionPlane(partId)]; [None] is [undefined]. *)
Definition getSectionPlane (partId : string) (this : PartManager) : option SectionPlane :=
  sectionPlanes this !! partId.

(** [dispose()]. The listeners and the materials that are released are
    not part of the state; [this.highlight2Material.dispose()] throws a
    [TypeError] while the material has not been created, before anything
    is cleared. *)
Definition dispose (this : PartManager) : JS.Completion PartManager :=
  match highlight2Material this with
  | None => JS.Throw "Cannot read properties of null (reading 'dispose')"
  | Some _ =>
      let this1 := match cuttingPlaneVisuals this with
                   | Some _ => setCuttingPlaneVisuals (Some ∅) this
                   | None => this
                   end in
      let this2 := setParts ∅ this1 in
      let this3 := setPartMeshes ∅ this2 in
      let this4 := setPartLabels ∅ this3 in
      let this5 := setOriginalMaterials ∅ this4 in
      let this6 := setVisibleParts ∅ this5 in
      JS.Normal (setHighlightedParts ∅ this6)
  end.

End PartManager.

(** An OBJ text given line by line. *)
Definition objLines (lines : list string) : string :=
  String.concat (String JS.newline EmptyString) lines.

Definition objText (lines : list string) : JS.JSValue := JS.JSString (objLines lines).

(** A tetrahedron with a corner at [(ox, 0, 0)]: four vertices and two
    faces whose indices start at [first]. *)
Definition tetrahedron (ox : string) (first : nat) : list string :=
  [ "v " ++ ox ++ " 0 0"; "v " ++ ox ++ ".5 0 0"; "v " ++ ox ++ " 1 0"; "v " ++ ox ++ " 0 1";
    "f " ++ JS.toString first ++ " " ++ JS.toString (first + 1) ++ " " ++ JS.toString (first + 2);
    "f " ++ JS.toString first ++ " " ++ JS.toString (first + 1) ++ " " ++ JS.toString (first + 3) ].

(** * The vocabulary of the statements *)

Section AnalyzerVocabulary.
Import JS PartAnalyzer.

(** What the analyzer keeps of a part: vertices, faces and a box of
    positive extent on the three axes, computed from the vertices. *)
Definition Retained (p : Part) : Prop :=
  0 < length (vertices p) ∧ 0 < length (faces p) ∧
  boundingBox p = Some (boxOf (vertices p)) ∧
  ∃ s, size p = Some s ∧ s = sizeOf (boxOf (vertices p)) ∧
       positive (x s) = true ∧ positive (y s) = true ∧ positive (z s) = true.

(** Every recorded corner of every face has a 0-based vertex index: a
    number that is not below zero, hence not [NaN]. *)
Definition FacesFromOne (p : Part) : Prop :=
  Forall (Forall (λ fv, PrimFloat.leb 0 (vertexIndex fv) = true)) (faces p).

(** What one line of the input can do to the analyzer: nothing, open a
    part as [handleObjectName] does, or change the data of the open part. *)
Inductive LineEffect (this : PartAnalyzer) : PartAnalyzer → Prop :=
| NoEffect : LineEffect this this
| Opens (n : string) : LineEffect this (handleObjectName n this)
| Edits (cur cur' : Part) :
    currentPart this = Some cur →
    name cur' = name cur →
    partNumber cur' = partNumber cur →
    (faces cur' = faces cur ∨
     ∃ face, faces cur' = (faces cur ++ [face])%list ∧
             Forall (λ fv, PrimFloat.leb 0 (vertexIndex fv) = true) face) →
    LineEffect this (setCurrentPart (Some cur') this).

(** The numbers of the accepted parts count up from one, and the open
    part holds the next number. *)
Definition Numbered (this : PartAnalyzer) : Prop :=
  (∀ k p, parts this !! k = Some p → partNumber p = formatPartNumber (k + 1)) ∧
  (∀ c, currentPart this = Some c →
        partNumber c = formatPartNumber (length (parts this) + 1)).

(** The first token of a line, on which [analyzeOBJ] switches. *)
Definition commandOf (line : string) : string := List.hd "" (splitWhitespace (trim line)).

(** An [o] line or a [g] line. *)
Definition opensPart (line : string) : bool :=
  (String.eqb (commandOf line) "o" || String.eqb (commandOf line) "g")%bool.

(** A line that [analyzeOBJ] passes over: blank, or a comment. *)
Definition skipped (line : string) : bool :=
  (String.eqb (trim line) "" || startsWith (trim line) "#")%bool.

(** A string without a line feed. *)
Definition oneLine (line : string) : Prop := splitChar newline line = [line].

(** The open part after [this.currentPart.vertices.push(v)], and after
    the other four writes of the handlers. *)
Definition pushVertex (v : Vec3) (cur : Part) : Part :=
  {| name := name cur; vertices := vertices cur ++ [v]; normals := normals cur;
     textureCoords := textureCoords cur; faces := faces cur; material := material cur;
     boundingBox := boundingBox cur; center := center cur; size := size cur;
     partNumber := partNumber cur; type := type cur |}.

Definition pushNormal (n : Vec3) (cur : Part) : Part :=
  {| name := name cur; vertices := vertices cur; normals := normals cur ++ [n];
     textureCoords := textureCoords cur; faces := faces cur; material := material cur;
     boundingBox := boundingBox cur; center := center cur; size := size cur;
     partNumber := partNumber cur; type := type cur |}.

Definition pushTextureCoord (t : TexCoord) (cur : Part) : Part :=
  {| name := name cur; vertices := vertices cur; normals := normals cur;
     textureCoords := textureCoords cur ++ [t]; faces := faces cur; material := material cur;
     boundingBox := boundingBox cur; center := center cur; size := size cur;
     partNumber := partNumber cur; type := type cur |}.

Definition pushFace (face : list FaceVertex) (cur : Part) : Part :=
  {| name := name cur; vertices := vertices cur; normals := normals cur;
     textureCoords := textureCoords cur; faces := faces cur ++ [face];
     material := material cur;
     boundingBox := boundingBox cur; center := center cur; size := size cur;
     partNumber := partNumber cur; type := type cur |}.

Definition useMaterial (m : string) (cur : Part) : Part :=
  {| name := name cur; vertices := vertices cur; normals := normals cur;
     textureCoords := textureCoords cur; faces := faces cur; material := Some m;
     boundingBox := boundingBox cur; center := center cur; size := size cur;
     partNumber := partNumber cur; type := type cur |}.

(** A vector none of whose coordinates is [NaN]. *)
Definition Numeric (v : Vec3) : Prop :=
  PrimFloat.is_nan (x v) = false ∧ PrimFloat.is_nan (y v) = false ∧
  PrimFloat.is_nan (z v) = false.

Definition NumericPart (p : Part) : Prop :=
  Forall Numeric (vertices p) ∧ Forall Numeric (normals p) ∧
  Forall (λ t, PrimFloat.is_nan (u t) = false ∧ PrimFloat.is_nan (v t) = false)
    (textureCoords p).

(** What a data line does to the open part: one of the five writes of
    the handlers, with what the handler has checked. *)
Inductive PartEdit (cur : Part) : Part → Prop :=
| PushesVertex (v : Vec3) : Numeric v → PartEdit cur (pushVertex v cur)
| PushesNormal (n : Vec3) : Numeric n → PartEdit cur (pushNormal n cur)
| PushesTextureCoord (t : TexCoord) :
    PrimFloat.is_nan (u t) = false → PrimFloat.is_nan (v t) = false →
    PartEdit cur (pushTextureCoord t cur)
| PushesFace (face : list FaceVertex) :
    (3 ≤ length face)%nat → PartEdit cur (pushFace face cur)
| UsesMaterial (m : string) : m ≠ "" → PartEdit cur (useMaterial m cur).

(** What a line other than [o] and [g] does to the analyzer: nothing, or
    an edit of the open part. *)
Inductive DataStep (this : PartAnalyzer) : PartAnalyzer → Prop :=
| Passes : DataStep this this
| EditsPart (cur cur' : Part) :
    currentPart this = Some cur → PartEdit cur cur' →
    DataStep this (setCurrentPart (Some cur') this).

(** What a line does: a data step, or what [handleObjectName] does. *)
Inductive LineStep (this : PartAnalyzer) : PartAnalyzer → Prop :=
| DataLine (this' : PartAnalyzer) : DataStep this this' → LineStep this this'
| OpensPart (n : string) : LineStep this (handleObjectName n this).

(** Every face has at least three corners. *)
Definition Polygons (p : Part) : Prop := Forall (λ face, (3 ≤ length face)%nat) (faces p).

(** The name, the type and the material of a part that was opened by
    [handleObjectName]: a part opened without a name is called [Part_k]
    and typed ["Unknown"], a named part is typed by its name. *)
Definition Labelled (p : Part) : Prop :=
  name p ≠ "" ∧ material p ≠ Some "" ∧
  ((type p = "Unknown" ∧ ∃ k, name p = "Part_" ++ toString k) ∨
   (type p ≠ "Unknown" ∧ type p = detectPartType (name p))).

(** [v] lies in [box], bounds included. *)
Definition Encloses (box : BoundingBox) (v : Vec3) : Prop :=
  PrimFloat.leb (x (min box)) (x v) = true ∧ PrimFloat.leb (x v) (x (max box)) = true ∧
  PrimFloat.leb (y (min box)) (y v) = true ∧ PrimFloat.leb (y v) (y (max box)) = true ∧
  PrimFloat.leb (z (min box)) (z v) = true ∧ PrimFloat.leb (z v) (z (max box)) = true.

(** Each of the six bounds of [box] is the coordinate of one of [vs]. *)
Definition Touches (box : BoundingBox) (vs : list Vec3) : Prop :=
  (∃ v, v ∈ vs ∧ x v = x (min box)) ∧ (∃ v, v ∈ vs ∧ x v = x (max box)) ∧
  (∃ v, v ∈ vs ∧ y v = y (min box)) ∧ (∃ v, v ∈ vs ∧ y v = y (max box)) ∧
  (∃ v, v ∈ vs ∧ z v = z (min box)) ∧ (∃ v, v ∈ vs ∧ z v = z (max box)).

(** The part that an [o] line opens: no geometry yet. *)
Definition emptyPart (n number : string) : Part :=
  {| name := n; vertices := []; normals := []; textureCoords := []; faces := [];
     material := None; boundingBox := None; center := None; size := None;
     partNumber := number; type := detectPartType n |}.

(** The open part after the lines of the first example of the
    specification: a triangle in the plane [z = 0]. *)
Definition flatTriangle : Part :=
  pushFace [ {| vertexIndex := 0; textureIndex := -1; normalIndex := -1 |};
             {| vertexIndex := 1; textureIndex := -1; normalIndex := -1 |};
             {| vertexIndex := 2; textureIndex := -1; normalIndex := -1 |} ]
    (pushVertex {| x := 0; y := 1; z := 0 |}
       (pushVertex {| x := 1; y := 0; z := 0 |}
          (pushVertex {| x := 0; y := 0; z := 0 |} (emptyPart "Flange1" "P-001")))).

(** Two outcomes that differ at most in the message of the error. *)
Definition sameOutcome {A} (c1 c2 : Completion A) : Prop :=
  match c1, c2 with
  | Normal a, Normal b => a = b
  | Throw _, Throw _ => True
  | _, _ => False
  end.

(** The largest extent and the volume of a part that has a size, as
    [getStatistics] and [getLargestPart] compute them. *)
Definition partExtent (p : Part) : float :=
  match size p with
  | Some s => largestExtent s
  | None => PrimFloat.nan
  end.

Definition partVolume (p : Part) : float :=
  match size p with
  | Some s => PrimFloat.mul (PrimFloat.mul (x s) (y s)) (z s)
  | None => PrimFloat.nan
  end.

(** The sum of the counts of a table of counts. *)
Definition totalCount (counts : gmap string nat) : nat :=
  map_fold (λ _ n total, n + total) 0 counts.

(** The analyzer after two tetrahedra, the second shifted by two along
    the first axis, have been read. *)
Definition twoSolids : PartAnalyzer :=
  (analyzeOBJ
     (objText (["o bend pipe"] ++ tetrahedron "0" 1 ++ ["o flange"] ++ tetrahedron "2" 5)%list)
     PartAnalyzer.constructor).2.

End AnalyzerVocabulary.

Section ManagerVocabulary.
Import PartManager.

(** The meshes after a loop that has applied [g id] to the mesh of every
    key [id] of [m]. *)
Definition meshesAfter {V} (g : string → Mesh → Mesh) (m : gmap string V)
  (meshes : gmap string Mesh) : gmap string Mesh :=
  map_imap (λ id mesh, Some (match m !! id with Some _ => g id mesh | None => mesh end))
    meshes.

(** [Kept st st']: the sectioned part and the registered keys are the
    same in [st'] as in [st]. *)
Definition Kept (st st' : PartManager) : Prop :=
  sectionedPartId st' = sectionedPartId st ∧
  dom (partMeshes st') = dom (partMeshes st) ∧
  dom (parts st') = dom (parts st).

(** [Painted st st']: moreover every hidden flag and the visibility of
    every mesh are the same. *)
Definition Painted (st st' : PartManager) : Prop :=
  Kept st st' ∧
  (∀ id, isHidden <$> parts st' !! id = isHidden <$> parts st !! id) ∧
  (∀ id, visible <$> partMeshes st' !! id = visible <$> partMeshes st !! id).

(** [Framed st st']: as [Painted], but the visibility is only kept
    outside section mode. *)
Definition Framed (st st' : PartManager) : Prop :=
  Kept st st' ∧
  (∀ id, isHidden <$> parts st' !! id = isHidden <$> parts st !! id) ∧
  (sectionedPartId st = None →
   ∀ id, visible <$> partMeshes st' !! id = visible <$> partMeshes st !! id).

(** [hidePart] for [h = true], [showPart] for [h = false]. *)
Definition applyHidden (h : bool) (i : string) (st : PartManager) : PartManager :=
  if h then hidePart i st else showPart i st.

(** The first half of [removeSectionPlane]: the section plane, the
    cross-section and the visual plane of [partId] are dropped. *)
Definition removePlanes (partId : string) (this : PartManager) : PartManager :=
  let this1 :=
    match sectionPlanes this !! partId with
    | Some _ =>
        let this' :=
          match partMeshes this !! partId with
          | Some mesh =>
              let m := getMaterial (material mesh) this in
              match clippingPlanes m with
              | Some _ =>
                  setMaterialStore
                    (<[material mesh := {| clippingPlanes := Some [];
                                           clipIntersection := clipIntersection m;
                                           needsUpdate := true |}]> (materialStore this))
                    this
              | None => this
              end
          | None => this
          end in
        setSectionPlanes (delete partId (sectionPlanes this')) this'
    | None => this
    end in
  let this2 :=
    match crossSections this !! partId with
    | Some _ => setCrossSections (delete partId (crossSections this1)) this1
    | None => this1
    end in
  match cuttingPlaneVisuals this2 with
  | Some visuals =>
      match visuals !! partId with
      | Some _ => setCuttingPlaneVisuals (Some (delete partId visuals)) this2
      | None => this2
      end
  | None => this2
  end.

(** The state in which [createSectionPlane] stores the new plane: the
    old section of the part is removed and the isolation is in force. *)
Definition isolatedFor (partId : string) (this : PartManager) : PartManager :=
  forceSectioningMode partId
    (forOf (partMeshes (removeSectionPlane partId this))
       (λ id _ this', if bool_decide (id ≠ partId) then setMeshVisible id false this'
                      else this')
       (removeSectionPlane partId this)).

(** The calls that may come between two ticks of a section: every
    operation but the two that start and end a section. *)
Definition betweenTicks (op : Op) : bool :=
  match op with
  | CreateSectionPlane _ _ _ | RemoveSectionPlane _ => false
  | _ => true
  end.

(** Every operation but [removeSectionPlane]. *)
Definition notRemoveSectionPlane (op : Op) : bool :=
  match op with
  | RemoveSectionPlane _ => false
  | _ => true
  end.

(** [Agree R st]: for every registered part, the hidden flag and the
    visibility of the mesh are related by [R]. *)
Definition Agree (R : bool → bool → Prop) (st : PartManager) : Prop :=
  ∀ id p mesh, parts st !! id = Some p → partMeshes st !! id = Some mesh →
               R (isHidden p) (visible mesh).

(** The flag and the visibility are opposite. *)
Definition Lockstep : PartManager → Prop := Agree (λ hidden vis, hidden = negb vis).

(** A part that is not flagged hidden is visible. *)
Definition ShownVisible : PartManager → Prop :=
  Agree (λ hidden vis, hidden = false → vis = true).

(** The material of the mesh registered under [id] holds at least one
    clipping plane. *)
Definition Clipped (id : string) (st : PartManager) : Prop :=
  ∃ mesh planes, partMeshes st !! id = Some mesh ∧
                 clippingPlanes (getMaterial (material mesh) st) = Some planes ∧
                 planes ≠ [].

(** The data the loader registers for a mesh that matches no parsed
    part. *)
Definition partData (name number : string) : PartAnalyzer.Part :=
  {| PartAnalyzer.name := name; PartAnalyzer.vertices := []; PartAnalyzer.normals := [];
     PartAnalyzer.textureCoords := []; PartAnalyzer.faces := [];
     PartAnalyzer.material := None; PartAnalyzer.boundingBox := None;
     PartAnalyzer.center := Some {| PartAnalyzer.x := 0; PartAnalyzer.y := 0;
                                    PartAnalyzer.z := 0 |};
     PartAnalyzer.size := Some {| PartAnalyzer.x := 1; PartAnalyzer.y := 1;
                                  PartAnalyzer.z := 1 |};
     PartAnalyzer.partNumber := number; PartAnalyzer.type := "Component" |}.

(** A mesh as the loader hands it over: visible, with the shared HDPE
    material. *)
Definition hdpeMesh : Mesh := {| visible := true; material := External 0; glowChildren := 0 |}.

(** A registry of two parts, as it is after loading. *)
Definition twoParts : PartManager :=
  addPart (partData "bend pipe" "P-002") hdpeMesh
    (addPart (partData "flange" "P-001") hdpeMesh (createHighlight2Material constructor)).

(** What the manager records of the parts besides the meshes and the
    sections: the entries, the selection, the two sets, the labels, the
    stored materials and the snapshot. *)
Definition bookkeeping (st : PartManager) :=
  (parts st, selectedPart st, visibleParts st, highlightedParts st, partLabels st,
   originalMaterials st, preIsolationState st).

(** At most one part is flagged selected, the one that [selectedPart]
    names; no part is registered under the empty id. *)
Definition SingleSelection (st : PartManager) : Prop :=
  parts st !! "" = None ∧
  ∀ id p, parts st !! id = Some p → isSelected p = true → selectedPart st = Some id.

(** The set [highlightedParts] holds exactly the registered parts that
    are flagged highlighted. *)
Definition HighlightsRecorded (st : PartManager) : Prop :=
  ∀ id, id ∈ highlightedParts st ↔ ∃ p, parts st !! id = Some p ∧ isHighlighted p = true.

(** The set [visibleParts] holds exactly the registered parts that are
    not flagged hidden. *)
Definition VisibleRecorded (st : PartManager) : Prop :=
  ∀ id, id ∈ visibleParts st ↔ ∃ p, parts st !! id = Some p ∧ isHidden p = false.

Definition notIsolatePart (op : Op) : bool :=
  match op with
  | IsolatePart _ => false
  | _ => true
  end.

(** Every registered part has its mesh, as [addPart] leaves it. *)
Definition Meshed (st : PartManager) : Prop :=
  ∀ id, is_Some (parts st !! id) → is_Some (partMeshes st !! id).

End ManagerVocabulary.

(** * The order of the numbers that hold an index *)

Section FaceIndexOrder.

Lemma digits2_pos_lower (m : positive) : (2 ^ (Z.pos (digits2_pos m) - 1) ≤ Z.pos m)%Z.
Proof.
  induction m as [m IH|m IH|]; simpl; [| |done].
  - rewrite Pos2Z.inj_succ. replace (Z.succ (Z.pos (digits2_pos m)) - 1)%Z
      with (Z.succ (Z.pos (digits2_pos m) - 1))%Z by lia.
    rewrite Z.pow_succ_r by lia. lia.
  - rewrite Pos2Z.inj_succ. replace (Z.succ (Z.pos (digits2_pos m)) - 1)%Z
      with (Z.succ (Z.pos (digits2_pos m) - 1))%Z by lia.
    rewrite Z.pow_succ_r by lia. lia.
Qed.

Lemma iter_xO_lower (m d : positive) : (Z.pos m ≤ Z.pos (Pos.iter xO m d))%Z.
Proof.
  revert m. induction d as [d IH|d IH|]; intros m; simpl.
  - specialize (IH m) as H1. specialize (IH (Pos.iter xO m d)) as H2. lia.
  - specialize (IH m) as H1. specialize (IH (Pos.iter xO m d)) as H2. lia.
  - lia.
Qed.

Lemma shr_1_nonneg mrs : (0 ≤ shr_m mrs)%Z → (0 ≤ shr_m (shr_1 mrs))%Z.
Proof. destruct mrs as [[|[p|p|]|p] r s]; simpl; lia. Qed.

Lemma iter_pos_shr_1_nonneg n mrs :
  (0 ≤ shr_m mrs)%Z → (0 ≤ shr_m (SpecFloat.iter_pos shr_1 n mrs))%Z.
Proof.
  revert mrs. induction n as [n IH|n IH|]; intros mrs H; simpl;
    auto using shr_1_nonneg.
Qed.

Lemma shr_fexp_nonneg m e l :
  (0 ≤ m)%Z → (0 ≤ shr_m (shr_fexp prec emax m e l).1)%Z.
Proof.
  intros H. unfold shr_fexp, shr.
  assert (H0 : (0 ≤ shr_m (shr_record_of_loc m l))%Z) by (by destruct l as [|[]]).
  destruct (_ - e)%Z; simpl; auto using iter_pos_shr_1_nonneg.
Qed.

Lemma round_nearest_even_nonneg m l : (0 ≤ m)%Z → (0 ≤ round_nearest_even m l)%Z.
Proof. intros H. destruct l as [|[]]; simpl; try lia. destruct (Z.even m); lia. Qed.

Lemma binary_round_aux_nonneg m e :
  SFleb (S754_zero false) (binary_round_aux prec emax false (Z.pos m) e loc_Exact) = true.
Proof.
  unfold binary_round_aux.
  pose proof (shr_fexp_nonneg (Z.pos m) e loc_Exact ltac:(lia)) as H1.
  destruct (shr_fexp prec emax (Z.pos m) e loc_Exact) as [mrs' e'] eqn:E1. simpl in H1.
  pose proof (shr_fexp_nonneg (round_nearest_even (shr_m mrs') (loc_of_shr_record mrs')) e'
                loc_Exact (round_nearest_even_nonneg _ _ H1)) as H2.
  destruct (shr_fexp prec emax _ e' loc_Exact) as [mrs'' e''] eqn:E2. simpl in H2.
  destruct (shr_m mrs'') as [|p|p]; [done| |lia].
  by destruct (e'' <=? emax - prec)%Z.
Qed.

Lemma binary_normalize_nonneg m e :
  (0 ≤ m)%Z → SFleb (S754_zero false) (binary_normalize prec emax m e false) = true.
Proof.
  intros H. destruct m as [|p|p]; [done| |lia]. unfold binary_normalize, binary_round.
  destruct (shl_align _ _ _) as [mz ez]. apply binary_round_aux_nonneg.
Qed.

(** A number that is not [NaN] and not below one is, less one, not below
    zero. *)
Lemma sub_one_nonneg (v : float) :
  PrimFloat.is_nan v = false → PrimFloat.ltb v 1 = false →
  PrimFloat.leb 0 (v - 1) = true.
Proof.
  intros Hnan Hlt.
  rewrite FloatAxioms.leb_spec, FloatAxioms.sub_spec.
  rewrite FloatAxioms.ltb_spec in Hlt.
  pose proof (FloatAxioms.Prim2SF_valid v) as Hvalid.
  assert (Hn : Prim2SF v ≠ S754_nan).
  { intros E. unfold PrimFloat.is_nan in Hnan.
    rewrite FloatAxioms.eqb_spec, E in Hnan. done. }
  change (Prim2SF 0) with (S754_zero false).
  change (Prim2SF 1) with (S754_finite false 4503599627370496 (-52)) in *.
  destruct (Prim2SF v) as [s|s| |s m e]; try done.
  - by destruct s.
  - destruct s; [done|].
    unfold valid_binary, bounded, canonical_mantissa, fexp, emin in Hvalid.
    apply andb_true_iff in Hvalid as [Hcan _]. apply Z.eqb_eq in Hcan.
    unfold SFltb, SFcompare in Hlt.
    pose proof (digits2_pos_lower m) as Hdig.
    assert (He : (-52 ≤ e)%Z).
    { destruct (Z.compare_spec e (-52)); lia || done. }
    assert (Hd : Z.pos (digits2_pos m) = 53%Z) by (unfold prec, emax in Hcan; lia).
    rewrite Hd in Hdig. change (2 ^ (53 - 1))%Z with 4503599627370496%Z in Hdig.
    unfold SFsub. cbv zeta. apply binary_normalize_nonneg.
    replace (Z.min e (-52)) with (-52)%Z by lia.
    change (shl_align 4503599627370496 (-52) (-52)) with (4503599627370496%positive, (-52)%Z).
    cbn [fst cond_Zopp].
    unfold shl_align. destruct (-52 - e)%Z as [|d|d] eqn:Hd'; cbn [fst]; try lia.
    pose proof (iter_xO_lower m d). lia.
Qed.

End FaceIndexOrder.

(** * Properties of the part analyzer *)

Section AnalyzerProperties.
Import JS PartAnalyzer.

Lemma finalizePart_cases this :
  finalizePart this = this ∧
    (currentPart this = None ∨ ∃ cur, currentPart this = Some cur ∧ vertices cur = [])
  ∨ ∃ cur, currentPart this = Some cur ∧ vertices cur ≠ [] ∧
      finalizePart this =
        setCurrentPart None
          (if validatePart (calculateBoundingBox cur)
           then pushPart (calculateBoundingBox cur) this else this).
Proof.
  unfold finalizePart. destruct (currentPart this) as [cur|] eqn:Hcur; [|left; auto].
  destruct (vertices cur) as [|v0 vs] eqn:Hv.
  - left. split; [done|]. right. by exists cur.
  - right. exists cur. rewrite Hv. done.
Qed.

Lemma finalizePart_idem this : finalizePart (finalizePart this) = finalizePart this.
Proof.
  destruct (finalizePart_cases this) as [[H _]|(cur & _ & _ & ->)]; [by rewrite !H|].
  unfold finalizePart. by destruct (validatePart _).
Qed.

Lemma handleObjectName_unfold n this :
  handleObjectName n this =
  setCurrentPart
    (Some {| name := if String.eqb n "" then "Part_" ++ toString (length (parts (finalizePart this)) + 1)
                     else n;
             vertices := []; normals := []; textureCoords := []; faces := [];
             material := None; boundingBox := None; center := None; size := None;
             partNumber := generatePartNumber (finalizePart this);
             type := detectPartType n |})
    (finalizePart this).
Proof.
  unfold handleObjectName. destruct (currentPart this) eqn:Hcur; [done|].
  by unfold finalizePart; rewrite Hcur.
Qed.

Lemma handleObjectName_finalize n this :
  handleObjectName n (finalizePart this) = handleObjectName n this.
Proof. by rewrite !handleObjectName_unfold, finalizePart_idem. Qed.

Lemma mapM_Forall {A B} (f : A → Completion B) (P : B → Prop) xs ys :
  (∀ a b, f a = Normal b → P b) → mapM f xs = Normal ys → Forall P ys.
Proof.
  intros Hf. revert ys. induction xs as [|a xs IH]; intros ys; simpl.
  - intros [= <-]. constructor.
  - destruct (f a) as [b|] eqn:Hb; simpl; [|done].
    destruct (mapM f xs) as [bs|]; simpl; [|done].
    intros [= <-]. constructor; eauto.
Qed.

Lemma parseFaceVertex_from_one n tok fv :
  parseFaceVertex n tok = Normal fv → PrimFloat.leb 0 (vertexIndex fv) = true.
Proof.
  unfold parseFaceVertex. cbv zeta.
  destruct (PrimFloat.is_nan _) eqn:Hnan; [done|].
  destruct (PrimFloat.ltb _ 1) eqn:Hlt; [done|].
  intros [= <-]. cbn [vertexIndex]. by apply sub_one_nonneg.
Qed.

Lemma handleFace_effect faceData n this this' :
  handleFace faceData n this = Normal this' → LineEffect this this'.
Proof.
  unfold handleFace. destruct (currentPart this) as [cur|] eqn:Hcur.
  2:{ intros [= <-]. constructor. }
  destruct (Nat.leb 3 (length faceData)).
  2:{ intros [= <-]. constructor. }
  destruct (mapM _ faceData) as [face|] eqn:Hface; simpl; [|done].
  intros [= <-]. eapply Edits; eauto. right. exists face. split; [done|].
  eapply mapM_Forall; [|exact Hface]. apply parseFaceVertex_from_one.
Qed.

Lemma handleVertex_effect coords n this this' :
  handleVertex coords n this = Normal this' → LineEffect this this'.
Proof.
  unfold handleVertex. destruct (currentPart this) as [cur|] eqn:Hcur.
  2:{ intros [= <-]. constructor. }
  destruct (Nat.leb 3 (length coords)).
  2:{ intros [= <-]. constructor. }
  destruct (mapM _ coords) as [[|a [|b [|c values]]]|]; simpl; try done;
    intros [= <-]; try constructor.
  eapply Edits; eauto.
Qed.

Lemma handleNormal_effect coords n this this' :
  handleNormal coords n this = Normal this' → LineEffect this this'.
Proof.
  unfold handleNormal. destruct (currentPart this) as [cur|] eqn:Hcur.
  2:{ intros [= <-]. constructor. }
  destruct (Nat.leb 3 (length coords)).
  2:{ intros [= <-]. constructor. }
  destruct (mapM _ coords) as [[|a [|b [|c values]]]|]; simpl; try done;
    intros [= <-]; try constructor.
  eapply Edits; eauto.
Qed.

Lemma handleTextureCoord_effect coords n this this' :
  handleTextureCoord coords n this = Normal this' → LineEffect this this'.
Proof.
  unfold handleTextureCoord. destruct (currentPart this) as [cur|] eqn:Hcur.
  2:{ intros [= <-]. constructor. }
  destruct (Nat.leb 2 (length coords)).
  2:{ intros [= <-]. constructor. }
  destruct (mapM _ coords) as [[|a [|b values]]|]; simpl; try done;
    intros [= <-]; try constructor.
  eapply Edits; eauto.
Qed.

Lemma handleGroupName_effect n this : LineEffect this (handleGroupName n this).
Proof.
  unfold handleGroupName. destruct (currentPart this) as [cur|]; [|constructor].
  destruct (_ && _)%bool; [|constructor].
  rewrite handleObjectName_finalize. constructor.
Qed.

Lemma handleMaterialUsage_effect m this : LineEffect this (handleMaterialUsage m this).
Proof.
  unfold handleMaterialUsage. destruct (currentPart this) as [cur|] eqn:Hcur; [|constructor].
  eapply Edits; eauto.
Qed.

Lemma dispatch_effect tokens n this this' :
  dispatch tokens n this = Normal this' → LineEffect this this'.
Proof.
  unfold dispatch.
  repeat match goal with
         | |- context [if String.eqb ?a ?b then _ else _] => destruct (String.eqb a b)
         end;
    try (intros [= <-]);
    eauto using LineEffect, handleGroupName_effect, handleMaterialUsage_effect,
      handleVertex_effect, handleNormal_effect, handleTextureCoord_effect,
      handleFace_effect.
Qed.

Lemma processLine_effect line n this : LineEffect this (processLine line n this).
Proof.
  unfold processLine. destruct (_ || _)%bool; [constructor|].
  destruct (dispatch _ n this) as [this'|] eqn:Hd; simpl; [|constructor].
  eauto using dispatch_effect.
Qed.

(** A property that every line effect keeps holds when the scan ends. *)
Lemma processLines_invariant (P : PartAnalyzer → Prop) :
  (∀ this this', LineEffect this this' → P this → P this') →
  ∀ lines n this, P this → P (processLines lines n this).
Proof.
  intros Hstep. induction lines as [|line lines IH]; intros n this HP; simpl; [done|].
  apply IH. eapply Hstep; [apply processLine_effect|done].
Qed.

(** The array [analyzeOBJ] returns for a text: the parts of the scan
    after the last finalization. *)
Lemma analyzeOBJ_string text this :
  text ≠ "" →
  (analyzeOBJ (JSString text) this).1 = parts (finalizePart (scan text)).
Proof.
  intros Hne. unfold analyzeOBJ. simpl.
  destruct (String.eqb_spec text ""); [done|]. simpl.
  destruct (currentPart (scan text)) eqn:Hcur; [done|].
  by unfold finalizePart; rewrite Hcur.
Qed.

Lemma analyzeOBJ_rejected v this :
  (∀ text, v = JSString text → text = "") → analyzeOBJ v this = ([], this).
Proof.
  intros Hv. destruct v as [| | | |text|]; try done.
  - unfold analyzeOBJ. simpl. by destruct b.
  - unfold analyzeOBJ. simpl. by destruct (negb _).
  - by rewrite (Hv text eq_refl).
Qed.

(** The returned array is the scan's, or empty. *)
Lemma analyzeOBJ_cases v this :
  (analyzeOBJ v this).1 = [] ∨
  ∃ text, v = JSString text ∧ (analyzeOBJ v this).1 = parts (finalizePart (scan text)).
Proof.
  destruct v as [| | | |text|];
    try (left; by rewrite analyzeOBJ_rejected by (intros; discriminate)).
  destruct (decide (text = "")) as [->|Hne]; [by left|].
  right. exists text. split; [done|]. by apply analyzeOBJ_string.
Qed.

Lemma finalizePart_appends this :
  parts (finalizePart this) = parts this ∨
  ∃ cur, currentPart this = Some cur ∧ vertices cur ≠ [] ∧
         validatePart (calculateBoundingBox cur) = true ∧
         parts (finalizePart this) = (parts this ++ [calculateBoundingBox cur])%list.
Proof.
  destruct (finalizePart_cases this) as [[-> _]|(cur & Hcur & Hv & ->)]; [by left|].
  destruct (validatePart (calculateBoundingBox cur)) eqn:Hval; [|by left].
  right. by exists cur.
Qed.

Lemma calculateBoundingBox_fields cur :
  name (calculateBoundingBox cur) = name cur ∧
  partNumber (calculateBoundingBox cur) = partNumber cur ∧
  vertices (calculateBoundingBox cur) = vertices cur ∧
  faces (calculateBoundingBox cur) = faces cur.
Proof. unfold calculateBoundingBox. destruct (vertices cur) eqn:E; repeat split; done. Qed.

Lemma validatePart_retained cur :
  vertices cur ≠ [] → validatePart (calculateBoundingBox cur) = true →
  Retained (calculateBoundingBox cur).
Proof.
  intros Hv. unfold validatePart, Retained, calculateBoundingBox.
  destruct (vertices cur) as [|v0 vs] eqn:Hvs; [done|]. simpl.
  rewrite !andb_true_iff, Nat.ltb_lt. intros [[Hlf _] [[Hx Hy] Hz]].
  repeat split; [lia|done|]. eexists. repeat split; done.
Qed.

Lemma finalizePart_retained this :
  Forall Retained (parts this) → Forall Retained (parts (finalizePart this)).
Proof.
  intros HP. destruct (finalizePart_appends this) as [->|(cur & _ & Hv & Hval & ->)]; [done|].
  apply Forall_app. split; [done|]. constructor; [|constructor].
  by apply validatePart_retained.
Qed.

Lemma scan_retained text : Forall Retained (parts (scan text)).
Proof.
  unfold scan. apply (processLines_invariant (λ st, Forall Retained (parts st))).
  - intros this this' [|n|cur cur' Hcur _ _ _] HP; [done| |done].
    rewrite handleObjectName_unfold. simpl. by apply finalizePart_retained.
  - constructor.
Qed.

Lemma finalizePart_numbered this : Numbered this → Numbered (finalizePart this).
Proof.
  intros [Hparts Hcur].
  destruct (finalizePart_cases this) as [[-> _]|(cur & Hc & Hv & ->)]; [done|].
  split; [|done]. simpl. intros k p.
  destruct (validatePart _); simpl; [|by apply Hparts].
  intros [Hk|[Hk Hp]]%lookup_app_Some; [by apply Hparts|].
  destruct (k - length (parts this)) as [|k'] eqn:Hkk; [|done].
  simplify_eq/=. destruct (calculateBoundingBox_fields cur) as (_ & -> & _).
  rewrite (Hcur _ Hc). f_equal. lia.
Qed.

Lemma scan_numbered text : Numbered (scan text).
Proof.
  unfold scan. apply (processLines_invariant Numbered).
  - intros this this' [|n|cur cur' Hc _ Hnum _] HN.
    + done.
    + rewrite handleObjectName_unfold.
      apply finalizePart_numbered in HN as [Hparts _].
      split; [done|]. simpl. by intros c [= <-].
    + destruct HN as [Hparts Hcur]. split; [done|]. simpl.
      intros c [= <-]. rewrite Hnum. by apply Hcur.
  - split; [|done]. intros k p. simpl. by rewrite lookup_nil.
Qed.

Lemma padded_decimal_decodes k n :
  ∃ d, NilEmpty.uint_of_string (repeatChar k "0" ++ toString n) = Some d ∧
       Nat.of_uint d = n.
Proof.
  induction k as [|k (d & Hd & Hn)]; simpl.
  - exists (Nat.to_uint n). split; [apply NilEmpty.usu|apply Unsigned.of_to].
  - exists (Decimal.D0 d). rewrite Hd. split; [done|]. exact Hn.
Qed.

Lemma formatPartNumber_inj a b : formatPartNumber a = formatPartNumber b → a = b.
Proof.
  unfold formatPartNumber, padStart. intros [= Heq].
  match type of Heq with "" ++ ?l = "" ++ ?r => change (l = r) in Heq end.
  destruct (padded_decimal_decodes (3 - String.length (toString a)) a) as (da & Ha & Hda).
  destruct (padded_decimal_decodes (3 - String.length (toString b)) b) as (db & Hb & Hdb).
  rewrite Heq in Ha. congruence.
Qed.

Lemma numbered_NoDup (ps : list Part) :
  (∀ k p, ps !! k = Some p → partNumber p = formatPartNumber (k + 1)) →
  NoDup (partNumber <$> ps).
Proof.
  intros Hnum. apply NoDup_alt. intros i j num Hi Hj.
  apply list_lookup_fmap_Some in Hi as (p & -> & Hp).
  apply list_lookup_fmap_Some in Hj as (q & Heq & Hq).
  rewrite (Hnum _ _ Hp), (Hnum _ _ Hq) in Heq.
  apply formatPartNumber_inj in Heq. lia.
Qed.

Lemma scan_faces text :
  Forall FacesFromOne (parts (scan text)) ∧
  (∀ c, currentPart (scan text) = Some c → FacesFromOne c).
Proof.
  unfold scan.
  apply (processLines_invariant
           (λ st, Forall FacesFromOne (parts st) ∧
                  ∀ c, currentPart st = Some c → FacesFromOne c)).
  - assert (Hfin : ∀ st, (Forall FacesFromOne (parts st) ∧
                          ∀ c, currentPart st = Some c → FacesFromOne c) →
                         Forall FacesFromOne (parts (finalizePart st))).
    { intros st [HP HC].
      destruct (finalizePart_appends st) as [->|(cur & Hc & _ & _ & ->)]; [done|].
      apply Forall_app. split; [done|]. constructor; [|constructor].
      unfold FacesFromOne. destruct (calculateBoundingBox_fields cur) as (_ & _ & _ & ->).
      by apply HC. }
    intros this this' [|n|cur cur' Hc _ _ Hfaces] HP.
    + done.
    + rewrite handleObjectName_unfold. split; [by apply Hfin|].
      simpl. intros c [= <-]. constructor.
    + destruct HP as [HP HC]. split; [done|]. simpl. intros c [= <-].
      unfold FacesFromOne. destruct Hfaces as [->|(face & -> & Hface)]; [by apply HC|].
      apply Forall_app. split; [by apply HC|]. by constructor.
  - split; [constructor|done].
Qed.

Lemma mapM_throws {A B} (f : A → Completion B) xs :
  Exists (λ a, ∃ m, f a = Throw m) xs → ∃ m, mapM f xs = Throw m.
Proof.
  induction 1 as [a xs [m Hm]|a xs _ [m IH]]; simpl.
  - rewrite Hm. by exists m.
  - destruct (f a) as [b|m']; simpl; [|by exists m'].
    rewrite IH. by exists m.
Qed.

End AnalyzerProperties.

(** ** The statements about the analyzer *)

Section AnalyzerClaims.
Import JS PartAnalyzer.

(** The first example of the specification: a flat triangle is rejected. *)
Example flat_flange_rejected :
  (analyzeOBJ (objText ["o Flange1"; "v 0 0 0"; "v 1 0 0"; "v 0 1 0"; "f 1 2 3"; ""])
     constructor).1 = [].
Proof. vm_compute. reflexivity. Qed.

(** The second example: with a fourth vertex off the plane the part is
    accepted as ["P-001"]. *)
Example solid_flange_accepted :
  map (λ p, (name p, type p, partNumber p, length (vertices p), length (faces p), size p))
    (analyzeOBJ
       (objText ["o Flange1"; "v 0 0 0"; "v 1 0 0"; "v 0 1 0"; "f 1 2 3"; "v 0 0 1";
                 "f 1 2 4"; ""])
       constructor).1
  = [("Flange1", "Flange", "P-001", 4, 2, Some {| x := 1; y := 1; z := 1 |})].
Proof. vm_compute. reflexivity. Qed.

(** C10. For every input value that is not a non-empty string (null,
    undefined, a value of another type, or the empty string), [analyzeOBJ]
    returns the empty array; the call completes normally and leaves the
    analyzer as it was. *)
Theorem analyzeOBJ_rejects_non_text (objContent : JSValue) (this : PartAnalyzer) :
  (∀ text, objContent = JSString text → text = "") →
  analyzeOBJ objContent this = ([], this).
Proof. apply analyzeOBJ_rejected. Qed.

Lemma analyzeOBJ_rejects_non_text_witness :
  analyzeOBJ JSNull constructor = ([], constructor) ∧
  analyzeOBJ (JSString "") constructor = ([], constructor) ∧
  analyzeOBJ (JSNumber 7) constructor = ([], constructor).
Proof.
  split; [|split].
  - apply (analyzeOBJ_rejects_non_text JSNull). intros text H. discriminate H.
  - apply (analyzeOBJ_rejects_non_text (JSString "")). intros text H.
    injection H as <-. reflexivity.
  - apply (analyzeOBJ_rejects_non_text (JSNumber 7)). intros text H. discriminate H.
Defined.

(** C5. Every part that [analyzeOBJ] returns has at least one vertex, at
    least one face and a size, computed from its vertices, that is
    positive on the three axes. [finalizePart] is the only place where the
    output grows: it appends the open part when it passes this check and
    otherwise leaves the output as it is, without reporting anything. *)
Theorem analyzeOBJ_keeps_valid_parts_only (objContent : JSValue) (this : PartAnalyzer) :
  Forall Retained (analyzeOBJ objContent this).1 ∧
  (∀ st, parts (finalizePart st) = parts st ∨
         ∃ cur, currentPart st = Some cur ∧ Retained (calculateBoundingBox cur) ∧
                parts (finalizePart st) = (parts st ++ [calculateBoundingBox cur])%list).
Proof.
  split.
  - destruct (analyzeOBJ_cases objContent this) as [->|(text & _ & ->)]; [constructor|].
    apply finalizePart_retained, scan_retained.
  - intros st. destruct (finalizePart_appends st) as [?|(cur & Hc & Hv & Hval & ?)]; [by left|].
    right. exists cur. eauto using validatePart_retained.
Qed.

Lemma analyzeOBJ_keeps_valid_parts_only_witness :
  Forall Retained
    (analyzeOBJ (objText (["o A"] ++ tetrahedron "0" 1 ++ ["o Flat"; "v 0 0 0"; "v 1 0 0";
                                                           "v 0 1 0"; "f 5 6 7"])%list)
       constructor).1 ∧
  map name
    (analyzeOBJ (objText (["o A"] ++ tetrahedron "0" 1 ++ ["o Flat"; "v 0 0 0"; "v 1 0 0";
                                                           "v 0 1 0"; "f 5 6 7"])%list)
       constructor).1 = ["A"].
Proof.
  split.
  - exact (proj1 (analyzeOBJ_keeps_valid_parts_only _ constructor)).
  - vm_compute. reflexivity.
Defined.

(** C4, as the code has it. A part that is opened gets the number of the
    parts accepted so far plus one, zero-padded to three digits: a
    rejected part does not advance the count. So the k-th part of the
    returned array carries the number k, and the numbers of the returned
    parts are pairwise different. *)
Theorem part_numbers_count_accepted_parts (objContent : JSValue) (this : PartAnalyzer) :
  (∀ k p, (analyzeOBJ objContent this).1 !! k = Some p →
          partNumber p = formatPartNumber (k + 1)) ∧
  NoDup (partNumber <$> (analyzeOBJ objContent this).1) ∧
  (∀ n st, partNumber <$> currentPart (handleObjectName n st) =
           Some (formatPartNumber (length (parts (finalizePart st)) + 1))).
Proof.
  assert (Hnum : ∀ k p, (analyzeOBJ objContent this).1 !! k = Some p →
                        partNumber p = formatPartNumber (k + 1)).
  { destruct (analyzeOBJ_cases objContent this) as [->|(text & _ & ->)].
    - intros k p. by rewrite lookup_nil.
    - apply finalizePart_numbered, scan_numbered. }
  split; [exact Hnum|]. split; [by apply numbered_NoDup|].
  intros n st. by rewrite handleObjectName_unfold.
Qed.

Lemma part_numbers_count_accepted_parts_witness :
  ∃ p, (analyzeOBJ (objText (["o A"] ++ tetrahedron "0" 1 ++ ["o Empty"; "o B"]
                             ++ tetrahedron "2" 5)%list) constructor).1 !! 1 = Some p ∧
       name p = "B" ∧ partNumber p = "P-002".
Proof.
  destruct ((analyzeOBJ (objText (["o A"] ++ tetrahedron "0" 1 ++ ["o Empty"; "o B"]
                                  ++ tetrahedron "2" 5)%list) constructor).1 !! 1)
    as [p|] eqn:Hp.
  - exists p. split; [reflexivity|]. split.
    + revert Hp. vm_compute. intros [= <-]. reflexivity.
    + exact (proj1 (part_numbers_count_accepted_parts _ constructor) 1 p Hp).
  - revert Hp. vm_compute. discriminate.
Defined.

(** C4 as stated fails: the second part that is opened gets the number
    of the first when the first was rejected. *)
Lemma rejected_part_number_is_reused :
  partNumber <$> currentPart (scan (objLines ["o A"])) = Some "P-001" ∧
  partNumber <$> currentPart (scan (objLines ["o A"; "v 0 0 0"; "o B"])) = Some "P-001" ∧
  map (λ p, (name p, partNumber p))
    (analyzeOBJ (objText (["o A"; "v 0 0 0"; "o B"] ++ tetrahedron "0" 2)%list)
       constructor).1 = [("B", "P-001")].
Proof. vm_compute. repeat split; reflexivity. Qed.




(** C9, as the code has it. With a part open, a [g] line whose name is
    empty or equal to the name of the open part changes nothing; a [g]
    line with another, non-empty name does what the [o] line with that
    name does: the open part is finalized and a new, empty part of that
    name is opened. *)
Theorem group_line_opens_part_on_new_name (n : string) (this : PartAnalyzer) (cur : Part) :
  currentPart this = Some cur →
  (∀ rest k, dispatch ("g" :: rest) k this = Normal (handleGroupName (join " " rest) this) ∧
             dispatch ("o" :: rest) k this = Normal (handleObjectName (join " " rest) this)) ∧
  (n = "" ∨ n = name cur → handleGroupName n this = this) ∧
  (n ≠ "" → n ≠ name cur →
   handleGroupName n this = handleObjectName n this ∧
   parts (handleGroupName n this) = parts (finalizePart this) ∧
   ∃ c, currentPart (handleGroupName n this) = Some c ∧
        name c = n ∧ vertices c = [] ∧ faces c = []).
Proof.
  intros Hcur. split; [done|].
  unfold handleGroupName. rewrite Hcur. split.
  - intros [-> | ->]; [done|]. rewrite String.eqb_refl. by rewrite andb_false_r.
  - intros Hne Hname.
    destruct (String.eqb_spec n ""); [done|]. destruct (String.eqb_spec n (name cur)); [done|].
    cbn [negb andb]. rewrite handleObjectName_finalize. split; [done|].
    rewrite handleObjectName_unfold. unfold setCurrentPart.
    cbn [parts currentPart]. split; [done|].
    eexists. split; [done|]. cbn [name vertices faces].
    by destruct (String.eqb_spec n "").
Qed.

Lemma group_line_opens_part_on_new_name_witness :
  handleGroupName "B" (scan (objLines ("o A" :: tetrahedron "0" 1)))
  = handleObjectName "B" (scan (objLines ("o A" :: tetrahedron "0" 1))) ∧
  handleGroupName "A" (scan (objLines ("o A" :: tetrahedron "0" 1)))
  = scan (objLines ("o A" :: tetrahedron "0" 1)).
Proof.
  destruct (currentPart (scan (objLines ("o A" :: tetrahedron "0" 1)))) as [cur|] eqn:Hcur.
  - assert (Hname : name cur = "A").
    { revert Hcur. vm_compute. intros [= <-]. reflexivity. }
    split.
    + apply (group_line_opens_part_on_new_name "B" _ cur Hcur).
      * discriminate.
      * rewrite Hname. discriminate.
    + apply (group_line_opens_part_on_new_name "A" _ cur Hcur). right. symmetry. exact Hname.
  - revert Hcur. vm_compute. discriminate.
Defined.

(** C9 as stated fails for the empty name: with the part ["A"] open, a
    bare [g] line leaves the analyzer as it is, whereas a bare [o] line
    finalizes ["A"] and opens a new part. *)
Lemma bare_group_line_opens_nothing :
  name <$> currentPart (scan (objLines ("o A" :: tetrahedron "0" 1))) = Some "A" ∧
  processLine "g" 8 (scan (objLines ("o A" :: tetrahedron "0" 1)))
  = scan (objLines ("o A" :: tetrahedron "0" 1)) ∧
  map name (parts (processLine "g" 8 (scan (objLines ("o A" :: tetrahedron "0" 1))))) = [] ∧
  map name (parts (processLine "o" 8 (scan (objLines ("o A" :: tetrahedron "0" 1))))) = ["A"] ∧
  name <$> currentPart (processLine "o" 8 (scan (objLines ("o A" :: tetrahedron "0" 1))))
  = Some "Part_2".
Proof. vm_compute. repeat split; reflexivity. Qed.

End AnalyzerClaims.

(** * Properties of the part manager *)

Section ManagerProperties.
Import PartManager.

(** ** Loops over a map *)

(** A property that the body keeps holds when the loop ends. *)
Lemma forOf_invariant {V S} (Q : S → Prop) (m : gmap string V) body (s : S) :
  (∀ i x r, m !! i = Some x → Q r → Q (body i x r)) → Q s → Q (forOf m body s).
Proof.
  intros Hbody Hs. unfold forOf.
  apply (map_fold_weak_ind (λ r m', m' ⊆ m → Q r)); [done| |done].
  intros i x m' r Hi IH Hsub. apply Hbody.
  - eapply lookup_weaken; [|exact Hsub]. apply lookup_insert_eq.
  - apply IH. etrans; [|exact Hsub]. by apply insert_subseteq.
Qed.

Lemma lookup_meshesAfter {V} g (m : gmap string V) meshes id :
  meshesAfter g m meshes !! id =
  (λ mesh, match m !! id with Some _ => g id mesh | None => mesh end) <$> meshes !! id.
Proof. unfold meshesAfter. rewrite map_lookup_imap. by destruct (meshes !! id). Qed.

Lemma dom_meshesAfter {V} g (m : gmap string V) meshes :
  dom (meshesAfter g m meshes) = dom meshes.
Proof.
  apply set_eq. intros id. rewrite !elem_of_dom, lookup_meshesAfter. apply fmap_is_Some.
Qed.

Lemma setPartMeshes_same st : setPartMeshes (partMeshes st) st = st.
Proof. by destruct st. Qed.

(** A loop whose body rewrites the mesh under the key it visits. *)
Lemma forOf_meshes {V} (g : string → Mesh → Mesh) (m : gmap string V) body st :
  (∀ i x r, body i x r = setPartMeshes (alter (g i) i (partMeshes r)) r) →
  forOf m body st = setPartMeshes (meshesAfter g m (partMeshes st)) st.
Proof.
  intros Hbody. unfold forOf.
  apply (map_fold_weak_ind
           (λ r m', r = setPartMeshes (meshesAfter g m' (partMeshes st)) st)).
  - rewrite <- (setPartMeshes_same st) at 1. f_equal. apply map_eq. intros id.
    rewrite lookup_meshesAfter, lookup_empty. by destruct (partMeshes st !! id).
  - intros i x m' r Hi ->. rewrite Hbody. unfold setPartMeshes. simpl. f_equal.
    apply map_eq. intros id. rewrite lookup_alter, !lookup_meshesAfter.
    destruct (decide (i = id)) as [<-|Hne].
    + rewrite Hi, lookup_insert_eq. by destruct (partMeshes st !! i).
    + by rewrite lookup_insert_ne.
Qed.

(** ** What a call keeps *)

Lemma Kept_refl st : Kept st st.
Proof. done. Qed.

Lemma Kept_trans st1 st2 st3 : Kept st1 st2 → Kept st2 st3 → Kept st1 st3.
Proof. intros (?&?&?) (?&?&?). repeat split; congruence. Qed.

Lemma Painted_refl st : Painted st st.
Proof. done. Qed.

Lemma Painted_trans st1 st2 st3 : Painted st1 st2 → Painted st2 st3 → Painted st1 st3.
Proof.
  intros (HK1 & HH1 & HV1) (HK2 & HH2 & HV2). split; [by eapply Kept_trans|]. split.
  - intros id. by rewrite HH2.
  - intros id. by rewrite HV2.
Qed.

Lemma Framed_refl st : Framed st st.
Proof. done. Qed.

Lemma Framed_trans st1 st2 st3 : Framed st1 st2 → Framed st2 st3 → Framed st1 st3.
Proof.
  intros (HK1 & HH1 & HV1) (HK2 & HH2 & HV2). split; [by eapply Kept_trans|]. split.
  - intros id. by rewrite HH2.
  - intros Hs id. rewrite HV2; [by apply HV1|]. destruct HK1 as (-> & _). done.
Qed.

Lemma Painted_Framed st st' : Painted st st' → Framed st st'.
Proof. intros (HK & HH & HV). split; [done|]. split; [done|]. intros _. exact HV. Qed.

Lemma Framed_Kept st st' : Framed st st' → Kept st st'.
Proof. by intros [? _]. Qed.

Lemma Painted_Kept st st' : Painted st st' → Kept st st'.
Proof. by intros [? _]. Qed.

(** Rewriting the mesh, or the part entry, under one key in a way that
    keeps what is observed. *)
Lemma lookup_alter_observed {A B} (obs : A → B) (f : A → A) (m : gmap string A) i id :
  (∀ a, obs (f a) = obs a) → obs <$> alter f i m !! id = obs <$> m !! id.
Proof.
  intros Hobs. rewrite lookup_alter. destruct (decide (i = id)) as [->|]; [|done].
  destruct (m !! id); simpl; [|done]. by rewrite Hobs.
Qed.

Lemma lookup_insert_observed {A B} (obs : A → B) (m : gmap string A) i a a' id :
  m !! i = Some a → obs a' = obs a → obs <$> <[i:=a']> m !! id = obs <$> m !! id.
Proof.
  intros Hi Hobs. destruct (decide (i = id)) as [<-|].
  - rewrite lookup_insert_eq, Hi. simpl. by rewrite Hobs.
  - by rewrite lookup_insert_ne.
Qed.

Lemma dom_insert_registered {A} (m : gmap string A) i a a' :
  m !! i = Some a → dom (<[i:=a']> m) = dom m.
Proof. intros Hi. apply dom_insert_lookup_L. by rewrite Hi. Qed.

(** Writes to the meshes that keep the visibility of each mesh. *)
Lemma alter_mesh_Painted (f : Mesh → Mesh) i st :
  (∀ m, visible (f m) = visible m) →
  Painted st (setPartMeshes (alter f i (partMeshes st)) st).
Proof.
  intros Hf. repeat split; simpl; try done.
  - apply dom_alter_L.
  - intros id. by apply lookup_alter_observed.
Qed.

(** Writes to a part entry that keep its hidden flag. *)
Lemma insert_part_Painted i p p' st :
  parts st !! i = Some p → isHidden p' = isHidden p →
  Painted st (setParts (<[i:=p']> (parts st)) st).
Proof.
  intros Hi Hp. repeat split; simpl; try done.
  - by eapply dom_insert_registered.
  - intros id. by eapply lookup_insert_observed.
Qed.

(** Writes to a mesh's visibility alone. *)
Lemma setMeshVisible_Kept i v st : Kept st (setMeshVisible i v st).
Proof. repeat split; simpl; try done. apply dom_alter_L. Qed.

(** A call that writes neither the parts, nor the meshes, nor the
    sectioned part. *)
Lemma Painted_of_eq st st' :
  sectionedPartId st' = sectionedPartId st → partMeshes st' = partMeshes st →
  parts st' = parts st → Painted st st'.
Proof. intros Hs Hm Hp. unfold Painted, Kept. rewrite Hs, Hm, Hp. done. Qed.

Lemma Kept_of_eq st st' :
  sectionedPartId st' = sectionedPartId st → partMeshes st' = partMeshes st →
  parts st' = parts st → Kept st st'.
Proof. intros. by apply Painted_Kept, Painted_of_eq. Qed.

Create HintDb painted discriminated.
Create HintDb framed discriminated.
Create HintDb kept discriminated.

(** The three tactics peel a composition of calls from the outside, one
    call at a time. *)
Ltac painted :=
  lazymatch goal with
  | |- Painted ?s ?s => apply Painted_refl
  | |- Painted ?s (match ?x with _ => _ end) => destruct x eqn:?; painted
  | |- Painted ?s (?f ?inner) =>
      apply (Painted_trans s inner (f inner));
      [painted | first [apply Painted_of_eq; reflexivity | solve [eauto with painted]]]
  end.

Ltac framed :=
  lazymatch goal with
  | |- Framed ?s ?s => apply Framed_refl
  | |- Framed ?s (match ?x with _ => _ end) => destruct x eqn:?; framed
  | |- Framed ?s (?f ?inner) =>
      apply (Framed_trans s inner (f inner));
      [framed | first [apply Painted_Framed, Painted_of_eq; reflexivity
                      | solve [eauto using Painted_Framed with framed painted]]]
  end.

Ltac kept :=
  lazymatch goal with
  | |- Kept ?s ?s => apply Kept_refl
  | |- Kept ?s (match ?x with _ => _ end) => destruct x eqn:?; kept
  | |- Kept ?s (?f ?inner) =>
      apply (Kept_trans s inner (f inner));
      [kept | first [apply Kept_of_eq; reflexivity
                    | solve [eauto using Framed_Kept, Painted_Kept
                               with kept framed painted]]]
  end.

Lemma setMeshMaterial_Painted i r st : Painted st (setMeshMaterial i r st).
Proof. by apply alter_mesh_Painted. Qed.

Lemma addGlowEffect_Painted i st : Painted st (addGlowEffect i st).
Proof. by apply alter_mesh_Painted. Qed.

Lemma removeGlowEffect_Painted i st : Painted st (removeGlowEffect i st).
Proof. by apply alter_mesh_Painted. Qed.

Hint Resolve setMeshMaterial_Painted addGlowEffect_Painted removeGlowEffect_Painted
  insert_part_Painted : painted.
Hint Resolve setMeshVisible_Kept : kept.

Lemma highlightPart_Painted i st : Painted st (highlightPart i st).
Proof. unfold highlightPart. cbv zeta. painted. Qed.

Lemma removeHighlight_Painted i st : Painted st (removeHighlight i st).
Proof. unfold removeHighlight. cbv zeta. painted. Qed.

Lemma createHighlight2Material_Painted st : Painted st (createHighlight2Material st).
Proof. by apply Painted_of_eq. Qed.

Hint Resolve highlightPart_Painted removeHighlight_Painted createHighlight2Material_Painted
  : painted.

Lemma switchToOrangeHighlight_Painted i st : Painted st (switchToOrangeHighlight i st).
Proof. unfold switchToOrangeHighlight. cbv zeta. painted. Qed.

Lemma switchToGreenHighlight_Painted i st : Painted st (switchToGreenHighlight i st).
Proof. unfold switchToGreenHighlight. painted. Qed.

Lemma toggleCuttingPlaneVisibility_Painted show st :
  Painted st (toggleCuttingPlaneVisibility show st).
Proof. unfold toggleCuttingPlaneVisibility. cbv zeta. painted. Qed.

Lemma togglePartLabels_Painted visible st : Painted st (togglePartLabels visible st).
Proof. by apply Painted_of_eq. Qed.

Lemma updateSectionPlane_Painted i position st :
  Painted st (updateSectionPlane i position st).
Proof. unfold updateSectionPlane. cbv zeta. painted. Qed.

Lemma createCrossSectionMaterial_Painted i plane st :
  Painted st (createCrossSectionMaterial i plane st).
Proof. by apply Painted_of_eq. Qed.

Lemma createCuttingPlaneVisualization_Painted i plane st :
  Painted st (createCuttingPlaneVisualization i plane st).
Proof. by apply Painted_of_eq. Qed.

Hint Resolve switchToOrangeHighlight_Painted switchToGreenHighlight_Painted
  toggleCuttingPlaneVisibility_Painted togglePartLabels_Painted updateSectionPlane_Painted
  createCrossSectionMaterial_Painted createCuttingPlaneVisualization_Painted : painted.

Lemma addClippingPlane_Painted i plane st : Painted st (addClippingPlane i plane st).
Proof. unfold addClippingPlane. cbv zeta. painted. Qed.

Hint Resolve addClippingPlane_Painted : painted.

(** ** The isolation loop *)

Lemma maintainSectioningIsolation_unsectioned st :
  sectionedPartId st = None → maintainSectioningIsolation st = st.
Proof. intros H. unfold maintainSectioningIsolation. by rewrite H. Qed.

Lemma maintainSectioningIsolation_sectioned st sectioned :
  sectionedPartId st = Some sectioned →
  maintainSectioningIsolation st =
  setPartMeshes
    (meshesAfter (λ id, setVisible (bool_decide (id = sectioned))) (partMeshes st)
       (partMeshes st)) st.
Proof.
  intros H. unfold maintainSectioningIsolation. rewrite H. apply forOf_meshes.
  intros i x r. unfold setMeshVisible.
  destruct (decide (i = sectioned)) as [->|Hne].
  - by rewrite bool_decide_false, bool_decide_true by naive_solver.
  - by rewrite bool_decide_true, bool_decide_false by done.
Qed.

Lemma maintainSectioningIsolation_Framed st : Framed st (maintainSectioningIsolation st).
Proof.
  destruct (sectionedPartId st) as [sectioned|] eqn:Hs.
  - rewrite (maintainSectioningIsolation_sectioned _ _ Hs).
    repeat split; simpl; try done; [apply dom_meshesAfter|congruence].
  - rewrite maintainSectioningIsolation_unsectioned by done. apply Framed_refl.
Qed.

Hint Resolve maintainSectioningIsolation_Framed : framed.

Lemma deselectPart_Framed i st : Framed st (deselectPart i st).
Proof. unfold deselectPart. cbv zeta. framed. Qed.

Hint Resolve deselectPart_Framed : framed.

Lemma selectPart_Framed i st : Framed st (selectPart i st).
Proof. unfold selectPart. cbv zeta. framed. Qed.

Lemma deselectAllParts_Framed st : Framed st (deselectAllParts st).
Proof. unfold deselectAllParts. cbv zeta. framed. Qed.

Hint Resolve selectPart_Framed deselectAllParts_Framed : framed.

Lemma handleClick_Framed hit st : Framed st (handleClick hit st).
Proof. unfold handleClick. framed. Qed.

Lemma update_Framed st : Framed st (update st).
Proof.
  unfold update. cbv zeta.
  destruct (sectionedPartId (maintainSectioningIsolation st)) as [sectioned|] eqn:Hs;
    [|by auto with framed].
  unfold isInSectioningMode. rewrite Hs, bool_decide_true by done.
  rewrite andb_false_r. auto with framed.
Qed.

Hint Resolve handleClick_Framed update_Framed : framed.

(** ** Hiding and showing *)

Lemma applyHidden_unregistered h i st :
  parts st !! i = None ∨ partMeshes st !! i = None → applyHidden h i st = st.
Proof.
  unfold applyHidden, hidePart, showPart.
  intros [H|H]; rewrite H; destruct h; try done; by destruct (parts st !! i).
Qed.

Lemma applyHidden_parts h i st p mesh :
  parts st !! i = Some p → partMeshes st !! i = Some mesh →
  parts (applyHidden h i st) = <[i := setIsHidden h p]> (parts st) ∧
  partMeshes (applyHidden h i st) = <[i := setVisible (negb h) mesh]> (partMeshes st).
Proof.
  intros Hp Hm. unfold applyHidden, hidePart, showPart. rewrite Hp, Hm.
  destruct h; simpl; (split; [done|]); apply map_eq; intros id;
    rewrite lookup_alter; destruct (decide (i = id)) as [<-|];
    by rewrite ?lookup_insert_eq, ?lookup_insert_ne, ?Hm.
Qed.

Lemma insert_part_Kept i p p' st :
  parts st !! i = Some p → Kept st (setParts (<[i:=p']> (parts st)) st).
Proof. intros Hi. repeat split; simpl; try done. by eapply dom_insert_registered. Qed.

Hint Resolve insert_part_Kept : kept.

Lemma applyHidden_Kept h i st : Kept st (applyHidden h i st).
Proof. unfold applyHidden, hidePart, showPart. cbv zeta. destruct h; kept. Qed.

Lemma hidePart_Kept i st : Kept st (hidePart i st).
Proof. apply (applyHidden_Kept true). Qed.

Lemma showPart_Kept i st : Kept st (showPart i st).
Proof. apply (applyHidden_Kept false). Qed.

Hint Resolve hidePart_Kept showPart_Kept : kept.

Lemma togglePartVisibility_Kept i st : Kept st (togglePartVisibility i st).
Proof. unfold togglePartVisibility. kept. Qed.

Lemma forOf_Kept {V} (m : gmap string V) body st :
  (∀ i x r, Kept r (body i x r)) → Kept st (forOf m body st).
Proof.
  intros Hbody. apply (forOf_invariant (Kept st)); [|apply Kept_refl].
  intros i x r _ Hr. eapply Kept_trans; [exact Hr|apply Hbody].
Qed.

Lemma isolatePart_Kept i st : Kept st (isolatePart i st).
Proof.
  unfold isolatePart. cbv zeta. eapply Kept_trans; [|apply forOf_Kept].
  - by apply Kept_of_eq.
  - intros id x r. destruct (bool_decide (id ≠ i)); auto with kept.
Qed.

Lemma showAllParts_Kept st : Kept st (showAllParts st).
Proof.
  unfold showAllParts. destruct (preIsolationState st); apply forOf_Kept.
  - intros id [] r; auto with kept.
  - intros id x r. auto with kept.
Qed.

Lemma step_Kept op st : betweenTicks op = true → Kept st (step op st).
Proof.
  destruct op; simpl; try done; intros _;
    auto using Framed_Kept, Painted_Kept, togglePartVisibility_Kept, isolatePart_Kept,
      showAllParts_Kept with framed painted kept.
Qed.

Lemma run_Kept ops st : forallb betweenTicks ops = true → Kept st (run ops st).
Proof.
  unfold run. revert st. induction ops as [|op ops IH]; intros st; simpl; [done|].
  intros [Hop Hops]%andb_true_iff.
  eapply Kept_trans; [by apply step_Kept|by apply IH].
Qed.

(** ** Entering section mode *)

Lemma forceSectioningMode_meshes i st :
  forceSectioningMode i st =
  setPartMeshes
    (meshesAfter (λ id, setVisible (bool_decide (id = i))) (partMeshes st) (partMeshes st))
    (setSectionedPartId (Some i) st).
Proof. unfold forceSectioningMode. by erewrite maintainSectioningIsolation_sectioned. Qed.

(** After a tick in section mode the sectioned part alone is visible. *)
Lemma update_sectioned st sectioned id :
  sectionedPartId st = Some sectioned →
  sectionedPartId (update st) = Some sectioned ∧
  partMeshes (update st) !! id =
    setVisible (bool_decide (id = sectioned)) <$> partMeshes st !! id.
Proof.
  intros Hs. unfold update. cbv zeta.
  rewrite (maintainSectioningIsolation_sectioned _ _ Hs). simpl. rewrite Hs.
  unfold isInSectioningMode. simpl. rewrite Hs, bool_decide_true by done.
  rewrite andb_false_r. simpl. split; [done|].
  rewrite lookup_meshesAfter. by destruct (partMeshes st !! id).
Qed.

(** ** Leaving and entering section mode *)

Lemma removePlanes_fields i st :
  parts (removePlanes i st) = parts st ∧
  partMeshes (removePlanes i st) = partMeshes st ∧
  selectedPart (removePlanes i st) = selectedPart st ∧
  sectionedPartId (removePlanes i st) = sectionedPartId st ∧
  highlight2Material (removePlanes i st) = highlight2Material st ∧
  preIsolationState (removePlanes i st) = preIsolationState st.
Proof. unfold removePlanes. cbv zeta. repeat case_match; done. Qed.

Lemma removeSectionPlane_result i st :
  removeSectionPlane i st =
  let shown :=
    setSectionedPartId None
      (setPartMeshes
         (meshesAfter (λ _, setVisible true) (partMeshes st) (partMeshes st))
         (removePlanes i st)) in
  if bool_decide (selectedPart st = Some i) then switchToGreenHighlight i shown else shown.
Proof.
  destruct (removePlanes_fields i st) as (_ & Hm & Hsel & _).
  change (removeSectionPlane i st) with
    (let this4 := forOf (partMeshes (removePlanes i st))
                    (λ id _ this', setMeshVisible id true this') (removePlanes i st) in
     let this5 := setSectionedPartId None this4 in
     if bool_decide (selectedPart this5 = Some i)
     then switchToGreenHighlight i this5 else this5).
  cbv zeta. rewrite (forOf_meshes (λ _, setVisible true)) by done.
  simpl. by rewrite Hm, Hsel.
Qed.

Lemma removeSectionPlane_fields i st :
  sectionedPartId (removeSectionPlane i st) = None ∧
  parts (removeSectionPlane i st) = parts st ∧
  selectedPart (removeSectionPlane i st) = selectedPart st ∧
  preIsolationState (removeSectionPlane i st) = preIsolationState st ∧
  dom (partMeshes (removeSectionPlane i st)) = dom (partMeshes st) ∧
  (∀ id mesh, partMeshes (removeSectionPlane i st) !! id = Some mesh →
              visible mesh = true).
Proof.
  rewrite removeSectionPlane_result. cbv zeta.
  destruct (removePlanes_fields i st) as (Hp & Hm & Hsel & _ & _ & Hpre).
  set (shown := setSectionedPartId None _).
  assert (Hshown : sectionedPartId shown = None ∧ parts shown = parts st ∧
                   selectedPart shown = selectedPart st ∧
                   preIsolationState shown = preIsolationState st ∧
                   dom (partMeshes shown) = dom (partMeshes st) ∧
                   ∀ id, visible <$> partMeshes shown !! id
                         = (λ _, true) <$> partMeshes st !! id).
  { subst shown. simpl. repeat split; try done. 
    - apply dom_meshesAfter.
    - intros id. rewrite lookup_meshesAfter. by destruct (partMeshes st !! id). }
  destruct Hshown as (Hs & Hp' & Hsel' & Hpre' & Hdom & Hvis).
  assert (Hgreen : ∀ X, X = shown ∨ X = switchToGreenHighlight i shown →
            sectionedPartId X = None ∧ parts X = parts st ∧
            selectedPart X = selectedPart st ∧
            preIsolationState X = preIsolationState st ∧
            dom (partMeshes X) = dom (partMeshes st) ∧
            ∀ id mesh, partMeshes X !! id = Some mesh → visible mesh = true).
  { intros X HX.
    assert (HP : Painted shown X).
    { destruct HX as [-> | ->]; [apply Painted_refl|apply switchToGreenHighlight_Painted]. }
    destruct HP as ((HXs & HXd & _) & _ & HXv).
    assert (HXf : parts X = parts shown ∧ selectedPart X = selectedPart shown ∧
                  preIsolationState X = preIsolationState shown).
    { destruct HX as [-> | ->]; [done|]. unfold switchToGreenHighlight.
      repeat case_match; done. }
    destruct HXf as (-> & -> & ->).
    repeat split; try congruence.
    intros id mesh Hid. specialize (HXv id). rewrite Hid, Hvis in HXv.
    destruct (partMeshes st !! id); by simplify_eq/=. }
  destruct (bool_decide _); apply Hgreen; auto.
Qed.

Lemma removeSectionPlane_Kept_keys i st :
  dom (partMeshes (removeSectionPlane i st)) = dom (partMeshes st) ∧
  dom (parts (removeSectionPlane i st)) = dom (parts st).
Proof. destruct (removeSectionPlane_fields i st) as (_ & -> & _ & _ & -> & _). done. Qed.

Lemma createSectionPlane_unregistered i ty position st :
  parts st !! i = None ∨ partMeshes st !! i = None →
  createSectionPlane i ty position st = (None, st).
Proof.
  unfold createSectionPlane. intros [H|H]; rewrite H; [done|].
  by destruct (parts st !! i).
Qed.

Lemma createSectionPlane_registered i ty position st :
  is_Some (parts st !! i) → is_Some (partMeshes st !! i) →
  (createSectionPlane i ty position st).2 =
  let plane := positionSectionPlane {| planeType := ty; offset := None |} ty position in
  addClippingPlane i plane
    (switchToOrangeHighlight i
       (setSectionPlanes (<[i := plane]> (sectionPlanes (isolatedFor i st)))
          (isolatedFor i st))).
Proof. intros [p Hp] [m Hm]. unfold createSectionPlane. by rewrite Hp, Hm. Qed.

Lemma isolatedFor_fields i st :
  sectionedPartId (isolatedFor i st) = Some i ∧
  dom (partMeshes (isolatedFor i st)) = dom (partMeshes st) ∧
  dom (parts (isolatedFor i st)) = dom (parts st) ∧
  (∀ id, isHidden <$> parts (isolatedFor i st) !! id = isHidden <$> parts st !! id) ∧
  (∀ id mesh, partMeshes (isolatedFor i st) !! id = Some mesh →
              visible mesh = bool_decide (id = i)).
Proof.
  unfold isolatedFor. rewrite forceSectioningMode_meshes.
  set (hidden := forOf _ _ _).
  assert (HK : Kept (removeSectionPlane i st) hidden ∧
               parts hidden = parts (removeSectionPlane i st)).
  { subst hidden. split.
    - apply forOf_Kept. intros id x r. destruct (bool_decide _); auto with kept.
      apply Kept_refl.
    - apply (forOf_invariant (λ r, parts r = parts (removeSectionPlane i st))); [|done].
      intros id x r _ Hr. by destruct (bool_decide _). }
  destruct HK as ((_ & Hdm & Hdp) & Hparts).
  destruct (removeSectionPlane_fields i st) as (_ & Hp & _ & _ & Hd & _).
  simpl. repeat split.
  - rewrite dom_meshesAfter. congruence.
  - congruence.
  - intros id. by rewrite Hparts, Hp.
  - intros id mesh. rewrite lookup_meshesAfter.
    destruct (partMeshes hidden !! id) as [m|]; simpl; [|done]. by intros [= <-].
Qed.

(** What [createSectionPlane] establishes for a registered part. *)
Lemma createSectionPlane_fields i ty position st :
  is_Some (parts st !! i) → is_Some (partMeshes st !! i) →
  sectionedPartId (createSectionPlane i ty position st).2 = Some i ∧
  dom (partMeshes (createSectionPlane i ty position st).2) = dom (partMeshes st) ∧
  dom (parts (createSectionPlane i ty position st).2) = dom (parts st) ∧
  (∀ id, isHidden <$> parts (createSectionPlane i ty position st).2 !! id
         = isHidden <$> parts st !! id) ∧
  (∀ id mesh, partMeshes (createSectionPlane i ty position st).2 !! id = Some mesh →
              visible mesh = bool_decide (id = i)).
Proof.
  intros Hp Hm. rewrite createSectionPlane_registered by done. cbv zeta.
  set (plane := positionSectionPlane _ _ _).
  destruct (isolatedFor_fields i st) as (Hs & Hdm & Hdp & Hh & Hv).
  set (stored := setSectionPlanes _ (isolatedFor i st)).
  assert (HP : Painted (isolatedFor i st)
                 (addClippingPlane i plane (switchToOrangeHighlight i stored))).
  { eapply Painted_trans; [eapply Painted_trans|].
    - apply (Painted_of_eq _ stored); reflexivity.
    - apply switchToOrangeHighlight_Painted.
    - apply addClippingPlane_Painted. }
  destruct HP as ((HPs & HPdm & HPdp) & HPh & HPv).
  split; [congruence|]. split; [congruence|]. split; [congruence|]. split.
  - intros id. by rewrite HPh.
  - intros id mesh Hid. specialize (HPv id). rewrite Hid in HPv.
    destruct (partMeshes (isolatedFor i st) !! id) as [m|] eqn:Hm'; [|done].
    simpl in HPv. injection HPv as HPv. rewrite HPv. by eapply Hv.
Qed.

(** ** Hidden flags against mesh visibility *)

Lemma Framed_Agree R st st' :
  Framed st st' → sectionedPartId st = None → Agree R st → Agree R st'.
Proof.
  intros (_ & HH & HV) Hs HA id p' mesh' Hp Hm.
  specialize (HH id). specialize (HV Hs id). rewrite Hp in HH. rewrite Hm in HV.
  destruct (parts st !! id) as [p|] eqn:Hp0; [|done].
  destruct (partMeshes st !! id) as [mesh|] eqn:Hm0; [|done].
  simplify_eq/=. rewrite HH, HV. by eapply HA.
Qed.

Lemma applyHidden_Agree R h i st :
  (∀ b, R b (negb b)) → Agree R st → Agree R (applyHidden h i st).
Proof.
  intros HR HA.
  destruct (parts st !! i) as [p|] eqn:Hp;
    [|by rewrite applyHidden_unregistered by auto].
  destruct (partMeshes st !! i) as [mesh|] eqn:Hm;
    [|by rewrite applyHidden_unregistered by auto].
  destruct (applyHidden_parts h i st p mesh Hp Hm) as [Hparts Hmeshes].
  intros id p' mesh'. rewrite Hparts, Hmeshes.
  destruct (decide (i = id)) as [<-|Hne].
  - rewrite !lookup_insert_eq. intros [= <-] [= <-]. simpl. apply HR.
  - rewrite !lookup_insert_ne by done. apply HA.
Qed.

Lemma forOf_applyHidden_Agree {V} R (h : string → V → bool) (m : gmap string V) st :
  (∀ b, R b (negb b)) → Agree R st →
  Agree R (forOf m (λ id x st', applyHidden (h id x) id st') st).
Proof.
  intros HR HA. apply (forOf_invariant (Agree R)); [|done].
  intros i x r _ Hr. by apply applyHidden_Agree.
Qed.

Lemma isolatePart_Agree R i st :
  (∀ b, R b (negb b)) → Agree R st → Agree R (isolatePart i st).
Proof.
  intros HR HA. unfold isolatePart. cbv zeta.
  apply (forOf_applyHidden_Agree R (λ id _, bool_decide (id ≠ i))); done.
Qed.

Lemma showAllParts_Agree R st :
  (∀ b, R b (negb b)) → Agree R st → Agree R (showAllParts st).
Proof.
  intros HR HA. unfold showAllParts. destruct (preIsolationState st).
  - apply (forOf_applyHidden_Agree R (λ _ wasHidden, wasHidden)); done.
  - apply (forOf_applyHidden_Agree R (λ _ _, false)); done.
Qed.

Lemma togglePartVisibility_Agree R i st :
  (∀ b, R b (negb b)) → Agree R st → Agree R (togglePartVisibility i st).
Proof.
  intros HR HA. unfold togglePartVisibility. destruct (parts st !! i) as [p|]; [|done].
  destruct (isHidden p); [by apply (applyHidden_Agree R false)|by apply (applyHidden_Agree R true)].
Qed.

(** [removeSectionPlane] shows every mesh, whatever the flags say. *)
Lemma removeSectionPlane_Agree R i st :
  (∀ b, R b true) → Agree R (removeSectionPlane i st).
Proof.
  intros HR id p mesh _ Hm.
  destruct (removeSectionPlane_fields i st) as (_ & _ & _ & _ & _ & Hv).
  rewrite (Hv _ _ Hm). apply HR.
Qed.

Lemma step_Agree R op st :
  (∀ b, R b (negb b)) →
  (notRemoveSectionPlane op = true ∨ ∀ b, R b true) →
  (sectionedPartId st = None → Agree R st) →
  sectionedPartId (step op st) = None → Agree R (step op st).
Proof.
  intros HR Hop HA.
  assert (HF : ∀ st', Framed st st' → sectionedPartId st' = None → Agree R st').
  { intros st' HFr Hs'. pose proof HFr as ((Hs & _) & _). rewrite Hs in Hs'.
    eapply Framed_Agree; eauto. }
  assert (HK : ∀ st', Kept st st' → (Agree R st → Agree R st') →
                      sectionedPartId st' = None → Agree R st').
  { intros st' (Hs & _) Himp Hs'. rewrite Hs in Hs'. auto. }
  destruct op as [i|i| |hit|i|i|i|i|i|i| |v|v|i ty position|i position|i| ]; cbn [step];
    try (apply HF; solve [auto using Painted_Framed with framed painted]).
  - apply HK; [apply hidePart_Kept|by apply (applyHidden_Agree R true)].
  - apply HK; [apply showPart_Kept|by apply (applyHidden_Agree R false)].
  - apply HK; [apply togglePartVisibility_Kept|by apply togglePartVisibility_Agree].
  - apply HK; [apply isolatePart_Kept|by apply isolatePart_Agree].
  - apply HK; [apply showAllParts_Kept|by apply showAllParts_Agree].
  - destruct (parts st !! i) as [p|] eqn:Hp;
      [|by rewrite createSectionPlane_unregistered by auto].
    destruct (partMeshes st !! i) as [mesh|] eqn:Hm;
      [|by rewrite createSectionPlane_unregistered by auto].
    destruct (createSectionPlane_fields i ty position st) as (Hs & _);
      [by rewrite Hp|by rewrite Hm|].
    by rewrite Hs.
  - intros _. destruct Hop as [?|Htrue]; [done|]. by apply removeSectionPlane_Agree.
Qed.

Lemma run_Agree R ops st :
  (∀ b, R b (negb b)) →
  (forallb notRemoveSectionPlane ops = true ∨ ∀ b, R b true) →
  (sectionedPartId st = None → Agree R st) →
  sectionedPartId (run ops st) = None → Agree R (run ops st).
Proof.
  intros HR. unfold run. revert st.
  induction ops as [|op ops IH]; intros st Hops HA; simpl; [done|].
  apply IH.
  - destruct Hops as [[_ ?]%andb_true_iff|?]; auto.
  - apply step_Agree; [done| |done].
    destruct Hops as [[? _]%andb_true_iff|?]; auto.
Qed.

(** ** Isolating and showing all *)

(** The snapshot that [isolatePart] takes. *)
Lemma snapshot_hidden (ps : gmap string RegisteredPart) :
  forOf ps (λ id part snap, <[id := isHidden part]> snap) (∅ : gmap string bool)
  = isHidden <$> ps.
Proof.
  unfold forOf.
  apply (map_fold_weak_ind (λ (r : gmap string bool) m, r = isHidden <$> m)).
  - by rewrite fmap_empty.
  - intros i x m r _ ->. by rewrite fmap_insert.
Qed.

Lemma applyHidden_preIsolationState h i st :
  preIsolationState (applyHidden h i st) = preIsolationState st.
Proof. unfold applyHidden, hidePart, showPart. destruct h; repeat case_match; done. Qed.

Lemma applyHidden_lookup h i st k :
  parts (applyHidden h i st) !! k =
    (if decide (i = k)
     then match partMeshes st !! i with
          | Some _ => setIsHidden h <$> parts st !! i
          | None => parts st !! i
          end
     else parts st !! k) ∧
  partMeshes (applyHidden h i st) !! k =
    (if decide (i = k)
     then match parts st !! i with
          | Some _ => setVisible (negb h) <$> partMeshes st !! i
          | None => partMeshes st !! i
          end
     else partMeshes st !! k).
Proof.
  destruct (parts st !! i) as [p|] eqn:Hp; [destruct (partMeshes st !! i) as [mesh|] eqn:Hm|].
  - destruct (applyHidden_parts h i st p mesh Hp Hm) as [-> ->].
    rewrite !lookup_insert. by destruct (decide (i = k)).
  - rewrite applyHidden_unregistered by auto.
    destruct (decide (i = k)) as [<-|]; by rewrite ?Hp, ?Hm.
  - rewrite applyHidden_unregistered by auto.
    destruct (decide (i = k)) as [<-|]; rewrite ?Hp; [|done].
    by destruct (partMeshes st !! i).
Qed.

(** A loop that hides or shows the part under every key of [m]. *)
Lemma forOf_applyHidden {V} (h : string → V → bool) (m : gmap string V) st :
  let r := forOf m (λ id x st', applyHidden (h id x) id st') st in
  (∀ k, parts r !! k =
        match m !! k, partMeshes st !! k with
        | Some x, Some _ => setIsHidden (h k x) <$> parts st !! k
        | _, _ => parts st !! k
        end) ∧
  (∀ k, partMeshes r !! k =
        match m !! k, parts st !! k with
        | Some x, Some _ => setVisible (negb (h k x)) <$> partMeshes st !! k
        | _, _ => partMeshes st !! k
        end) ∧
  preIsolationState r = preIsolationState st.
Proof.
  cbv zeta. unfold forOf.
  apply (map_fold_weak_ind (λ r m',
    (∀ k, parts r !! k =
          match m' !! k, partMeshes st !! k with
          | Some x, Some _ => setIsHidden (h k x) <$> parts st !! k
          | _, _ => parts st !! k
          end) ∧
    (∀ k, partMeshes r !! k =
          match m' !! k, parts st !! k with
          | Some x, Some _ => setVisible (negb (h k x)) <$> partMeshes st !! k
          | _, _ => partMeshes st !! k
          end) ∧
    preIsolationState r = preIsolationState st)).
  - repeat split; intros k; by rewrite lookup_empty.
  - intros i x m' r Hi (HP & HM & Hpre).
    pose proof (HP i) as HPi. pose proof (HM i) as HMi.
    rewrite Hi in HPi, HMi. simpl in HPi, HMi.
    split; [|split]; [| |by rewrite applyHidden_preIsolationState].
    + intros k. rewrite (proj1 (applyHidden_lookup _ _ _ k)).
      destruct (decide (i = k)) as [<-|Hne].
      * by rewrite lookup_insert_eq, HPi, HMi.
      * rewrite lookup_insert_ne by done. apply HP.
    + intros k. rewrite (proj2 (applyHidden_lookup _ _ _ k)).
      destruct (decide (i = k)) as [<-|Hne].
      * by rewrite lookup_insert_eq, HPi, HMi.
      * rewrite lookup_insert_ne by done. apply HM.
Qed.

Lemma isolatePart_lookups i st :
  (∀ k, parts (isolatePart i st) !! k =
        match partMeshes st !! k with
        | Some _ => setIsHidden (bool_decide (k ≠ i)) <$> parts st !! k
        | None => parts st !! k
        end) ∧
  (∀ k, partMeshes (isolatePart i st) !! k =
        match parts st !! k with
        | Some _ => setVisible (negb (bool_decide (k ≠ i))) <$> partMeshes st !! k
        | None => partMeshes st !! k
        end) ∧
  preIsolationState (isolatePart i st) = Some (isHidden <$> parts st).
Proof.
  unfold isolatePart. cbv zeta. rewrite snapshot_hidden.
  destruct (forOf_applyHidden (λ id (_ : RegisteredPart), bool_decide (id ≠ i))
              (parts (setPreIsolationState (Some (isHidden <$> parts st)) st))
              (setPreIsolationState (Some (isHidden <$> parts st)) st))
    as (HP & HM & Hpre).
  unfold applyHidden in HP, HM, Hpre.
  split; [|split; [|exact Hpre]].
  - intros k. rewrite (HP k). simpl. by destruct (parts st !! k), (partMeshes st !! k).
  - intros k. rewrite (HM k). simpl. by destruct (parts st !! k), (partMeshes st !! k).
Qed.

(** [isolatePart] and then [showAllParts]: the part entries are as
    before, and every registered mesh shows what its flag says. *)
Lemma isolate_showAll i st :
  parts (showAllParts (isolatePart i st)) = parts st ∧
  (∀ k p mesh, parts st !! k = Some p → partMeshes st !! k = Some mesh →
               partMeshes (showAllParts (isolatePart i st)) !! k
               = Some (setVisible (negb (isHidden p)) mesh)).
Proof.
  destruct (isolatePart_lookups i st) as (HP & HM & Hpre).
  unfold showAllParts. rewrite Hpre.
  destruct (forOf_applyHidden (λ (_ : string) (wasHidden : bool), wasHidden)
              (isHidden <$> parts st) (isolatePart i st)) as (HP2 & HM2 & _).
  unfold applyHidden in HP2, HM2.
  split.
  - apply map_eq. intros k. rewrite (HP2 k), lookup_fmap, (HM k), (HP k).
    destruct (parts st !! k) as [p|] eqn:Hp; simpl;
      destruct (partMeshes st !! k) as [mesh|]; simpl; try done.
    by destruct p.
  - intros k p mesh Hp Hm. rewrite (HM2 k), lookup_fmap, (HP k), (HM k), Hp, Hm. done.
Qed.

(** ** Unknown part ids *)

Lemma maintainSectioningIsolation_selectedPart st :
  selectedPart (maintainSectioningIsolation st) = selectedPart st.
Proof.
  destruct (sectionedPartId st) as [sectioned|] eqn:Hs.
  - by rewrite (maintainSectioningIsolation_sectioned _ _ Hs).
  - by rewrite maintainSectioningIsolation_unsectioned.
Qed.

Lemma highlightPart_selectedPart i st : selectedPart (highlightPart i st) = selectedPart st.
Proof. unfold highlightPart. repeat case_match; done. Qed.

Lemma selectPart_selectedPart i st : selectedPart (selectPart i st) = Some i.
Proof.
  unfold selectPart. cbv zeta. rewrite maintainSectioningIsolation_selectedPart.
  case_match; [|done]. by rewrite highlightPart_selectedPart.
Qed.

Lemma selectPart_unregistered i st :
  parts st !! i = None → selectedPart st = None →
  selectPart i st = maintainSectioningIsolation (setSelectedPart (Some i) st).
Proof. intros Hp Hsel. unfold selectPart. rewrite Hsel. simpl. by rewrite Hp. Qed.

(** ** Clipping planes left by a section *)

Lemma removePlanes_store i st :
  sectionPlanes st !! i = None → materialStore (removePlanes i st) = materialStore st.
Proof. intros H. unfold removePlanes. rewrite H. cbv zeta. repeat case_match; done. Qed.

Lemma removePlanes_sectionPlanes i st id :
  id ≠ i → sectionPlanes (removePlanes i st) !! id = sectionPlanes st !! id.
Proof.
  intros Hne. unfold removePlanes. cbv zeta.
  repeat case_match; simpl; rewrite ?lookup_delete_ne; done.
Qed.

Lemma switchToGreenHighlight_cases i st :
  switchToGreenHighlight i st = st ∨
  switchToGreenHighlight i st = setMeshMaterial i Highlight st.
Proof. unfold switchToGreenHighlight. repeat case_match; auto. Qed.

(** What [removeSectionPlane] leaves of the materials and the planes. *)
Lemma removeSectionPlane_look i st :
  materialStore (removeSectionPlane i st) = materialStore (removePlanes i st) ∧
  sectionPlanes (removeSectionPlane i st) = sectionPlanes (removePlanes i st) ∧
  (∀ id, id ≠ i → material <$> partMeshes (removeSectionPlane i st) !! id
                  = material <$> partMeshes st !! id).
Proof.
  rewrite removeSectionPlane_result. cbv zeta. set (shown := setSectionedPartId None _).
  assert (Hshown : ∀ id, material <$> partMeshes shown !! id
                         = material <$> partMeshes st !! id).
  { intros id. subst shown. simpl. rewrite lookup_meshesAfter.
    by destruct (partMeshes st !! id). }
  destruct (bool_decide _); [|done].
  destruct (switchToGreenHighlight_cases i shown) as [-> | ->]; [done|].
  repeat split. intros id Hne. simpl. by rewrite lookup_alter_ne.
Qed.

Lemma isolatedFor_look i st :
  materialStore (isolatedFor i st) = materialStore (removeSectionPlane i st) ∧
  sectionPlanes (isolatedFor i st) = sectionPlanes (removeSectionPlane i st) ∧
  highlight2Material (isolatedFor i st) = highlight2Material (removeSectionPlane i st) ∧
  (∀ id, material <$> partMeshes (isolatedFor i st) !! id
         = material <$> partMeshes (removeSectionPlane i st) !! id).
Proof.
  unfold isolatedFor. rewrite forceSectioningMode_meshes.
  set (hidden := forOf _ _ _).
  assert (HQ : materialStore hidden = materialStore (removeSectionPlane i st) ∧
               sectionPlanes hidden = sectionPlanes (removeSectionPlane i st) ∧
               highlight2Material hidden = highlight2Material (removeSectionPlane i st) ∧
               ∀ id, material <$> partMeshes hidden !! id
                     = material <$> partMeshes (removeSectionPlane i st) !! id).
  { subst hidden.
    apply (forOf_invariant (λ r,
             materialStore r = materialStore (removeSectionPlane i st) ∧
             sectionPlanes r = sectionPlanes (removeSectionPlane i st) ∧
             highlight2Material r = highlight2Material (removeSectionPlane i st) ∧
             ∀ id, material <$> partMeshes r !! id
                   = material <$> partMeshes (removeSectionPlane i st) !! id)); [|done].
    intros k x r _ (H1 & H2 & H3 & H4). destruct (bool_decide _); [|done].
    simpl. repeat split; try done. intros id.
    rewrite <- H4. by apply lookup_alter_observed. }
  destruct HQ as (H1 & H2 & H3 & H4). simpl. repeat split; try done.
  intros id. rewrite lookup_meshesAfter, <- H4. by destruct (partMeshes hidden !! id).
Qed.

Lemma switchToOrangeHighlight_look i st :
  sectionPlanes (switchToOrangeHighlight i st) = sectionPlanes st ∧
  (∀ id, id ≠ i → partMeshes (switchToOrangeHighlight i st) !! id = partMeshes st !! id) ∧
  (materialStore (switchToOrangeHighlight i st) = materialStore st ∨
   materialStore (switchToOrangeHighlight i st)
     = <[Highlight2 := newMaterial]> (materialStore st) ∧
   material <$> partMeshes (switchToOrangeHighlight i st) !! i = Some Highlight2).
Proof.
  unfold switchToOrangeHighlight.
  destruct (parts st !! i) as [p|]; [|by auto].
  destruct (partMeshes st !! i) as [mesh|] eqn:Hm; [|by auto].
  destruct (isHighlighted p); [|by auto].
  destruct (highlight2Material st) as [r|] eqn:Hr; simpl.
  - split; [done|]. split; [|by left]. intros id Hne. by rewrite lookup_alter_ne.
  - split; [done|]. split; [intros id Hne; by rewrite lookup_alter_ne|].
    right. split; [done|]. by rewrite lookup_alter_eq, Hm.
Qed.

Lemma addClippingPlane_look i plane st mesh :
  partMeshes st !! i = Some mesh →
  partMeshes (addClippingPlane i plane st) = partMeshes st ∧
  sectionPlanes (addClippingPlane i plane st) = sectionPlanes st ∧
  ∃ planes,
    materialStore (addClippingPlane i plane st)
    = <[material mesh := {| clippingPlanes := Some (planes ++ [clippingPlaneOf plane])%list;
                            clipIntersection := false; needsUpdate := true |}]>
        (materialStore st).
Proof. intros Hm. unfold addClippingPlane. rewrite Hm. simpl. eauto. Qed.

Lemma addClippingPlane_clips i plane st :
  is_Some (partMeshes st !! i) → Clipped i (addClippingPlane i plane st).
Proof.
  intros [mesh Hm]. destruct (addClippingPlane_look i plane st mesh Hm) as (HM & _ & planes & HS).
  exists mesh, (planes ++ [clippingPlaneOf plane])%list. rewrite HM. split; [done|].
  unfold getMaterial. rewrite HS, lookup_insert_eq. simpl. split; [done|].
  by destruct planes.
Qed.

Lemma createSectionPlane_clips i ty position st :
  is_Some (parts st !! i) → is_Some (partMeshes st !! i) →
  Clipped i (createSectionPlane i ty position st).2.
Proof.
  intros Hp Hm. rewrite createSectionPlane_registered by done. cbv zeta.
  apply addClippingPlane_clips. apply elem_of_dom.
  destruct (isolatedFor_fields i st) as (_ & Hd & _).
  set (stored := setSectionPlanes _ _).
  destruct (switchToOrangeHighlight_Painted i stored) as ((_ & -> & _) & _).
  subst stored. simpl. rewrite Hd. by apply elem_of_dom.
Qed.

(** The planes of the other parts survive [createSectionPlane]. *)
Lemma createSectionPlane_sectionPlanes i ty position st id :
  id ≠ i →
  sectionPlanes (createSectionPlane i ty position st).2 !! id = sectionPlanes st !! id.
Proof.
  intros Hne.
  destruct (parts st !! i) as [p|] eqn:Hp;
    [|by rewrite createSectionPlane_unregistered by auto].
  destruct (partMeshes st !! i) as [mesh|] eqn:Hm;
    [|by rewrite createSectionPlane_unregistered by auto].
  rewrite createSectionPlane_registered by (by rewrite ?Hp, ?Hm). cbv zeta.
  set (stored := setSectionPlanes _ _).
  assert (is_Some (partMeshes (switchToOrangeHighlight i stored) !! i)) as [mesh' Hm'].
  { apply elem_of_dom.
    destruct (switchToOrangeHighlight_Painted i stored) as ((_ & -> & _) & _).
    subst stored. simpl. destruct (isolatedFor_fields i st) as (_ & -> & _).
    apply elem_of_dom. by rewrite Hm. }
  destruct (addClippingPlane_look i (positionSectionPlane {| planeType := ty; offset := None |}
                                       ty position) _ _ Hm') as (_ & -> & _).
  destruct (switchToOrangeHighlight_look i stored) as (-> & _).
  subst stored. simpl. rewrite lookup_insert_ne by done.
  destruct (isolatedFor_look i st) as (_ & -> & _).
  destruct (removeSectionPlane_look i st) as (_ & -> & _).
  by apply removePlanes_sectionPlanes.
Qed.

Lemma createSectionPlane_stores_plane i ty position st :
  is_Some (parts st !! i) → is_Some (partMeshes st !! i) →
  is_Some (sectionPlanes (createSectionPlane i ty position st).2 !! i).
Proof.
  intros Hp Hm. rewrite createSectionPlane_registered by done. cbv zeta.
  set (stored := setSectionPlanes _ _).
  assert (is_Some (partMeshes (switchToOrangeHighlight i stored) !! i)) as [mesh' Hm'].
  { apply elem_of_dom.
    destruct (switchToOrangeHighlight_Painted i stored) as ((_ & -> & _) & _).
    subst stored. simpl. destruct (isolatedFor_fields i st) as (_ & -> & _).
    by apply elem_of_dom. }
  destruct (addClippingPlane_look i (positionSectionPlane {| planeType := ty; offset := None |}
                                       ty position) _ _ Hm') as (_ & -> & _).
  destruct (switchToOrangeHighlight_look i stored) as (-> & _).
  subst stored. simpl. rewrite lookup_insert_eq. done.
Qed.

(** A section created for [i] leaves the clipping planes of another part
    [a] in place, provided [i] had no section of its own to remove. *)
Lemma createSectionPlane_keeps_clipped i ty position st a :
  a ≠ i → sectionPlanes st !! i = None → Clipped a st →
  Clipped a (createSectionPlane i ty position st).2.
Proof.
  intros Hne Hnone (meshA & planesA & HmA & HpA & HneA).
  destruct (parts st !! i) as [p|] eqn:Hp;
    [|rewrite createSectionPlane_unregistered by auto; by exists meshA, planesA].
  destruct (partMeshes st !! i) as [mesh|] eqn:Hm;
    [|rewrite createSectionPlane_unregistered by auto; by exists meshA, planesA].
  rewrite createSectionPlane_registered by (by rewrite ?Hp, ?Hm). cbv zeta.
  set (plane := positionSectionPlane _ _ _).
  set (stored := setSectionPlanes _ _).
  (* the state in which the new plane is stored *)
  destruct (isolatedFor_look i st) as (HIs & _ & _ & HIm).
  destruct (removeSectionPlane_look i st) as (HRs & _ & HRm).
  assert (Hstore : materialStore stored = materialStore st).
  { subst stored. simpl. rewrite HIs, HRs. by apply removePlanes_store. }
  assert (HmatA : material <$> partMeshes stored !! a = Some (material meshA)).
  { subst stored. simpl. rewrite HIm, HRm by done. by rewrite HmA. }
  (* the orange highlight *)
  destruct (switchToOrangeHighlight_look i stored) as (_ & HOm & HOs).
  rewrite <- (HOm a Hne) in HmatA.
  assert (is_Some (partMeshes (switchToOrangeHighlight i stored) !! i)) as [meshI HmI].
  { apply elem_of_dom.
    destruct (switchToOrangeHighlight_Painted i stored) as ((_ & -> & _) & _).
    subst stored. simpl. destruct (isolatedFor_fields i st) as (_ & -> & _).
    apply elem_of_dom. by rewrite Hm. }
  (* the new clipping plane *)
  destruct (addClippingPlane_look i plane _ _ HmI) as (HFm & _ & planes & HFs).
  destruct (partMeshes (switchToOrangeHighlight i stored) !! a) as [meshA'|] eqn:HmA';
    [|done].
  injection HmatA as HmatA.
  unfold Clipped, getMaterial. rewrite HFm, HFs, HmA'.
  destruct (decide (material meshI = material meshA')) as [Heq|Hdiff].
  - eexists _, _. split; [done|]. rewrite <- Heq, lookup_insert_eq. simpl.
    split; [done|]. by destruct planes.
  - exists meshA', planesA. split; [done|]. rewrite lookup_insert_ne by done.
    split; [|done]. rewrite HmatA. 
    destruct HOs as [-> | [-> HH2]].
    + by rewrite Hstore.
    + rewrite HmI in HH2. injection HH2 as HH2.
      rewrite lookup_insert_ne by congruence. by rewrite Hstore.
Qed.

(** ** A freshly loaded registry *)

Lemma Lockstep_ShownVisible st : Lockstep st → ShownVisible st.
Proof.
  intros HL id p mesh Hp Hm Hh. specialize (HL id p mesh Hp Hm). simpl in HL.
  rewrite Hh in HL. by destruct (visible mesh).
Qed.

Lemma constructor_Lockstep : Lockstep constructor.
Proof. intros id p mesh Hp. simpl in Hp. by rewrite lookup_empty in Hp. Qed.

(** Registering a part with a visible mesh keeps the registry in
    lock-step. *)
Lemma addPart_Lockstep partData mesh st :
  visible mesh = true → Lockstep st → Lockstep (addPart partData mesh st).
Proof.
  intros Hv HL id p mesh'. unfold addPart. simpl.
  destruct (decide (PartAnalyzer.partNumber partData = id)) as [<-|Hne].
  - rewrite !lookup_insert_eq. intros [= <-] [= <-]. simpl. by rewrite Hv.
  - rewrite !lookup_insert_ne by done. apply HL.
Qed.

End ManagerProperties.

(** ** The statements about the part manager *)

Section ManagerClaims.
Import PartManager.

Lemma twoParts_Lockstep : Lockstep twoParts.
Proof.
  unfold twoParts. do 2 (apply addPart_Lockstep; [done|]).
  intros id p mesh Hp. simpl in Hp. by rewrite lookup_empty in Hp.
Qed.

(** C1, as the code has it. After [createSectionPlane(A, ...)] for a
    registered part [A], and whatever selection, highlight, hide, show,
    isolate, show-all, click, label or plane-position calls and ticks
    follow, after the next tick the mesh of [A] is visible and the mesh of
    every other registered part is invisible; the sectioned part is still
    [A] and the registered meshes are the same. The calls in between
    exclude [createSectionPlane] and [removeSectionPlane] for every id,
    not only [removeSectionPlane(A)]. *)
Theorem section_isolation_after_every_tick (A planeType : string) (position : float)
    (ops : list Op) (st : PartManager) :
  is_Some (parts st !! A) → is_Some (partMeshes st !! A) →
  forallb betweenTicks ops = true →
  sectionedPartId (update (run ops (createSectionPlane A planeType position st).2)) = Some A ∧
  dom (partMeshes (update (run ops (createSectionPlane A planeType position st).2)))
    = dom (partMeshes st) ∧
  (∃ mesh, partMeshes (update (run ops (createSectionPlane A planeType position st).2)) !! A
           = Some mesh ∧ visible mesh = true) ∧
  (∀ id mesh,
     partMeshes (update (run ops (createSectionPlane A planeType position st).2)) !! id
     = Some mesh →
     visible mesh = bool_decide (id = A)).
Proof.
  intros Hp Hm Hops.
  destruct (createSectionPlane_fields A planeType position st Hp Hm) as (Hs & Hd & _).
  destruct (run_Kept ops (createSectionPlane A planeType position st).2 Hops)
    as (Hs' & Hd' & _).
  rewrite Hs in Hs'. rewrite Hd in Hd'.
  set (before := run ops _) in *.
  assert (Hlook : ∀ id, partMeshes (update before) !! id
                        = setVisible (bool_decide (id = A)) <$> partMeshes before !! id).
  { intros id. by apply update_sectioned. }
  split; [by apply (update_sectioned before A A)|]. split; [|split].
  - apply set_eq. intros id. rewrite <- Hd', !elem_of_dom, Hlook. apply fmap_is_Some.
  - assert (is_Some (partMeshes before !! A)) as [mesh Hmesh].
    { apply elem_of_dom. rewrite Hd'. by apply elem_of_dom. }
    exists (setVisible (bool_decide (A = A)) mesh). rewrite Hlook, Hmesh.
    split; [done|]. simpl. by rewrite bool_decide_true.
  - intros id mesh. rewrite Hlook.
    destruct (partMeshes before !! id); simpl; [|done]. by intros [= <-].
Qed.

Lemma section_isolation_after_every_tick_witness :
  sectionedPartId
    (update (run [SelectPart "P-002"; HidePart "P-001"; IsolatePart "P-002"; ShowAllParts;
                  Update; DeselectAllParts]
               (createSectionPlane "P-001" "XY" 0.5 twoParts).2)) = Some "P-001" ∧
  dom (partMeshes
         (update (run [SelectPart "P-002"; HidePart "P-001"; IsolatePart "P-002";
                       ShowAllParts; Update; DeselectAllParts]
                    (createSectionPlane "P-001" "XY" 0.5 twoParts).2)))
    = dom (partMeshes twoParts) ∧
  (∃ mesh,
     partMeshes
       (update (run [SelectPart "P-002"; HidePart "P-001"; IsolatePart "P-002";
                     ShowAllParts; Update; DeselectAllParts]
                  (createSectionPlane "P-001" "XY" 0.5 twoParts).2)) !! "P-001"
     = Some mesh ∧ visible mesh = true) ∧
  (∀ id mesh,
     partMeshes
       (update (run [SelectPart "P-002"; HidePart "P-001"; IsolatePart "P-002";
                     ShowAllParts; Update; DeselectAllParts]
                  (createSectionPlane "P-001" "XY" 0.5 twoParts).2)) !! id
     = Some mesh →
     visible mesh = bool_decide (id = "P-001")).
Proof.
  apply section_isolation_after_every_tick.
  - vm_compute. eexists. reflexivity.
  - vm_compute. eexists. reflexivity.
  - reflexivity.
Defined.

(** C1 as stated fails: the isolation of [A] ends before
    [removeSectionPlane(A)] is called. [removeSectionPlane] for another id,
    even one that is not registered, shows every mesh and leaves section
    mode; [createSectionPlane] for another part makes that part the
    sectioned one, while [A] keeps its section plane. *)
Lemma section_ends_without_removing_its_plane :
  (sectionedPartId
     (update (removeSectionPlane "P-404" (createSectionPlane "P-001" "XY" 0.5 twoParts).2))
   = None ∧
   visible <$> partMeshes
                 (update (removeSectionPlane "P-404"
                            (createSectionPlane "P-001" "XY" 0.5 twoParts).2)) !! "P-002"
   = Some true) ∧
  (sectionedPartId
     (update (createSectionPlane "P-002" "XY" 0.5
                (createSectionPlane "P-001" "XY" 0.5 twoParts).2).2)
   = Some "P-002" ∧
   visible <$> partMeshes
                 (update (createSectionPlane "P-002" "XY" 0.5
                            (createSectionPlane "P-001" "XY" 0.5 twoParts).2).2) !! "P-001"
   = Some false ∧
   hasSectionPlane "P-001"
     (update (createSectionPlane "P-002" "XY" 0.5
                (createSectionPlane "P-001" "XY" 0.5 twoParts).2).2) = true).
Proof. vm_compute. repeat split; reflexivity. Qed.

(** C7, as the code has it. [isolatePart(A)] followed by [showAllParts()]
    gives every part entry, and so every hidden flag, the value it had
    before [isolatePart(A)]; the mesh of every registered part then shows
    what the restored flag says, which is the visibility it had before
    only when flag and visibility agreed then. *)
Theorem isolate_then_show_all_restores_flags (A : string) (st : PartManager) :
  parts (showAllParts (isolatePart A st)) = parts st ∧
  (∀ id p mesh, parts st !! id = Some p → partMeshes st !! id = Some mesh →
                partMeshes (showAllParts (isolatePart A st)) !! id
                = Some (setVisible (negb (isHidden p)) mesh)) ∧
  (∀ id p mesh, parts st !! id = Some p → partMeshes st !! id = Some mesh →
                isHidden p = negb (visible mesh) →
                partMeshes (showAllParts (isolatePart A st)) !! id = Some mesh).
Proof.
  destruct (isolate_showAll A st) as [HP HM]. split; [done|]. split; [done|].
  intros id p mesh Hp Hm Hagree. rewrite (HM id p mesh Hp Hm). f_equal.
  rewrite Hagree, negb_involutive. by destruct mesh.
Qed.

Lemma isolate_then_show_all_restores_flags_witness :
  parts (showAllParts (isolatePart "P-001" (hidePart "P-002" twoParts)))
  = parts (hidePart "P-002" twoParts) ∧
  isHidden <$> parts (showAllParts (isolatePart "P-001" (hidePart "P-002" twoParts)))
               !! "P-002" = Some true ∧
  isHidden <$> parts (isolatePart "P-001" (hidePart "P-002" twoParts)) !! "P-002"
  = Some true ∧
  isHidden <$> parts (showAllParts (isolatePart "P-002" (hidePart "P-002" twoParts)))
               !! "P-001" = Some false.
Proof.
  split; [|split; [|split]].
  - exact (proj1 (isolate_then_show_all_restores_flags "P-001" (hidePart "P-002" twoParts))).
  - rewrite (proj1 (isolate_then_show_all_restores_flags "P-001" (hidePart "P-002" twoParts))).
    vm_compute. reflexivity.
  - vm_compute. reflexivity.
  - rewrite (proj1 (isolate_then_show_all_restores_flags "P-002" (hidePart "P-002" twoParts))).
    vm_compute. reflexivity.
Defined.

(** C7 as stated fails for the visibility of the meshes. A part that
    was hidden is shown by [removeSectionPlane] without its flag being
    touched; the round trip keeps the flag and hides the mesh again, so
    the mesh is not as it was before [isolatePart]. *)
Lemma round_trip_does_not_restore_visibility :
  (isHidden <$> parts (run [HidePart "P-002"; CreateSectionPlane "P-001" "XY" 0.5;
                            RemoveSectionPlane "P-001"] twoParts) !! "P-002" = Some true ∧
   visible <$> partMeshes (run [HidePart "P-002"; CreateSectionPlane "P-001" "XY" 0.5;
                                RemoveSectionPlane "P-001"] twoParts) !! "P-002"
   = Some true) ∧
  (isHidden <$> parts (showAllParts
                         (isolatePart "P-001"
                            (run [HidePart "P-002"; CreateSectionPlane "P-001" "XY" 0.5;
                                  RemoveSectionPlane "P-001"] twoParts))) !! "P-002"
   = Some true ∧
   visible <$> partMeshes (showAllParts
                             (isolatePart "P-001"
                                (run [HidePart "P-002"; CreateSectionPlane "P-001" "XY" 0.5;
                                      RemoveSectionPlane "P-001"] twoParts))) !! "P-002"
   = Some false).
Proof. vm_compute. repeat split; reflexivity. Qed.

(** C2, as the code has it. For distinct registered parts [A] and [B],
    [B] having no section plane of its own, [createSectionPlane(A, ...)]
    followed by [createSectionPlane(B, ...)] leaves [B] sectioned and the
    mesh of [B] alone visible. The first section is not taken down: the
    section plane of [A] is still stored, and the material of the mesh of
    [A] still holds a clipping plane. *)
Theorem second_section_keeps_first_plane (A B typeA typeB : string) (positionA positionB : float)
    (st : PartManager) :
  A ≠ B →
  is_Some (parts st !! A) → is_Some (partMeshes st !! A) →
  is_Some (parts st !! B) → is_Some (partMeshes st !! B) →
  sectionPlanes st !! B = None →
  sectionedPartId
    (createSectionPlane B typeB positionB (createSectionPlane A typeA positionA st).2).2
  = Some B ∧
  (∀ id mesh,
     partMeshes
       (createSectionPlane B typeB positionB (createSectionPlane A typeA positionA st).2).2
       !! id = Some mesh →
     visible mesh = bool_decide (id = B)) ∧
  is_Some
    (sectionPlanes
       (createSectionPlane B typeB positionB (createSectionPlane A typeA positionA st).2).2
       !! A) ∧
  Clipped A
    (createSectionPlane B typeB positionB (createSectionPlane A typeA positionA st).2).2 ∧
  Clipped B
    (createSectionPlane B typeB positionB (createSectionPlane A typeA positionA st).2).2.
Proof.
  intros Hne HpA HmA HpB HmB Hnone.
  destruct (createSectionPlane_fields A typeA positionA st HpA HmA) as (_ & Hdm & Hdp & _).
  set (first := (createSectionPlane A typeA positionA st).2) in *.
  assert (HpB' : is_Some (parts first !! B)).
  { apply elem_of_dom. rewrite Hdp. by apply elem_of_dom. }
  assert (HmB' : is_Some (partMeshes first !! B)).
  { apply elem_of_dom. rewrite Hdm. by apply elem_of_dom. }
  assert (Hnone' : sectionPlanes first !! B = None).
  { subst first. rewrite createSectionPlane_sectionPlanes by done. exact Hnone. }
  destruct (createSectionPlane_fields B typeB positionB first HpB' HmB')
    as (Hs & _ & _ & _ & Hv).
  split; [exact Hs|]. split; [exact Hv|]. split; [|split].
  - rewrite createSectionPlane_sectionPlanes by done.
    subst first. by apply createSectionPlane_stores_plane.
  - apply createSectionPlane_keeps_clipped; [done|done|].
    subst first. by apply createSectionPlane_clips.
  - by apply createSectionPlane_clips.
Qed.

Lemma second_section_keeps_first_plane_witness :
  sectionedPartId
    (createSectionPlane "P-002" "XY" (-0.3) (createSectionPlane "P-001" "XY" 0.5 twoParts).2).2
  = Some "P-002" ∧
  (∀ id mesh,
     partMeshes
       (createSectionPlane "P-002" "XY" (-0.3)
          (createSectionPlane "P-001" "XY" 0.5 twoParts).2).2 !! id = Some mesh →
     visible mesh = bool_decide (id = "P-002")) ∧
  is_Some
    (sectionPlanes
       (createSectionPlane "P-002" "XY" (-0.3)
          (createSectionPlane "P-001" "XY" 0.5 twoParts).2).2 !! "P-001") ∧
  Clipped "P-001"
    (createSectionPlane "P-002" "XY" (-0.3) (createSectionPlane "P-001" "XY" 0.5 twoParts).2).2 ∧
  Clipped "P-002"
    (createSectionPlane "P-002" "XY" (-0.3) (createSectionPlane "P-001" "XY" 0.5 twoParts).2).2.
Proof.
  apply second_section_keeps_first_plane.
  - discriminate.
  - vm_compute. eexists. reflexivity.
  - vm_compute. eexists. reflexivity.
  - vm_compute. eexists. reflexivity.
  - vm_compute. eexists. reflexivity.
  - vm_compute. reflexivity.
Defined.

(** C2 as stated fails: after the two calls of the fourth example the
    first part is not restored. Its section plane is still stored, and
    the material of its mesh, which it shares with the second part, holds
    the clipping planes of both sections. *)
Lemma first_section_is_not_torn_down :
  sectionedPartId
    (run [CreateSectionPlane "P-001" "XY" 0.5; CreateSectionPlane "P-002" "XY" (-0.3)]
       twoParts) = Some "P-002" ∧
  hasSectionPlane "P-001"
    (run [CreateSectionPlane "P-001" "XY" 0.5; CreateSectionPlane "P-002" "XY" (-0.3)]
       twoParts) = true ∧
  material <$>
    partMeshes
      (run [CreateSectionPlane "P-001" "XY" 0.5; CreateSectionPlane "P-002" "XY" (-0.3)]
         twoParts) !! "P-001" = Some (External 0) ∧
  clippingPlanes
    (getMaterial (External 0)
       (run [CreateSectionPlane "P-001" "XY" 0.5; CreateSectionPlane "P-002" "XY" (-0.3)]
          twoParts))
  = Some [ {| clipType := "XY"; clipOffset := Some 0.5%float |};
           {| clipType := "XY"; clipOffset := Some (-0.3)%float |} ].
Proof. vm_compute. repeat split; reflexivity. Qed.




(** C8, as the code has it. Starting from a registry in which flag and
    visibility agree, after any sequence of operations that ends outside
    section mode every registered part that is not flagged hidden has a
    visible mesh; and as long as no [removeSectionPlane] was among the
    operations, the hidden flag is the negation of the visibility for every
    registered part. *)
Theorem hidden_flag_against_visibility (ops : list Op) (st : PartManager) :
  (sectionedPartId st = None → Lockstep st) →
  sectionedPartId (run ops st) = None →
  ShownVisible (run ops st) ∧
  (forallb notRemoveSectionPlane ops = true → Lockstep (run ops st)).
Proof.
  intros Hst Hend. split.
  - apply run_Agree; [by intros [] | right; by intros [] | | done].
    intros Hs. by apply Lockstep_ShownVisible, Hst.
  - intros Hops. apply run_Agree; [by intros [] | by left | done | done].
Qed.

Lemma hidden_flag_against_visibility_witness :
  ShownVisible
    (run [HidePart "P-002"; SelectPart "P-001"; IsolatePart "P-001"; ShowAllParts;
          TogglePartVisibility "P-001"; Update] twoParts) ∧
  (forallb notRemoveSectionPlane
     [HidePart "P-002"; SelectPart "P-001"; IsolatePart "P-001"; ShowAllParts;
      TogglePartVisibility "P-001"; Update] = true →
   Lockstep
     (run [HidePart "P-002"; SelectPart "P-001"; IsolatePart "P-001"; ShowAllParts;
           TogglePartVisibility "P-001"; Update] twoParts)).
Proof.
  apply hidden_flag_against_visibility.
  - intros _. exact twoParts_Lockstep.
  - vm_compute. reflexivity.
Defined.

(** C8 as stated fails: [removeSectionPlane] shows every mesh and leaves
    the hidden flags alone, so a part hidden before the section was made
    is flagged hidden and visible once the section is removed. *)
Lemma hidden_part_visible_after_section :
  Lockstep twoParts ∧
  sectionedPartId
    (run [HidePart "P-002"; CreateSectionPlane "P-001" "XY" 0.5; Update;
          RemoveSectionPlane "P-001"; Update] twoParts) = None ∧
  isHidden <$>
    parts (run [HidePart "P-002"; CreateSectionPlane "P-001" "XY" 0.5; Update;
                RemoveSectionPlane "P-001"; Update] twoParts) !! "P-002" = Some true ∧
  visible <$>
    partMeshes (run [HidePart "P-002"; CreateSectionPlane "P-001" "XY" 0.5; Update;
                     RemoveSectionPlane "P-001"; Update] twoParts) !! "P-002" = Some true ∧
  ¬ Lockstep
      (run [HidePart "P-002"; CreateSectionPlane "P-001" "XY" 0.5; Update;
            RemoveSectionPlane "P-001"; Update] twoParts).
Proof.
  split; [exact twoParts_Lockstep|].
  split; [vm_compute; reflexivity|]. split; [vm_compute; reflexivity|].
  split; [vm_compute; reflexivity|].
  intros HL.
  destruct (parts (run [HidePart "P-002"; CreateSectionPlane "P-001" "XY" 0.5; Update;
                        RemoveSectionPlane "P-001"; Update] twoParts) !! "P-002")
    as [p|] eqn:Hp; [|revert Hp; vm_compute; discriminate].
  destruct (partMeshes (run [HidePart "P-002"; CreateSectionPlane "P-001" "XY" 0.5; Update;
                             RemoveSectionPlane "P-001"; Update] twoParts) !! "P-002")
    as [mesh|] eqn:Hm; [|revert Hm; vm_compute; discriminate].
  specialize (HL "P-002" p mesh Hp Hm). simpl in HL.
  revert Hp Hm HL. vm_compute. intros [= <-] [= <-]. discriminate.
Qed.

End ManagerClaims.

(** * Order of the floating-point numbers *)

Section FloatOrder.
Import JS.

Lemma SFcompare_refl (a : spec_float) : a ≠ S754_nan → SFcompare a a = Some Eq.
Proof.
  destruct a as [s|s| |s m e]; intros H; simpl; try done.
  - by destruct s.
  - rewrite Z.compare_refl.
    replace (Pos.compare_cont Eq m m) with Eq by (symmetry; apply Pos.compare_refl).
    by destruct s.
Qed.

Ltac order_cases :=
  repeat match goal with
         | |- context [Pos.compare_cont Eq ?a ?b] =>
             change (Pos.compare_cont Eq a b) with (Pos.compare a b)
         | H : context [Pos.compare_cont Eq ?a ?b] |- _ =>
             change (Pos.compare_cont Eq a b) with (Pos.compare a b) in H
         end;
  repeat match goal with
         | |- context [Z.compare ?a ?b] => destruct (Z.compare_spec a b)
         | H : context [Z.compare ?a ?b] |- _ => destruct (Z.compare_spec a b)
         | |- context [Pos.compare ?a ?b] => destruct (Pos.compare_spec a b)
         | H : context [Pos.compare ?a ?b] |- _ => destruct (Pos.compare_spec a b)
         end;
  simpl in *; try done; try lia.

Lemma SFleb_trans a b c : SFleb a b = true → SFleb b c = true → SFleb a c = true.
Proof.
  unfold SFleb.
  destruct a as [[]|[]| |[] ma ea], b as [[]|[]| |[] mb eb], c as [[]|[]| |[] mc ec];
    simpl; try done; order_cases.
Qed.

Lemma SFltb_SFleb a b : SFltb a b = true → SFleb a b = true.
Proof. unfold SFltb, SFleb. by destruct (SFcompare a b) as [[]|]. Qed.

Lemma SFcompare_swap a b :
  SFcompare b a = CompOpp <$> SFcompare a b.
Proof.
  destruct a as [[]|[]| |[] ma ea], b as [[]|[]| |[] mb eb]; simpl; try done; order_cases.
Qed.

Lemma is_nan_false (a : float) : PrimFloat.is_nan a = false ↔ Prim2SF a ≠ S754_nan.
Proof.
  unfold PrimFloat.is_nan. rewrite FloatAxioms.eqb_spec. unfold SFeqb. split.
  - intros H Hn. rewrite Hn in H. done.
  - intros H. by rewrite SFcompare_refl.
Qed.

Lemma is_nan_true (a : float) : PrimFloat.is_nan a = true ↔ a = PrimFloat.nan.
Proof.
  split; [|by intros ->].
  intros H. apply Prim2SF_inj. change (Prim2SF PrimFloat.nan) with S754_nan.
  destruct (Prim2SF a) eqn:E; try done;
    (assert (Hn : Prim2SF a ≠ S754_nan) by (rewrite E; discriminate);
     apply is_nan_false in Hn; congruence).
Qed.

Lemma leb_trans (a b c : float) :
  PrimFloat.leb a b = true → PrimFloat.leb b c = true → PrimFloat.leb a c = true.
Proof. rewrite !FloatAxioms.leb_spec. apply SFleb_trans. Qed.

Lemma ltb_leb (a b : float) : PrimFloat.ltb a b = true → PrimFloat.leb a b = true.
Proof. rewrite FloatAxioms.ltb_spec, FloatAxioms.leb_spec. apply SFltb_SFleb. Qed.

Lemma leb_refl (a : float) : PrimFloat.is_nan a = false → PrimFloat.leb a a = true.
Proof.
  rewrite is_nan_false, FloatAxioms.leb_spec. intros H. unfold SFleb. by rewrite SFcompare_refl.
Qed.

Lemma leb_not_nan (a b : float) :
  PrimFloat.leb a b = true → PrimFloat.is_nan a = false ∧ PrimFloat.is_nan b = false.
Proof.
  rewrite FloatAxioms.leb_spec, !is_nan_false. unfold SFleb.
  destruct (Prim2SF a), (Prim2SF b); simpl; done.
Qed.

Lemma ltb_not_nan (a b : float) :
  PrimFloat.ltb a b = true → PrimFloat.is_nan a = false ∧ PrimFloat.is_nan b = false.
Proof. intros H. by apply leb_not_nan, ltb_leb. Qed.

Lemma not_ltb_leb (a b : float) :
  PrimFloat.is_nan a = false → PrimFloat.is_nan b = false →
  PrimFloat.ltb a b = false → PrimFloat.leb b a = true.
Proof.
  rewrite !is_nan_false, FloatAxioms.ltb_spec, FloatAxioms.leb_spec. unfold SFltb, SFleb. intros Ha Hb.
  rewrite (SFcompare_swap (Prim2SF a) (Prim2SF b)).
  destruct (SFcompare (Prim2SF a) (Prim2SF b)) as [[]|] eqn:E; simpl; try done.
  destruct (Prim2SF a), (Prim2SF b); done.
Qed.

Lemma ltb_irrefl (a : float) : PrimFloat.ltb a a = false.
Proof.
  rewrite FloatAxioms.ltb_spec. unfold SFltb.
  destruct (Prim2SF a) eqn:E; try done; by rewrite SFcompare_refl.
Qed.

(** [a < b] fails exactly when [b <= a], for numbers. *)
Lemma leb_not_ltb (a b : float) : PrimFloat.leb b a = true → PrimFloat.ltb a b = false.
Proof.
  rewrite FloatAxioms.ltb_spec, FloatAxioms.leb_spec. unfold SFltb, SFleb.
  rewrite (SFcompare_swap (Prim2SF a) (Prim2SF b)).
  by destruct (SFcompare (Prim2SF a) (Prim2SF b)) as [[]|].
Qed.

Lemma ltb_leb_trans (a b c : float) :
  PrimFloat.ltb a b = true → PrimFloat.leb b c = true → PrimFloat.ltb a c = true.
Proof.
  rewrite !FloatAxioms.ltb_spec, FloatAxioms.leb_spec. unfold SFltb, SFleb.
  destruct (Prim2SF a) as [[]|[]| |[] ma ea], (Prim2SF b) as [[]|[]| |[] mb eb],
    (Prim2SF c) as [[]|[]| |[] mc ec]; simpl; try done; order_cases.
Qed.

(** The running maximum of [reduce]: once [a < c], whatever did not
    exceed [a] does not exceed [c]. *)
Lemma ltb_false_step (a c p : float) :
  PrimFloat.ltb a p = false → PrimFloat.ltb a c = true → PrimFloat.ltb c p = false.
Proof.
  intros Hap Hac. destruct (PrimFloat.is_nan p) eqn:Hp.
  - apply is_nan_true in Hp as ->. rewrite FloatAxioms.ltb_spec. unfold SFltb.
    change (Prim2SF PrimFloat.nan) with S754_nan. by destruct (Prim2SF c).
  - destruct (ltb_not_nan _ _ Hac) as [Ha Hc].
    apply leb_not_ltb. apply (leb_trans p a c); [by apply not_ltb_leb|by apply ltb_leb].
Qed.

(** The running minimum of [reduce]: once [c < a], whatever was not
    below [a] is not below [c]. *)
Lemma ltb_false_down (a c p : float) :
  PrimFloat.ltb p a = false → PrimFloat.ltb c a = true → PrimFloat.ltb p c = false.
Proof.
  intros Hpa Hca. destruct (PrimFloat.is_nan p) eqn:Hp.
  - apply is_nan_true in Hp as ->. rewrite FloatAxioms.ltb_spec. unfold SFltb.
    change (Prim2SF PrimFloat.nan) with S754_nan. done.
  - destruct (ltb_not_nan _ _ Hca) as [Hc Ha].
    apply leb_not_ltb. apply (leb_trans c a p); [by apply ltb_leb|by apply not_ltb_leb].
Qed.

Lemma Math_min_spec (a b : float) :
  PrimFloat.is_nan a = false → PrimFloat.is_nan b = false →
  (Math_min a b = a ∨ Math_min a b = b) ∧
  PrimFloat.leb (Math_min a b) a = true ∧ PrimFloat.leb (Math_min a b) b = true.
Proof.
  intros Ha Hb. unfold Math_min. rewrite Ha, Hb. simpl.
  destruct (PrimFloat.ltb a b) eqn:Hab.
  { split; [by left|]. split; [by apply leb_refl|by apply ltb_leb]. }
  destruct (PrimFloat.ltb b a) eqn:Hba.
  { split; [by right|]. split; [by apply ltb_leb|by apply leb_refl]. }
  destruct (PrimFloat.get_sign a).
  - split; [by left|]. split; [by apply leb_refl|by apply not_ltb_leb].
  - split; [by right|]. split; [by apply not_ltb_leb|by apply leb_refl].
Qed.

Lemma Math_max_spec (a b : float) :
  PrimFloat.is_nan a = false → PrimFloat.is_nan b = false →
  (Math_max a b = a ∨ Math_max a b = b) ∧
  PrimFloat.leb a (Math_max a b) = true ∧ PrimFloat.leb b (Math_max a b) = true.
Proof.
  intros Ha Hb. unfold Math_max. rewrite Ha, Hb. simpl.
  destruct (PrimFloat.ltb a b) eqn:Hab.
  { split; [by right|]. split; [by apply ltb_leb|by apply leb_refl]. }
  destruct (PrimFloat.ltb b a) eqn:Hba.
  { split; [by left|]. split; [by apply leb_refl|by apply ltb_leb]. }
  destruct (PrimFloat.get_sign a).
  - split; [by right|]. split; [by apply not_ltb_leb|by apply leb_refl].
  - split; [by left|]. split; [by apply leb_refl|by apply not_ltb_leb].
Qed.

Lemma Math_min_nan (a b : float) :
  PrimFloat.is_nan a = true ∨ PrimFloat.is_nan b = true → Math_min a b = PrimFloat.nan.
Proof. unfold Math_min. by intros [-> | ->]; rewrite ?orb_true_r. Qed.

Lemma Math_max_nan (a b : float) :
  PrimFloat.is_nan a = true ∨ PrimFloat.is_nan b = true → Math_max a b = PrimFloat.nan.
Proof. unfold Math_max. by intros [-> | ->]; rewrite ?orb_true_r. Qed.

End FloatOrder.

(** * Further properties of the part analyzer *)

Section AnalyzerSteps.
Import JS PartAnalyzer.

Lemma mapM_Forall2 {A B} (f : A → Completion B) xs ys :
  mapM f xs = Normal ys → Forall2 (λ a b, f a = Normal b) xs ys.
Proof.
  revert ys. induction xs as [|a xs IH]; intros ys; simpl.
  - intros [= <-]. constructor.
  - destruct (f a) as [b|] eqn:Hb; simpl; [|done].
    destruct (mapM f xs) as [bs|]; simpl; [|done].
    intros [= <-]. constructor; [done|]. by apply IH.
Qed.

Lemma parseCoord_numeric what n coord value :
  parseCoord what n coord = Normal value →
  value = parseFloat coord ∧ PrimFloat.is_nan value = false.
Proof.
  unfold parseCoord. destruct (PrimFloat.is_nan (parseFloat coord)) eqn:E; [done|].
  by intros [= <-].
Qed.

Lemma mapM_parseCoord what n coords values :
  mapM (parseCoord what n) coords = Normal values →
  values = parseFloat <$> coords ∧ Forall (λ value, PrimFloat.is_nan value = false) values.
Proof.
  intros H%mapM_Forall2. induction H as [|c value cs vs Hc _ [-> IH]]; [done|].
  apply parseCoord_numeric in Hc as [-> Hn]. split; [done|]. by constructor.
Qed.

Lemma handleVertex_step coords n this this' :
  handleVertex coords n this = Normal this' → DataStep this this'.
Proof.
  unfold handleVertex. destruct (currentPart this) as [cur|] eqn:Hcur.
  2:{ intros [= <-]. constructor. }
  destruct (Nat.leb 3 (length coords)).
  2:{ intros [= <-]. constructor. }
  destruct (mapM _ coords) as [values|] eqn:Hv; simpl; [|done].
  apply mapM_parseCoord in Hv as [_ Hv].
  destruct values as [|a [|b [|c values]]]; try (intros [= <-]; apply Passes).
  intros [= <-]. apply Forall_cons in Hv as [Ha Hv]. apply Forall_cons in Hv as [Hb Hv].
  apply Forall_cons in Hv as [Hc _].
  apply (EditsPart this cur); [done|].
  by apply (PushesVertex cur {| x := a; y := b; z := c |}).
Qed.

Lemma handleNormal_step coords n this this' :
  handleNormal coords n this = Normal this' → DataStep this this'.
Proof.
  unfold handleNormal. destruct (currentPart this) as [cur|] eqn:Hcur.
  2:{ intros [= <-]. constructor. }
  destruct (Nat.leb 3 (length coords)).
  2:{ intros [= <-]. constructor. }
  destruct (mapM _ coords) as [values|] eqn:Hv; simpl; [|done].
  apply mapM_parseCoord in Hv as [_ Hv].
  destruct values as [|a [|b [|c values]]]; try (intros [= <-]; apply Passes).
  intros [= <-]. apply Forall_cons in Hv as [Ha Hv]. apply Forall_cons in Hv as [Hb Hv].
  apply Forall_cons in Hv as [Hc _].
  apply (EditsPart this cur); [done|].
  by apply (PushesNormal cur {| x := a; y := b; z := c |}).
Qed.

Lemma handleTextureCoord_step coords n this this' :
  handleTextureCoord coords n this = Normal this' → DataStep this this'.
Proof.
  unfold handleTextureCoord. destruct (currentPart this) as [cur|] eqn:Hcur.
  2:{ intros [= <-]. constructor. }
  destruct (Nat.leb 2 (length coords)).
  2:{ intros [= <-]. constructor. }
  destruct (mapM _ coords) as [values|] eqn:Hv; simpl; [|done].
  apply mapM_parseCoord in Hv as [_ Hv].
  destruct values as [|a [|b values]]; try (intros [= <-]; apply Passes).
  intros [= <-]. apply Forall_cons in Hv as [Ha Hv]. apply Forall_cons in Hv as [Hb _].
  apply (EditsPart this cur); [done|].
  by apply (PushesTextureCoord cur {| u := a; v := b |}).
Qed.

Lemma mapM_length {A B} (f : A → Completion B) xs ys :
  mapM f xs = Normal ys → length ys = length xs.
Proof. intros H%mapM_Forall2. symmetry. by eapply Forall2_length. Qed.

Lemma handleFace_step faceData n this this' :
  handleFace faceData n this = Normal this' → DataStep this this'.
Proof.
  unfold handleFace. destruct (currentPart this) as [cur|] eqn:Hcur.
  2:{ intros [= <-]. constructor. }
  destruct (Nat.leb 3 (length faceData)) eqn:Hlen.
  2:{ intros [= <-]. constructor. }
  destruct (mapM _ faceData) as [face|] eqn:Hf; simpl; [|done].
  intros [= <-]. apply (EditsPart this cur); [done|]. apply (PushesFace cur face).
  apply mapM_length in Hf. rewrite Hf. by apply Nat.leb_le.
Qed.

Lemma handleGroupName_step n this : LineStep this (handleGroupName n this).
Proof.
  unfold handleGroupName. destruct (currentPart this) as [cur|]; [|constructor 2].
  destruct (_ && _)%bool; [|do 2 constructor].
  rewrite handleObjectName_finalize. constructor 2.
Qed.

Lemma handleMaterialUsage_step m this : DataStep this (handleMaterialUsage m this).
Proof.
  unfold handleMaterialUsage. destruct (currentPart this) as [cur|] eqn:Hcur; [|constructor].
  apply (EditsPart this cur); [done|].
  apply (UsesMaterial cur).
  destruct m as [m|]; [|done]. by destruct (String.eqb_spec m "").
Qed.

(** A line whose first token is neither [o] nor [g] makes a data step. *)
Lemma dispatch_data tokens n this this' :
  String.eqb (List.hd "" tokens) "o" = false → String.eqb (List.hd "" tokens) "g" = false →
  dispatch tokens n this = Normal this' → DataStep this this'.
Proof.
  unfold dispatch. intros -> ->.
  repeat match goal with
         | |- context [if String.eqb ?a ?b then _ else _] => destruct (String.eqb a b)
         end;
    try (intros [= <-]);
    eauto using DataStep, handleMaterialUsage_step, handleVertex_step,
      handleNormal_step, handleTextureCoord_step, handleFace_step.
Qed.

Lemma dispatch_step tokens n this this' :
  dispatch tokens n this = Normal this' → LineStep this this'.
Proof.
  destruct (String.eqb (List.hd "" tokens) "o") eqn:Ho.
  { unfold dispatch. rewrite Ho. intros [= <-]. constructor 2. }
  destruct (String.eqb (List.hd "" tokens) "g") eqn:Hg.
  { unfold dispatch. rewrite Ho, Hg. intros [= <-]. apply handleGroupName_step. }
  intros H. constructor. by eapply dispatch_data.
Qed.

Lemma processLine_step line n this : LineStep this (processLine line n this).
Proof.
  unfold processLine. destruct (_ || _)%bool; [do 2 constructor|].
  destruct (dispatch _ n this) as [this'|] eqn:Hd; simpl; [|do 2 constructor].
  eauto using dispatch_step.
Qed.

(** A line that opens no part makes a data step. *)
Lemma processLine_data line n this :
  opensPart line = false → DataStep this (processLine line n this).
Proof.
  unfold opensPart, commandOf. intros [Ho Hg]%orb_false_iff.
  unfold processLine. destruct (_ || _)%bool; [constructor|].
  destruct (dispatch _ n this) as [this'|] eqn:Hd; simpl; [|constructor].
  by eapply dispatch_data.
Qed.

(** A property that every step keeps holds when the lines are read. *)
Lemma processLines_steps (P : PartAnalyzer → Prop) :
  (∀ this this', LineStep this this' → P this → P this') →
  ∀ lines n this, P this → P (processLines lines n this).
Proof.
  intros Hstep. induction lines as [|line lines IH]; intros n this HP; simpl; [done|].
  apply IH. eapply Hstep; [apply processLine_step|done].
Qed.

(** The returned array, for every text. *)
Lemma analyzeOBJ_text text this :
  (analyzeOBJ (JSString text) this).1 = parts (finalizePart (scan text)).
Proof.
  destruct (decide (text = "")) as [->|Hne]; [done|]. by apply analyzeOBJ_string.
Qed.

(** A property of the parts that the open part has too, and that the
    steps keep, holds of every returned part. *)
Lemma analyzeOBJ_parts (Q : Part → Prop) :
  (∀ n this, Q {| name := if String.eqb n "" then "Part_" ++ toString (length (parts this) + 1)
                          else n;
                  vertices := []; normals := []; textureCoords := []; faces := [];
                  material := None; boundingBox := None; center := None; size := None;
                  partNumber := generatePartNumber this;
                  type := detectPartType n |}) →
  (∀ cur, Q cur → Q (calculateBoundingBox cur)) →
  (∀ cur v, Q cur → Numeric v → Q (pushVertex v cur)) →
  (∀ cur n, Q cur → Numeric n → Q (pushNormal n cur)) →
  (∀ cur t, Q cur → PrimFloat.is_nan (u t) = false → PrimFloat.is_nan (v t) = false →
            Q (pushTextureCoord t cur)) →
  (∀ cur face, Q cur → (3 ≤ length face)%nat → Q (pushFace face cur)) →
  (∀ cur m, Q cur → m ≠ "" → Q (useMaterial m cur)) →
  ∀ objContent this, Forall Q (analyzeOBJ objContent this).1.
Proof.
  intros Hopen Hbox Hv Hn Ht Hf Hm objContent this.
  set (P := λ st : PartAnalyzer,
              Forall Q (parts st) ∧ ∀ c, currentPart st = Some c → Q c).
  assert (Hfin : ∀ st, P st → P (finalizePart st)).
  { intros st [HP HC].
    destruct (finalizePart_cases st) as [[-> _]|(cur & Hc & _ & ->)]; [done|].
    split; [|done]. simpl. destruct (validatePart _); simpl; [|done].
    apply Forall_app. split; [done|]. constructor; [|constructor]. by apply Hbox, HC. }
  destruct (analyzeOBJ_cases objContent this) as [->|(text & _ & ->)]; [constructor|].
  apply Hfin. unfold scan. apply (processLines_steps P); [|by split; [constructor|]].
  intros st st' Hstep HPst. destruct (Hfin st HPst) as [HP' _]. destruct HPst as [HP HC].
  destruct Hstep as [st' [|cur cur' Hc Hedit]|n].
  - done.
  - split; [done|]. simpl. intros c [= <-]. specialize (HC cur Hc).
    destruct Hedit; eauto.
  - rewrite handleObjectName_unfold. split; [done|]. simpl. intros c [= <-]. apply Hopen.
Qed.

End AnalyzerSteps.

Section AnalyzerShape.
Import JS PartAnalyzer.

Lemma calculateBoundingBox_lists cur :
  name (calculateBoundingBox cur) = name cur ∧
  type (calculateBoundingBox cur) = type cur ∧
  material (calculateBoundingBox cur) = material cur ∧
  vertices (calculateBoundingBox cur) = vertices cur ∧
  normals (calculateBoundingBox cur) = normals cur ∧
  textureCoords (calculateBoundingBox cur) = textureCoords cur ∧
  faces (calculateBoundingBox cur) = faces cur.
Proof. unfold calculateBoundingBox. destruct (vertices cur) eqn:E; repeat split; done. Qed.

Lemma detectPartType_named n : n ≠ "" → detectPartType n ≠ "Unknown".
Proof.
  intros Hn. unfold detectPartType. destruct (String.eqb_spec n ""); [done|].
  repeat match goal with
         | |- context [if ?b then _ else _] => destruct b
         end; discriminate.
Qed.

(** X2. No vertex, normal or texture coordinate recorded in a returned
    part is [NaN]: a vertex, normal or texture line is recorded only when
    every number on it parses. [Infinity] parses, and the centre that is
    derived from the vertices is not covered: between an [Infinity] and a
    [-Infinity] it is [NaN]. *)
Theorem recorded_coordinates_are_not_nan (objContent : JSValue) (this : PartAnalyzer) :
  Forall NumericPart (analyzeOBJ objContent this).1 ∧
  ∃ part c,
    (analyzeOBJ (objText ["o A"; "v Infinity 0 0"; "v -Infinity 1 1"; "f 1 2 2"])
       constructor).1 = [part] ∧
    center part = Some c ∧ PrimFloat.is_nan (x c) = true.
Proof.
  split; [|do 2 eexists; split; [vm_compute; reflexivity|split; reflexivity]].
  apply (analyzeOBJ_parts NumericPart).
  - intros n st. by repeat split; simpl; constructor.
  - intros cur. unfold NumericPart.
    destruct (calculateBoundingBox_lists cur) as (_ & _ & _ & -> & -> & -> & _). done.
  - intros cur w (Hv & Hn & Ht) Hw. split; [|done]. simpl.
    apply Forall_app. split; [done|]. by constructor.
  - intros cur w (Hv & Hn & Ht) Hw. split; [done|]. split; [|done]. simpl.
    apply Forall_app. split; [done|]. by constructor.
  - intros cur t (Hv & Hn & Ht) Hu Hv'. split; [done|]. split; [done|]. simpl.
    apply Forall_app. split; [done|]. by constructor.
  - by intros cur face H _.
  - by intros cur m H _.
Qed.

(** X6. Every face of a returned part has at least three corners, one
    for each token of its [f] line: a face line with fewer than three
    tokens is passed over. *)
Theorem returned_faces_are_polygons (objContent : JSValue) (this : PartAnalyzer) :
  Forall Polygons (analyzeOBJ objContent this).1.
Proof.
  apply (analyzeOBJ_parts Polygons); unfold Polygons.
  - intros n st. simpl. constructor.
  - intros cur. by destruct (calculateBoundingBox_lists cur) as (_ & _ & _ & _ & _ & _ & ->).
  - done.
  - done.
  - done.
  - intros cur face H Hlen. simpl. apply Forall_app. split; [done|]. by constructor.
  - done.
Qed.

(** X7. Every returned part has a name and a type that fit: a part
    opened by an [o] or [g] line without a name is called [Part_k] and
    typed ["Unknown"]; a part opened with a name keeps it and is typed by
    [detectPartType] of that name, never ["Unknown"]. The material of a
    part is unset or a non-empty name. *)
Theorem returned_parts_are_labelled (objContent : JSValue) (this : PartAnalyzer) :
  Forall Labelled (analyzeOBJ objContent this).1.
Proof.
  apply (analyzeOBJ_parts Labelled); unfold Labelled.
  - intros n st. simpl. destruct (String.eqb_spec n "") as [->|Hn].
    + split; [done|]. split; [done|]. left. split; [done|]. by eexists.
    + split; [done|]. split; [done|]. right. split; [|done]. by apply detectPartType_named.
  - intros cur. by destruct (calculateBoundingBox_lists cur) as (-> & -> & -> & _).
  - done.
  - done.
  - done.
  - done.
  - intros cur m (Hn & _ & Hty) Hm. simpl. split; [done|]. split; [|done]. by intros [= ->].
Qed.

End AnalyzerShape.

Section BoundingBoxes.
Import JS PartAnalyzer.

Lemma leb_infinity (a : float) : PrimFloat.leb PrimFloat.infinity a = true → a = PrimFloat.infinity.
Proof.
  rewrite FloatAxioms.leb_spec. intros H. apply Prim2SF_inj.
  change (Prim2SF PrimFloat.infinity) with (S754_infinity false) in *.
  unfold SFleb in H. by destruct (Prim2SF a) as [[]|[]| |[] m e].
Qed.

Lemma leb_neg_infinity (a : float) :
  PrimFloat.leb a PrimFloat.neg_infinity = true → a = PrimFloat.neg_infinity.
Proof.
  rewrite FloatAxioms.leb_spec. intros H. apply Prim2SF_inj.
  change (Prim2SF PrimFloat.neg_infinity) with (S754_infinity true) in *.
  unfold SFleb in H. by destruct (Prim2SF a) as [[]|[]| |[] m e].
Qed.

(** The running minimum of a loop over numbers. *)
Lemma running_min {A} (f : A → float) (vs : list A) (init : float) :
  PrimFloat.is_nan init = false → Forall (λ v, PrimFloat.is_nan (f v) = false) vs →
  let m := fold_left (λ a v, Math_min a (f v)) vs init in
  PrimFloat.is_nan m = false ∧ PrimFloat.leb m init = true ∧
  Forall (λ v, PrimFloat.leb m (f v) = true) vs ∧
  (m = init ∨ ∃ v, v ∈ vs ∧ f v = m).
Proof.
  revert init. induction vs as [|v vs IH]; intros init Hinit Hvs; simpl.
  { split; [done|]. split; [by apply leb_refl|]. split; [constructor|by left]. }
  apply Forall_cons in Hvs as [Hv Hvs].
  destruct (Math_min_spec init (f v) Hinit Hv) as (Hsel & Hle1 & Hle2).
  assert (Hnan : PrimFloat.is_nan (Math_min init (f v)) = false)
    by (destruct Hsel as [-> | ->]; done).
  destruct (IH _ Hnan Hvs) as (Hm & Hle & Hall & Hatt).
  split; [done|]. split; [by eapply leb_trans|]. split.
  - constructor; [by eapply leb_trans|done].
  - destruct Hatt as [Heq|(w & Hw & Hfw)].
    + destruct Hsel as [Hsel|Hsel].
      * left. congruence.
      * right. exists v. split; [by left|]. congruence.
    + right. exists w. split; [by right|done].
Qed.

Lemma running_max {A} (f : A → float) (vs : list A) (init : float) :
  PrimFloat.is_nan init = false → Forall (λ v, PrimFloat.is_nan (f v) = false) vs →
  let m := fold_left (λ a v, Math_max a (f v)) vs init in
  PrimFloat.is_nan m = false ∧ PrimFloat.leb init m = true ∧
  Forall (λ v, PrimFloat.leb (f v) m = true) vs ∧
  (m = init ∨ ∃ v, v ∈ vs ∧ f v = m).
Proof.
  revert init. induction vs as [|v vs IH]; intros init Hinit Hvs; simpl.
  { split; [done|]. split; [by apply leb_refl|]. split; [constructor|by left]. }
  apply Forall_cons in Hvs as [Hv Hvs].
  destruct (Math_max_spec init (f v) Hinit Hv) as (Hsel & Hle1 & Hle2).
  assert (Hnan : PrimFloat.is_nan (Math_max init (f v)) = false)
    by (destruct Hsel as [-> | ->]; done).
  destruct (IH _ Hnan Hvs) as (Hm & Hle & Hall & Hatt).
  split; [done|]. split; [by eapply leb_trans|]. split.
  - constructor; [by eapply leb_trans|done].
  - destruct Hatt as [Heq|(w & Hw & Hfw)].
    + destruct Hsel as [Hsel|Hsel].
      * left. congruence.
      * right. exists v. split; [by left|]. congruence.
    + right. exists w. split; [by right|done].
Qed.

(** The six bounds of the box of [calculateBoundingBox], loop by loop. *)
Lemma fold_boxStep vs b :
  fold_left boxStep vs b =
  {| min := {| x := fold_left (λ a v, Math_min a (x v)) vs (x (min b));
               y := fold_left (λ a v, Math_min a (y v)) vs (y (min b));
               z := fold_left (λ a v, Math_min a (z v)) vs (z (min b)) |};
     max := {| x := fold_left (λ a v, Math_max a (x v)) vs (x (max b));
               y := fold_left (λ a v, Math_max a (y v)) vs (y (max b));
               z := fold_left (λ a v, Math_max a (z v)) vs (z (max b)) |} |}.
Proof.
  revert b. induction vs as [|v vs IH]; intros b; simpl.
  - by destruct b as [[] []].
  - by rewrite IH.
Qed.

(** On a non-empty list the minimum that starts from [Infinity] is one of
    the numbers. *)
Lemma running_min_attained {A} (f : A → float) (vs : list A) :
  vs ≠ [] → Forall (λ v, PrimFloat.is_nan (f v) = false) vs →
  ∃ v, v ∈ vs ∧ f v = fold_left (λ a v, Math_min a (f v)) vs PrimFloat.infinity.
Proof.
  intros Hne Hvs.
  destruct (running_min f vs PrimFloat.infinity eq_refl Hvs) as (_ & _ & Hall & [Heq|Hatt]);
    [|done].
  destruct vs as [|v vs]; [done|]. exists v. split; [by left|].
  apply Forall_cons in Hall as [Hv _]. rewrite Heq in Hv |- *. by apply leb_infinity.
Qed.

Lemma running_max_attained {A} (f : A → float) (vs : list A) :
  vs ≠ [] → Forall (λ v, PrimFloat.is_nan (f v) = false) vs →
  ∃ v, v ∈ vs ∧ f v = fold_left (λ a v, Math_max a (f v)) vs PrimFloat.neg_infinity.
Proof.
  intros Hne Hvs.
  destruct (running_max f vs PrimFloat.neg_infinity eq_refl Hvs)
    as (_ & _ & Hall & [Heq|Hatt]); [|done].
  destruct vs as [|v vs]; [done|]. exists v. split; [by left|].
  apply Forall_cons in Hall as [Hv _]. rewrite Heq in Hv |- *. by apply leb_neg_infinity.
Qed.

Lemma Forall_Numeric vs :
  Forall Numeric vs →
  Forall (λ v, PrimFloat.is_nan (x v) = false) vs ∧
  Forall (λ v, PrimFloat.is_nan (y v) = false) vs ∧
  Forall (λ v, PrimFloat.is_nan (z v) = false) vs.
Proof. intros H. repeat split; eapply Forall_impl; try exact H; by intros v (? & ? & ?). Qed.

Lemma boxOf_tight vs :
  vs ≠ [] → Forall Numeric vs → Forall (Encloses (boxOf vs)) vs ∧ Touches (boxOf vs) vs.
Proof.
  intros Hne (Hx & Hy & Hz)%Forall_Numeric. unfold boxOf. rewrite fold_boxStep. simpl.
  destruct (running_min x vs PrimFloat.infinity eq_refl Hx) as (_ & _ & Hx1 & _).
  destruct (running_min y vs PrimFloat.infinity eq_refl Hy) as (_ & _ & Hy1 & _).
  destruct (running_min z vs PrimFloat.infinity eq_refl Hz) as (_ & _ & Hz1 & _).
  destruct (running_max x vs PrimFloat.neg_infinity eq_refl Hx) as (_ & _ & Hx2 & _).
  destruct (running_max y vs PrimFloat.neg_infinity eq_refl Hy) as (_ & _ & Hy2 & _).
  destruct (running_max z vs PrimFloat.neg_infinity eq_refl Hz) as (_ & _ & Hz2 & _).
  split.
  - apply Forall_forall. intros v Hv. unfold Encloses. simpl.
    rewrite Forall_forall in Hx1, Hy1, Hz1, Hx2, Hy2, Hz2. repeat split; auto.
  - unfold Touches. simpl.
    repeat split; auto using running_min_attained, running_max_attained.
Qed.

(** X1. For a part with vertices, none of whose coordinates is [NaN],
    [calculateBoundingBox] sets a box that contains every vertex, bounds
    included, and each of whose six bounds is the coordinate of some
    vertex: the smallest box around the vertices. *)
Theorem bounding_box_is_tight (part : Part) :
  vertices part ≠ [] → Forall Numeric (vertices part) →
  ∃ box, boundingBox (calculateBoundingBox part) = Some box ∧
         Forall (Encloses box) (vertices part) ∧ Touches box (vertices part).
Proof.
  intros Hne Hnum. exists (boxOf (vertices part)). split; [|by apply boxOf_tight].
  unfold calculateBoundingBox. by destruct (vertices part).
Qed.

End BoundingBoxes.

Section FlatParts.
Import JS PartAnalyzer.

Lemma bounding_box_is_tight_witness :
  ∃ box,
    boundingBox
      (calculateBoundingBox
         (pushVertex {| x := 1; y := 5; z := 0 |}
            (pushVertex {| x := -2; y := 7; z := 0 |} (emptyPart "pipe" "P-001")))) = Some box ∧
    Forall (Encloses box) [{| x := -2; y := 7; z := 0 |}; {| x := 1; y := 5; z := 0 |}] ∧
    Touches box [{| x := -2; y := 7; z := 0 |}; {| x := 1; y := 5; z := 0 |}].
Proof.
  apply (bounding_box_is_tight
           (pushVertex {| x := 1; y := 5; z := 0 |}
              (pushVertex {| x := -2; y := 7; z := 0 |} (emptyPart "pipe" "P-001")))).
  - simpl. discriminate.
  - simpl. repeat constructor.
Defined.

Lemma ltb_infinity (a : float) : PrimFloat.ltb PrimFloat.infinity a = false.
Proof.
  rewrite FloatAxioms.ltb_spec. change (Prim2SF PrimFloat.infinity) with (S754_infinity false).
  unfold SFltb. by destruct (Prim2SF a) as [[]|[]| |[] m e].
Qed.

Lemma ltb_neg_infinity (a : float) : PrimFloat.ltb a PrimFloat.neg_infinity = false.
Proof.
  rewrite FloatAxioms.ltb_spec.
  change (Prim2SF PrimFloat.neg_infinity) with (S754_infinity true).
  unfold SFltb. by destruct (Prim2SF a) as [[]|[]| |[] m e].
Qed.

Lemma Math_min_infinity (c : float) : Math_min PrimFloat.infinity c = c.
Proof.
  destruct (PrimFloat.is_nan c) eqn:Hc.
  - rewrite Math_min_nan by auto. symmetry. by apply is_nan_true.
  - unfold Math_min. rewrite Hc, ltb_infinity. simpl.
    by destruct (PrimFloat.ltb c PrimFloat.infinity).
Qed.

Lemma Math_max_neg_infinity (c : float) : Math_max PrimFloat.neg_infinity c = c.
Proof.
  destruct (PrimFloat.is_nan c) eqn:Hc.
  - rewrite Math_max_nan by auto. symmetry. by apply is_nan_true.
  - unfold Math_max. rewrite Hc, ltb_neg_infinity. simpl.
    by destruct (PrimFloat.ltb PrimFloat.neg_infinity c).
Qed.

Lemma Math_min_diag (c : float) : Math_min c c = c.
Proof.
  destruct (PrimFloat.is_nan c) eqn:Hc.
  - rewrite Math_min_nan by auto. symmetry. by apply is_nan_true.
  - unfold Math_min. rewrite Hc, ltb_irrefl. simpl. by destruct (PrimFloat.get_sign c).
Qed.

Lemma Math_max_diag (c : float) : Math_max c c = c.
Proof.
  destruct (PrimFloat.is_nan c) eqn:Hc.
  - rewrite Math_max_nan by auto. symmetry. by apply is_nan_true.
  - unfold Math_max. rewrite Hc, ltb_irrefl. simpl. by destruct (PrimFloat.get_sign c).
Qed.

Lemma running_min_constant {A} (f : A → float) (vs : list A) (c : float) :
  vs ≠ [] → Forall (λ v, f v = c) vs →
  fold_left (λ a v, Math_min a (f v)) vs PrimFloat.infinity = c.
Proof.
  intros Hne Hvs. destruct vs as [|v vs]; [done|].
  apply Forall_cons in Hvs as [Hv Hvs]. simpl. rewrite Hv, Math_min_infinity.
  clear Hne Hv. induction Hvs as [|w vs Hw _ IH]; [done|]. simpl.
  by rewrite Hw, Math_min_diag.
Qed.

Lemma running_max_constant {A} (f : A → float) (vs : list A) (c : float) :
  vs ≠ [] → Forall (λ v, f v = c) vs →
  fold_left (λ a v, Math_max a (f v)) vs PrimFloat.neg_infinity = c.
Proof.
  intros Hne Hvs. destruct vs as [|v vs]; [done|].
  apply Forall_cons in Hvs as [Hv Hvs]. simpl. rewrite Hv, Math_max_neg_infinity.
  clear Hne Hv. induction Hvs as [|w vs Hw _ IH]; [done|]. simpl.
  by rewrite Hw, Math_max_diag.
Qed.

(** [c - c > 0] is false for every number, [NaN] and the infinities
    included. *)
Lemma sub_diag_not_positive (c : float) : positive (PrimFloat.sub c c) = false.
Proof.
  unfold positive. rewrite FloatAxioms.ltb_spec, sub_spec.
  change (Prim2SF 0) with (S754_zero false). unfold SF64sub, SFsub.
  destruct (Prim2SF c) as [[]|[]| |s m e]; try done.
  by rewrite Z.sub_diag.
Qed.

Lemma validatePart_flat cur c :
  vertices cur ≠ [] →
  Forall (λ v, x v = c) (vertices cur) ∨ Forall (λ v, y v = c) (vertices cur) ∨
  Forall (λ v, z v = c) (vertices cur) →
  validatePart (calculateBoundingBox cur) = false.
Proof.
  intros Hne Hflat. unfold validatePart, calculateBoundingBox.
  destruct (vertices cur) as [|v0 vs] eqn:Hvs; [done|]. rewrite <- Hvs in *.
  cbn [size vertices faces boundingBox]. unfold boxOf. rewrite fold_boxStep.
  cbn [sizeOf x y z min max emptyBox].
  destruct Hflat as [H|[H|H]].
  - rewrite (running_min_constant x _ c), (running_max_constant x _ c) by done.
    rewrite sub_diag_not_positive. simpl. by rewrite andb_false_r.
  - rewrite (running_min_constant y _ c), (running_max_constant y _ c) by done.
    rewrite sub_diag_not_positive. simpl. by rewrite !andb_false_r.
  - rewrite (running_min_constant z _ c), (running_max_constant z _ c) by done.
    rewrite sub_diag_not_positive. by rewrite !andb_false_r.
Qed.

(** X3. A part all of whose vertices share one coordinate, on whichever
    axis, is never retained, whatever its faces: its extent on that axis
    is not positive. So a flat sheet parallel to two axes, a row of
    vertices along an axis and a part of a single vertex are dropped when
    the part is finalized, and the analyzer has no open part afterwards. *)
Theorem flat_parts_are_rejected (this : PartAnalyzer) (cur : Part) (c : float) :
  currentPart this = Some cur → vertices cur ≠ [] →
  Forall (λ v, x v = c) (vertices cur) ∨ Forall (λ v, y v = c) (vertices cur) ∨
  Forall (λ v, z v = c) (vertices cur) →
  finalizePart this = setCurrentPart None this.
Proof.
  intros Hcur Hne Hflat. unfold finalizePart. rewrite Hcur.
  destruct (vertices cur) as [|v0 vs] eqn:Hvs; [done|]. rewrite <- Hvs in *.
  by rewrite (validatePart_flat cur c).
Qed.

End FlatParts.

Section AnalyzerLines.
Import JS PartAnalyzer.

Lemma flat_parts_are_rejected_witness :
  currentPart (scan (objLines ["o Flange1"; "v 0 0 0"; "v 1 0 0"; "v 0 1 0"; "f 1 2 3"]))
  = Some flatTriangle ∧
  finalizePart (setCurrentPart (Some flatTriangle) constructor) = constructor.
Proof.
  split; [vm_compute; reflexivity|].
  apply (flat_parts_are_rejected (setCurrentPart (Some flatTriangle) constructor)
           flatTriangle 0%float).
  - reflexivity.
  - simpl. discriminate.
  - right. right. simpl. repeat constructor.
Defined.

(** The number of parts accepted or open. *)
Lemma dataStep_parts this this' :
  DataStep this this' →
  parts this' = parts this ∧ (currentPart this' = None ↔ currentPart this = None).
Proof. intros [|cur cur' Hcur _]; [done|]. simpl. split; [done|]. by rewrite Hcur. Qed.

Lemma finalizePart_length this :
  (length (parts (finalizePart this))
   ≤ length (parts this) + match currentPart this with Some _ => 1 | None => 0 end)%nat.
Proof.
  destruct (finalizePart_cases this) as [[-> _]|(cur & Hcur & _ & ->)]; [lia|].
  rewrite Hcur. simpl. destruct (validatePart _); simpl; [|lia].
  rewrite length_app. simpl. lia.
Qed.

Lemma processLine_length line n this :
  (length (parts (processLine line n this))
   + match currentPart (processLine line n this) with Some _ => 1 | None => 0 end
   ≤ length (parts this) + match currentPart this with Some _ => 1 | None => 0 end
     + (if opensPart line then 1 else 0))%nat.
Proof.
  destruct (opensPart line) eqn:Hopen.
  - destruct (processLine_step line n this) as [this' Hdata|name].
    + apply dataStep_parts in Hdata as [-> Hcur].
      destruct (currentPart this'), (currentPart this); lia.
    + rewrite handleObjectName_unfold. simpl. pose proof (finalizePart_length this). lia.
  - apply (processLine_data line n this) in Hopen. apply dataStep_parts in Hopen as [-> Hcur].
    destruct (currentPart (processLine line n this)), (currentPart this); try lia.
    discriminate (proj2 Hcur eq_refl).
Qed.

Lemma processLines_length lines n this :
  (length (parts (processLines lines n this))
   + match currentPart (processLines lines n this) with Some _ => 1 | None => 0 end
   ≤ length (parts this) + match currentPart this with Some _ => 1 | None => 0 end
     + length (List.filter opensPart lines))%nat.
Proof.
  revert n this. induction lines as [|line lines IH]; intros n this; simpl; [lia|].
  specialize (IH (S n) (processLine line (S n) this)).
  pose proof (processLine_length line (S n) this).
  destruct (opensPart line); simpl; lia.
Qed.

(** X4. [analyzeOBJ] returns at most as many parts as the text has [o]
    and [g] lines. In particular a text without such a line yields no
    part at all, whatever vertices and faces it lists: data lines are
    only recorded into a part that a name line has opened. *)
Theorem parts_need_name_lines (text : string) (this : PartAnalyzer) :
  (length (analyzeOBJ (JSString text) this).1
   ≤ length (List.filter opensPart (splitChar newline text)))%nat.
Proof.
  rewrite analyzeOBJ_text. unfold scan.
  pose proof (processLines_length (splitChar newline text) 0 constructor) as Hlen.
  pose proof (finalizePart_length (processLines (splitChar newline text) 0 constructor)).
  simpl in Hlen. lia.
Qed.

Lemma sameOutcome_bind {A B} (c1 c2 : Completion A) (k : A → Completion B) :
  sameOutcome c1 c2 → sameOutcome (bind c1 k) (bind c2 k).
Proof.
  destruct c1 as [a|], c2 as [b|]; simpl; try done. intros ->. by destruct (k b).
Qed.

Lemma sameOutcome_mapM {A B} (f g : A → Completion B) xs :
  (∀ a, sameOutcome (f a) (g a)) → sameOutcome (mapM f xs) (mapM g xs).
Proof.
  intros Hfg. induction xs as [|a xs IH]; simpl; [done|].
  specialize (Hfg a). destruct (f a) as [b|], (g a) as [b'|]; simpl in *; try done.
  subst b'. destruct (mapM f xs) as [bs|], (mapM g xs) as [bs'|]; simpl in *; try done.
  by subst bs'.
Qed.

Lemma sameOutcome_parseCoord what n m coord :
  sameOutcome (parseCoord what n coord) (parseCoord what m coord).
Proof. unfold parseCoord. by destruct (PrimFloat.is_nan _). Qed.

Lemma sameOutcome_parseFaceVertex n m vertexData :
  sameOutcome (parseFaceVertex n vertexData) (parseFaceVertex m vertexData).
Proof.
  unfold parseFaceVertex. cbv zeta. by destruct (_ || _)%bool.
Qed.

Lemma sameOutcome_refl {A} (c : Completion A) : sameOutcome c c.
Proof. by destruct c. Qed.

Lemma sameOutcome_dispatch tokens n m this :
  sameOutcome (dispatch tokens n this) (dispatch tokens m this).
Proof.
  unfold dispatch, handleVertex, handleNormal, handleTextureCoord, handleFace.
  repeat match goal with
         | |- context [if String.eqb ?a ?b then _ else _] => destruct (String.eqb a b)
         end;
    try apply sameOutcome_refl;
    (destruct (currentPart this); [|done]);
    match goal with |- context [if ?b then _ else _] => destruct b end; try done;
    apply sameOutcome_bind, sameOutcome_mapM;
    auto using sameOutcome_parseCoord, sameOutcome_parseFaceVertex.
Qed.

Lemma processLine_number line n m this : processLine line n this = processLine line m this.
Proof.
  unfold processLine. destruct (_ || _)%bool; [done|].
  pose proof (sameOutcome_dispatch (splitWhitespace (trim line)) n m this) as H.
  by destruct (dispatch _ n this), (dispatch _ m this).
Qed.

Lemma processLines_number lines n m this : processLines lines n this = processLines lines m this.
Proof.
  revert n m this. induction lines as [|line lines IH]; intros n m this; simpl; [done|].
  rewrite (processLine_number line (S n) (S m)). apply IH.
Qed.

Lemma processLines_app before after n this :
  processLines (before ++ after) n this
  = processLines after (n + length before) (processLines before n this).
Proof.
  revert n this. induction before as [|line before IH]; intros n this; simpl.
  - by rewrite Nat.add_0_r.
  - rewrite IH. f_equal. lia.
Qed.

Lemma processLine_skipped line n this : skipped line = true → processLine line n this = this.
Proof. unfold skipped, processLine. by intros ->. Qed.

Lemma splitChar_nonempty sep s : splitChar sep s ≠ [].
Proof.
  destruct s as [|c s]; simpl; [done|]. destruct (Ascii.eqb c sep); [done|].
  by destruct (splitChar sep s).
Qed.

Lemma splitChar_app sep a b :
  splitChar sep (a ++ String sep b) = (splitChar sep a ++ splitChar sep b)%list.
Proof.
  induction a as [|c a IH]; simpl.
  - by rewrite Ascii.eqb_refl.
  - destruct (Ascii.eqb c sep); [by rewrite IH|]. rewrite IH.
    pose proof (splitChar_nonempty sep a). by destruct (splitChar sep a).
Qed.

(** The lines of a text that is given line by line. *)
Lemma splitChar_objLines lines :
  Forall oneLine lines → lines ≠ [] → splitChar newline (objLines lines) = lines.
Proof.
  unfold objLines. induction 1 as [|line lines Hline Hlines IH]; [done|]. intros _.
  destruct lines as [|next lines]; [done|].
  change (String.concat (String newline "") (line :: next :: lines))
    with (line ++ String newline (String.concat (String newline "") (next :: lines))).
  rewrite splitChar_app, Hline, IH by done. done.
Qed.

Lemma scan_objLines lines :
  Forall oneLine lines → scan (objLines lines) = processLines lines 0 PartAnalyzer.constructor.
Proof.
  intros Hlines. unfold scan. destruct lines as [|line lines]; [done|].
  by rewrite splitChar_objLines.
Qed.

(** X5. A blank line or a comment line, put anywhere into a text that is
    given line by line, does not change the parts that [analyzeOBJ]
    returns: such a line is passed over, and the number of a line only
    goes into the message of an error that is caught. *)
Theorem skipped_lines_do_not_matter (before after : list string) (line : string)
    (this : PartAnalyzer) :
  skipped line = true → Forall oneLine (before ++ line :: after) →
  (analyzeOBJ (objText (before ++ line :: after)) this).1
  = (analyzeOBJ (objText (before ++ after)) this).1.
Proof.
  intros Hskip Hlines. unfold objText. rewrite !analyzeOBJ_text.
  assert (Hlines' : Forall oneLine (before ++ after)).
  { apply Forall_app in Hlines as [Hb Ha]. apply Forall_cons in Ha as [_ Ha].
    by apply Forall_app. }
  rewrite !scan_objLines by done. rewrite !processLines_app. simpl.
  rewrite processLine_skipped by done.
  by rewrite (processLines_number after (S (length before)) (length before)).
Qed.

Lemma skipped_lines_do_not_matter_witness :
  (analyzeOBJ (objText (["o A"; "v 0 0 0"] ++ "  # a comment" :: ["v 1 0 0"])) constructor).1
  = (analyzeOBJ (objText (["o A"; "v 0 0 0"] ++ ["v 1 0 0"])) constructor).1.
Proof.
  apply (skipped_lines_do_not_matter ["o A"; "v 0 0 0"] ["v 1 0 0"] "  # a comment").
  - reflexivity.
  - repeat constructor.
Defined.

End AnalyzerLines.

Section AnalyzerTokens.
Import JS PartAnalyzer.

Lemma mapM_parseCoord_numbers what n coords :
  Forall (λ coord, PrimFloat.is_nan (parseFloat coord) = false) coords →
  mapM (parseCoord what n) coords = Normal (parseFloat <$> coords).
Proof.
  induction 1 as [|coord coords Hc _ IH]; simpl; [done|].
  unfold parseCoord at 1. rewrite Hc. simpl. by rewrite IH.
Qed.

(** X8. With a part open, a [v] line is recorded whole or not at all.
    When every token after the [v] is a number and there are at least
    three, the first three become the new vertex, the others being read
    but not kept; when one token, whichever, is not a number the line
    fails and the analyzer is as before the line; with fewer than three
    tokens the line is passed over. *)
Theorem vertex_line_is_all_or_nothing (coords : list string) (n : nat)
    (this : PartAnalyzer) (cur : Part) :
  currentPart this = Some cur →
  (∀ a b c rest, coords = a :: b :: c :: rest →
     Forall (λ coord, PrimFloat.is_nan (parseFloat coord) = false) coords →
     handleVertex coords n this
     = Normal (setCurrentPart
                 (Some (pushVertex {| x := parseFloat a; y := parseFloat b; z := parseFloat c |}
                          cur)) this)) ∧
  (Exists (λ coord, PrimFloat.is_nan (parseFloat coord) = true) coords →
   tryCatch (handleVertex coords n this) this = this) ∧
  (length coords < 3 → handleVertex coords n this = Normal this).
Proof.
  intros Hcur. unfold handleVertex. rewrite Hcur. split; [|split].
  - intros a b c rest -> Hnum. rewrite mapM_parseCoord_numbers by done. reflexivity.
  - intros Hbad. destruct (Nat.leb 3 (length coords)); [|done].
    destruct (mapM_throws (parseCoord "vertex" n) coords) as [m ->]; [|done].
    eapply Exists_impl; [exact Hbad|]. intros coord Hc. unfold parseCoord. rewrite Hc.
    by eexists.
  - intros Hlen. by destruct (Nat.leb_spec 3 (length coords)); [lia|].
Qed.

Lemma vertex_line_is_all_or_nothing_witness :
  handleVertex ["1"; "2.5"; "-3e1"; "1.0"] 4 (setCurrentPart (Some flatTriangle) constructor)
  = Normal (setCurrentPart
              (Some (pushVertex {| x := 1; y := 2.5; z := -30 |} flatTriangle)) constructor) ∧
  tryCatch (handleVertex ["1"; "2"; "3"; "w"] 4 (setCurrentPart (Some flatTriangle) constructor))
    (setCurrentPart (Some flatTriangle) constructor)
  = setCurrentPart (Some flatTriangle) constructor.
Proof.
  destruct (vertex_line_is_all_or_nothing ["1"; "2.5"; "-3e1"; "1.0"] 4
              (setCurrentPart (Some flatTriangle) constructor) flatTriangle eq_refl)
    as (Hall & _ & _).
  destruct (vertex_line_is_all_or_nothing ["1"; "2"; "3"; "w"] 4
              (setCurrentPart (Some flatTriangle) constructor) flatTriangle eq_refl)
    as (_ & Hnone & _).
  split.
  - apply (Hall "1" "2.5" "-3e1" ["1.0"] eq_refl). repeat constructor.
  - apply Hnone. do 3 apply Exists_cons_tl. apply Exists_cons_hd. reflexivity.
Defined.

Lemma toLowerCase_empty s : toLowerCase s = "" ↔ s = "".
Proof. by destruct s. Qed.

(** X9. The type of a part does not depend on the case of the letters of
    its name: two names that are equal once their letters are lowered
    get the same type. *)
Theorem part_type_ignores_case (a b : string) :
  toLowerCase a = toLowerCase b → detectPartType a = detectPartType b.
Proof.
  intros Hab. unfold detectPartType. rewrite <- Hab.
  destruct (String.eqb_spec a "") as [->|Ha], (String.eqb_spec b "") as [->|Hb]; try done.
  - simpl in Hab. symmetry in Hab. destruct (Hb (proj1 (toLowerCase_empty b) Hab)).
  - simpl in Hab. destruct (Ha (proj1 (toLowerCase_empty a) Hab)).
Qed.

Lemma part_type_ignores_case_witness :
  detectPartType "BEND Pipe" = detectPartType "bend pipe" ∧ detectPartType "bend pipe" = "Pipe".
Proof.
  split; [|reflexivity]. apply (part_type_ignores_case "BEND Pipe" "bend pipe"). reflexivity.
Defined.

End AnalyzerTokens.

Section AnalyzerQueries.
Import JS PartAnalyzer.

Lemma totalCount_insert (counts : gmap string nat) k :
  totalCount (<[k := default 0 (counts !! k) + 1]> counts) = totalCount counts + 1.
Proof.
  unfold totalCount. destruct (counts !! k) as [n|] eqn:Hk; simpl.
  - rewrite <- (insert_delete_eq counts k (n + 1)) at 1.
    rewrite map_fold_insert_L; [|intros; lia|by rewrite lookup_delete_eq].
    rewrite (map_fold_delete_L _ _ k n counts); [lia|intros; lia|done].
  - rewrite map_fold_insert_L; [lia|intros; lia|done].
Qed.

(** The loop of [getStatistics] over parts that have a size. *)
Lemma foldM_countPart (ps : list Part) (stats : Statistics) :
  Forall (λ p, is_Some (size p)) ps →
  ∃ stats',
    foldM countPart stats ps = Normal stats' ∧
    totalParts stats' = totalParts stats ∧
    totalVertices stats' = totalVertices stats + sum_list ((λ p, length (vertices p)) <$> ps) ∧
    totalFaces stats' = totalFaces stats + sum_list ((λ p, length (faces p)) <$> ps) ∧
    (∀ t, default 0 (partTypes stats' !! t)
          = default 0 (partTypes stats !! t)
            + length (List.filter (λ part, String.eqb (type part) t) ps)) ∧
    ((∀ t, partTypes stats !! t ≠ Some 0) → (∀ t, partTypes stats' !! t ≠ Some 0)) ∧
    totalCount (partTypes stats') = totalCount (partTypes stats) + length ps ∧
    rangeMin (sizeRange stats')
    = fold_left (λ a p, Math_min a (partExtent p)) ps (rangeMin (sizeRange stats)) ∧
    rangeMax (sizeRange stats')
    = fold_left (λ a p, Math_max a (partExtent p)) ps (rangeMax (sizeRange stats)).
Proof.
  intros Hps. revert stats. induction Hps as [|p ps [s Hs] _ IH]; intros stats.
  { exists stats. simpl. repeat split; intros; try done; lia. }
  cbn [foldM]. unfold countPart at 1. rewrite Hs. cbn [bind].
  edestruct IH as (stats' & -> & HP & HV & HF & HT & HZ & HC & Hmin & Hmax).
  exists stats'. split; [done|]. split; [by rewrite HP|].
  cbn [totalVertices totalFaces partTypes sizeRange rangeMin rangeMax] in *.
  rewrite !fmap_cons.
  repeat match goal with
         | |- context [sum_list (?a :: ?l)] => change (sum_list (a :: l)) with (a + sum_list l)
         end.
  cbn [length List.filter].
  split; [lia|]. split; [lia|]. split; [|split; [|split; [|split]]].
  - intros t. rewrite HT. destruct (String.eqb_spec (type p) t) as [->|Hne].
    + rewrite lookup_insert_eq. simpl. lia.
    + by rewrite lookup_insert_ne.
  - intros Hz. apply HZ. intros t. destruct (decide (type p = t)) as [->|Hne].
    + rewrite lookup_insert_eq. intros [= H]. lia.
    + by rewrite lookup_insert_ne.
  - rewrite HC, totalCount_insert. lia.
  - rewrite Hmin. cbn [fold_left]. unfold partExtent at 3. by rewrite Hs.
  - rewrite Hmax. cbn [fold_left]. unfold partExtent at 3. by rewrite Hs.
Qed.

(** X10. For an analyzer all of whose parts have a size, as every part
    accepted by [finalizePart] has, [getStatistics] completes and reports
    the number of parts, the sums of their vertices and of their faces,
    and for each type the number of parts that [findPartsByType] returns
    for it. A type without parts has no entry, and the counts of the
    types add up to the number of parts. *)
Theorem statistics_count_the_parts (this : PartAnalyzer) :
  Forall (λ p, is_Some (size p)) (parts this) →
  ∃ stats,
    getStatistics this = Normal stats ∧
    totalParts stats = length (parts this) ∧
    totalVertices stats = sum_list ((λ p, length (vertices p)) <$> parts this) ∧
    totalFaces stats = sum_list ((λ p, length (faces p)) <$> parts this) ∧
    (∀ t, default 0 (partTypes stats !! t) = length (findPartsByType t this)) ∧
    (∀ t, partTypes stats !! t ≠ Some 0) ∧
    totalCount (partTypes stats) = length (parts this).
Proof.
  intros Hps. unfold getStatistics.
  edestruct (foldM_countPart (parts this)) as (stats & -> & HP & HV & HF & HT & HZ & HC & _);
    [exact Hps|].
  exists stats. split; [done|]. split; [done|]. split; [done|]. split; [done|].
  split; [|split].
  - intros t. rewrite HT. simpl. by rewrite lookup_empty.
  - apply HZ. intros t. simpl. by rewrite lookup_empty.
  - rewrite HC. simpl. done.
Qed.

Lemma Retained_extent p :
  Retained p →
  is_Some (size p) ∧ PrimFloat.is_nan (partExtent p) = false ∧ positive (partExtent p) = true.
Proof.
  intros (_ & _ & _ & s & Hs & _ & Hx & Hy & Hz). unfold partExtent. rewrite Hs.
  split; [by eexists|]. unfold largestExtent, positive in *.
  destruct (ltb_not_nan _ _ Hx) as [_ Hnx]. destruct (ltb_not_nan _ _ Hy) as [_ Hny].
  destruct (ltb_not_nan _ _ Hz) as [_ Hnz].
  destruct (Math_max_spec (x s) (y s) Hnx Hny) as (Hsel & Hle & _).
  assert (Hnxy : PrimFloat.is_nan (Math_max (x s) (y s)) = false)
    by (destruct Hsel as [-> | ->]; done).
  destruct (Math_max_spec (Math_max (x s) (y s)) (z s) Hnxy Hnz) as (Hsel' & _ & Hle').
  split; [by destruct Hsel' as [-> | ->]|]. by eapply ltb_leb_trans.
Qed.

(** X11. For an analyzer whose parts are retained parts, [sizeRange] of
    [getStatistics] bounds the largest extent of every part, and each of
    the two bounds is the largest extent of some part; without parts it
    is [Infinity] to [0]. *)
Theorem statistics_size_range (this : PartAnalyzer) :
  Forall Retained (parts this) →
  ∃ stats,
    getStatistics this = Normal stats ∧
    (∀ p, p ∈ parts this →
          PrimFloat.leb (rangeMin (sizeRange stats)) (partExtent p) = true ∧
          PrimFloat.leb (partExtent p) (rangeMax (sizeRange stats)) = true) ∧
    (parts this ≠ [] →
     (∃ p, p ∈ parts this ∧ partExtent p = rangeMin (sizeRange stats)) ∧
     (∃ p, p ∈ parts this ∧ partExtent p = rangeMax (sizeRange stats))) ∧
    (parts this = [] →
     sizeRange stats = {| rangeMin := PrimFloat.infinity; rangeMax := 0 |}).
Proof.
  intros Hps. unfold getStatistics.
  assert (Hsized : Forall (λ p, is_Some (size p)) (parts this)).
  { eapply Forall_impl; [exact Hps|]. by intros p (? & _)%Retained_extent. }
  assert (Hnum : Forall (λ p, PrimFloat.is_nan (partExtent p) = false) (parts this)).
  { eapply Forall_impl; [exact Hps|]. by intros p (_ & ? & _)%Retained_extent. }
  edestruct (foldM_countPart (parts this)) as (stats & -> & _ & _ & _ & _ & _ & _ & Hmin & Hmax);
    [exact Hsized|].
  simpl in Hmin, Hmax. exists stats. split; [done|].
  destruct (running_min partExtent (parts this) PrimFloat.infinity eq_refl Hnum)
    as (_ & _ & Hlo & _).
  destruct (running_max partExtent (parts this) 0%float eq_refl Hnum)
    as (_ & Hzero & Hhi & Hatt).
  rewrite <- Hmin in Hlo. rewrite <- Hmax in Hzero, Hhi, Hatt.
  rewrite Forall_forall in Hlo, Hhi. split; [by auto|]. split.
  - intros Hne. split.
    + rewrite Hmin. by apply running_min_attained.
    + destruct Hatt as [Heq|Hatt]; [|done].
      destruct (parts this) as [|p ps] eqn:Hparts; [done|].
      apply Forall_cons in Hps as [(_ & _ & Hpos)%Retained_extent _].
      assert (Hp : PrimFloat.leb (partExtent p) 0 = true).
      { rewrite <- Heq. apply Hhi. by left. }
      apply leb_not_ltb in Hp. unfold positive in Hpos. congruence.
  - intros Hnil. rewrite Hnil in Hmin, Hmax. simpl in Hmin, Hmax.
    destruct stats as [? ? ? ? [lo hi]]. simpl in *. by subst.
Qed.

Lemma twoSolids_retained : Forall Retained (parts twoSolids).
Proof.
  unfold twoSolids.
  set (text := objText _).
  replace (parts (analyzeOBJ text constructor).2) with (analyzeOBJ text constructor).1
    by (vm_compute; reflexivity).
  destruct (analyzeOBJ_cases text constructor) as [->|(t & _ & ->)]; [constructor|].
  apply finalizePart_retained, scan_retained.
Qed.

Lemma twoSolids_sized : Forall (λ p, is_Some (size p)) (parts twoSolids).
Proof.
  eapply Forall_impl; [apply twoSolids_retained|].
  intros p (_ & _ & _ & s & -> & _). by eexists.
Qed.

Lemma statistics_count_the_parts_witness :
  ∃ stats,
    getStatistics twoSolids = Normal stats ∧
    totalParts stats = length (parts twoSolids) ∧
    totalVertices stats = sum_list ((λ p, length (vertices p)) <$> parts twoSolids) ∧
    totalFaces stats = sum_list ((λ p, length (faces p)) <$> parts twoSolids) ∧
    (∀ t, default 0 (partTypes stats !! t) = length (findPartsByType t twoSolids)) ∧
    (∀ t, partTypes stats !! t ≠ Some 0) ∧
    totalCount (partTypes stats) = length (parts twoSolids).
Proof.
  apply (statistics_count_the_parts twoSolids). exact twoSolids_sized.
Defined.

Lemma statistics_size_range_witness :
  ∃ stats,
    getStatistics twoSolids = Normal stats ∧
    (∀ p, p ∈ parts twoSolids →
          PrimFloat.leb (rangeMin (sizeRange stats)) (partExtent p) = true ∧
          PrimFloat.leb (partExtent p) (rangeMax (sizeRange stats)) = true) ∧
    (parts twoSolids ≠ [] →
     (∃ p, p ∈ parts twoSolids ∧ partExtent p = rangeMin (sizeRange stats)) ∧
     (∃ p, p ∈ parts twoSolids ∧ partExtent p = rangeMax (sizeRange stats))) ∧
    (parts twoSolids = [] →
     sizeRange stats = {| rangeMin := PrimFloat.infinity; rangeMax := 0 |}).
Proof.
  apply (statistics_size_range twoSolids). exact twoSolids_retained.
Defined.

(** The loop of [reduce] in [getLargestPart]: the part it ends with is
    the first one or one of the others, and no part exceeds it. *)
Lemma foldM_largerOf (rest : list Part) (first : Part) :
  is_Some (size first) → Forall (λ p, is_Some (size p)) rest →
  ∃ r, foldM largerOf first rest = Normal r ∧ (r = first ∨ r ∈ rest) ∧
       (∀ v, PrimFloat.ltb (partVolume first) v = false →
             PrimFloat.ltb (partVolume r) v = false) ∧
       Forall (λ q, PrimFloat.ltb (partVolume r) (partVolume q) = false) rest.
Proof.
  intros Hfirst Hrest. revert first Hfirst.
  induction Hrest as [|p rest [sp Hp] _ IH]; intros first [sf Hf].
  { exists first. simpl. repeat split; auto. }
  cbn [foldM]. unfold largerOf at 1, volume. rewrite Hp, Hf. cbn [bind].
  set (next := if PrimFloat.ltb _ _ then p else first).
  assert (Hnext : is_Some (size next)) by (subst next; destruct (PrimFloat.ltb _ _); eauto).
  assert (Hstep : ∀ v, PrimFloat.ltb (partVolume first) v = false →
                       PrimFloat.ltb (partVolume next) v = false).
  { intros v Hv. subst next.
    destruct (PrimFloat.ltb _ _) eqn:Hlt; [|done].
    apply (ltb_false_step (partVolume first)); [done|]. unfold partVolume. by rewrite Hp, Hf. }
  assert (Hp' : PrimFloat.ltb (partVolume next) (partVolume p) = false).
  { subst next. destruct (PrimFloat.ltb _ _) eqn:Hlt; [apply ltb_irrefl|].
    unfold partVolume. by rewrite Hp, Hf. }
  destruct (IH next Hnext) as (r & -> & Hin & Hmono & Hall).
  exists r. split; [done|]. split; [|split].
  - destruct Hin as [->|Hin]; [|by right; right].
    subst next. destruct (PrimFloat.ltb _ _); [right; by left|by left].
  - intros v Hv. by apply Hmono, Hstep.
  - constructor; [by apply Hmono|done].
Qed.

Lemma foldM_smallerOf (rest : list Part) (first : Part) :
  is_Some (size first) → Forall (λ p, is_Some (size p)) rest →
  ∃ r, foldM smallerOf first rest = Normal r ∧ (r = first ∨ r ∈ rest) ∧
       (∀ v, PrimFloat.ltb v (partVolume first) = false →
             PrimFloat.ltb v (partVolume r) = false) ∧
       Forall (λ q, PrimFloat.ltb (partVolume q) (partVolume r) = false) rest.
Proof.
  intros Hfirst Hrest. revert first Hfirst.
  induction Hrest as [|p rest [sp Hp] _ IH]; intros first [sf Hf].
  { exists first. simpl. repeat split; auto. }
  cbn [foldM]. unfold smallerOf at 1, volume. rewrite Hp, Hf. cbn [bind].
  set (next := if PrimFloat.ltb _ _ then p else first).
  assert (Hnext : is_Some (size next)) by (subst next; destruct (PrimFloat.ltb _ _); eauto).
  assert (Hstep : ∀ v, PrimFloat.ltb v (partVolume first) = false →
                       PrimFloat.ltb v (partVolume next) = false).
  { intros v Hv. subst next.
    destruct (PrimFloat.ltb _ _) eqn:Hlt; [|done].
    apply (ltb_false_down (partVolume first)); [done|]. unfold partVolume. by rewrite Hp, Hf. }
  assert (Hp' : PrimFloat.ltb (partVolume p) (partVolume next) = false).
  { subst next. destruct (PrimFloat.ltb _ _) eqn:Hlt; [apply ltb_irrefl|].
    unfold partVolume. by rewrite Hp, Hf. }
  destruct (IH next Hnext) as (r & -> & Hin & Hmono & Hall).
  exists r. split; [done|]. split; [|split].
  - destruct Hin as [->|Hin]; [|by right; right].
    subst next. destruct (PrimFloat.ltb _ _); [right; by left|by left].
  - intros v Hv. by apply Hmono, Hstep.
  - constructor; [by apply Hmono|done].
Qed.

(** X12. For an analyzer all of whose parts have a size, [getLargestPart]
    returns [null] exactly when there is no part; otherwise it returns
    one of the parts, and no part has a volume above the volume of that
    part. *)
Theorem largest_part_is_not_exceeded (this : PartAnalyzer) :
  Forall (λ p, is_Some (size p)) (parts this) →
  (parts this = [] ∧ getLargestPart this = Normal None) ∨
  ∃ largest,
    getLargestPart this = Normal (Some largest) ∧ largest ∈ parts this ∧
    ∀ p, p ∈ parts this → PrimFloat.ltb (partVolume largest) (partVolume p) = false.
Proof.
  intros Hps. unfold getLargestPart. destruct (parts this) as [|first rest]; [by left|].
  right. apply Forall_cons in Hps as [Hfirst Hrest].
  destruct (foldM_largerOf rest first Hfirst Hrest) as (r & -> & Hin & Hmono & Hall).
  exists r. split; [done|]. split.
  - destruct Hin as [->|Hin]; [by left|by right].
  - intros p [->|Hp]%elem_of_cons.
    + apply Hmono, ltb_irrefl.
    + rewrite Forall_forall in Hall. by apply Hall.
Qed.

Lemma largest_part_is_not_exceeded_witness :
  (parts twoSolids = [] ∧ getLargestPart twoSolids = Normal None) ∨
  ∃ largest,
    getLargestPart twoSolids = Normal (Some largest) ∧ largest ∈ parts twoSolids ∧
    ∀ p, p ∈ parts twoSolids → PrimFloat.ltb (partVolume largest) (partVolume p) = false.
Proof.
  apply (largest_part_is_not_exceeded twoSolids). exact twoSolids_sized.
Defined.

(** X13. For an analyzer all of whose parts have a size, [getSmallestPart]
    returns [null] exactly when there is no part; otherwise it returns
    one of the parts, and no part has a volume below the volume of that
    part. *)
Theorem smallest_part_is_not_undercut (this : PartAnalyzer) :
  Forall (λ p, is_Some (size p)) (parts this) →
  (parts this = [] ∧ getSmallestPart this = Normal None) ∨
  ∃ smallest,
    getSmallestPart this = Normal (Some smallest) ∧ smallest ∈ parts this ∧
    ∀ p, p ∈ parts this → PrimFloat.ltb (partVolume p) (partVolume smallest) = false.
Proof.
  intros Hps. unfold getSmallestPart. destruct (parts this) as [|first rest]; [by left|].
  right. apply Forall_cons in Hps as [Hfirst Hrest].
  destruct (foldM_smallerOf rest first Hfirst Hrest) as (r & -> & Hin & Hmono & Hall).
  exists r. split; [done|]. split.
  - destruct Hin as [->|Hin]; [by left|by right].
  - intros p [->|Hp]%elem_of_cons.
    + apply Hmono, ltb_irrefl.
    + rewrite Forall_forall in Hall. by apply Hall.
Qed.

Lemma smallest_part_is_not_undercut_witness :
  (parts twoSolids = [] ∧ getSmallestPart twoSolids = Normal None) ∨
  ∃ smallest,
    getSmallestPart twoSolids = Normal (Some smallest) ∧ smallest ∈ parts twoSolids ∧
    ∀ p, p ∈ parts twoSolids → PrimFloat.ltb (partVolume p) (partVolume smallest) = false.
Proof.
  apply (smallest_part_is_not_undercut twoSolids). exact twoSolids_sized.
Defined.

End AnalyzerQueries.

(** * Further properties of the part manager *)

Section ManagerBookkeeping.
Import PartManager.

(** ** Calls that only touch the meshes, the materials and the sections *)

Lemma forOf_bookkeeping {V} (m : gmap string V) body st :
  (∀ i x r, bookkeeping (body i x r) = bookkeeping r) →
  bookkeeping (forOf m body st) = bookkeeping st.
Proof.
  intros Hbody. apply (forOf_invariant (λ r, bookkeeping r = bookkeeping st)); [|done].
  intros i x r _ <-. apply Hbody.
Qed.

Lemma maintainSectioningIsolation_bookkeeping st :
  bookkeeping (maintainSectioningIsolation st) = bookkeeping st.
Proof.
  destruct (sectionedPartId st) as [sectioned|] eqn:Hs.
  - by rewrite (maintainSectioningIsolation_sectioned st sectioned).
  - by rewrite maintainSectioningIsolation_unsectioned.
Qed.

Lemma forceSectioningMode_bookkeeping i st :
  bookkeeping (forceSectioningMode i st) = bookkeeping st.
Proof. by rewrite forceSectioningMode_meshes. Qed.

Lemma update_bookkeeping st : bookkeeping (update st) = bookkeeping st.
Proof.
  unfold update. cbv zeta.
  repeat case_match;
    rewrite ?forceSectioningMode_bookkeeping; apply maintainSectioningIsolation_bookkeeping.
Qed.

Lemma switchToOrangeHighlight_bookkeeping i st :
  bookkeeping (switchToOrangeHighlight i st) = bookkeeping st.
Proof. unfold switchToOrangeHighlight. by repeat case_match. Qed.

Lemma switchToGreenHighlight_bookkeeping i st :
  bookkeeping (switchToGreenHighlight i st) = bookkeeping st.
Proof. unfold switchToGreenHighlight. by repeat case_match. Qed.

Lemma toggleCuttingPlaneVisibility_bookkeeping show st :
  bookkeeping (toggleCuttingPlaneVisibility show st) = bookkeeping st.
Proof. unfold toggleCuttingPlaneVisibility. by repeat case_match. Qed.

Lemma addClippingPlane_bookkeeping i plane st :
  bookkeeping (addClippingPlane i plane st) = bookkeeping st.
Proof. unfold addClippingPlane. by repeat case_match. Qed.

Lemma removePlanes_bookkeeping i st : bookkeeping (removePlanes i st) = bookkeeping st.
Proof. unfold removePlanes. cbv zeta. by repeat case_match. Qed.

Lemma removeSectionPlane_bookkeeping i st :
  bookkeeping (removeSectionPlane i st) = bookkeeping st.
Proof.
  rewrite removeSectionPlane_result. cbv zeta.
  destruct (bool_decide _); rewrite ?switchToGreenHighlight_bookkeeping;
    apply (removePlanes_bookkeeping i st).
Qed.

Lemma isolatedFor_bookkeeping i st : bookkeeping (isolatedFor i st) = bookkeeping st.
Proof.
  unfold isolatedFor. rewrite forceSectioningMode_bookkeeping, forOf_bookkeeping.
  - apply removeSectionPlane_bookkeeping.
  - intros id x r. by destruct (bool_decide _).
Qed.

Lemma createSectionPlane_bookkeeping i ty position st :
  bookkeeping (createSectionPlane i ty position st).2 = bookkeeping st.
Proof.
  destruct (parts st !! i) as [p|] eqn:Hp;
    [|by rewrite createSectionPlane_unregistered by auto].
  destruct (partMeshes st !! i) as [m|] eqn:Hm;
    [|by rewrite createSectionPlane_unregistered by auto].
  rewrite createSectionPlane_registered by eauto. cbv zeta.
  rewrite addClippingPlane_bookkeeping, switchToOrangeHighlight_bookkeeping.
  apply (isolatedFor_bookkeeping i st).
Qed.

Lemma updateSectionPlane_bookkeeping i position st :
  bookkeeping (updateSectionPlane i position st) = bookkeeping st.
Proof. unfold updateSectionPlane. by repeat case_match. Qed.

End ManagerBookkeeping.

Section ManagerFlags.
Import PartManager.

(** Writing an entry that looks the same through [obs]. *)
Lemma fmap_insert_same {B} (obs : RegisteredPart → B) (m : gmap string RegisteredPart) i p p' :
  m !! i = Some p → obs p' = obs p → obs <$> <[i := p']> m = obs <$> m.
Proof.
  intros Hi Hobs. rewrite fmap_insert. apply insert_id. rewrite lookup_fmap, Hi. simpl.
  by rewrite Hobs.
Qed.

Lemma parts_of_bookkeeping st st' : bookkeeping st' = bookkeeping st → parts st' = parts st.
Proof. unfold bookkeeping. by intros [= -> _ _ _ _ _ _]. Qed.

Lemma forOf_flags {B V} (obs : RegisteredPart → B) (m : gmap string V) body st :
  (∀ i x r, obs <$> parts (body i x r) = obs <$> parts r) →
  obs <$> parts (forOf m body st) = obs <$> parts st.
Proof.
  intros Hbody. apply (forOf_invariant (λ r, obs <$> parts r = obs <$> parts st)); [|done].
  intros i x r _ <-. apply Hbody.
Qed.

Lemma maintainSectioningIsolation_parts st :
  parts (maintainSectioningIsolation st) = parts st.
Proof. apply parts_of_bookkeeping, maintainSectioningIsolation_bookkeeping. Qed.

Lemma highlightPart_flags {B} (obs : RegisteredPart → B) i st :
  (∀ p b, obs (setIsHighlighted b p) = obs p) →
  obs <$> parts (highlightPart i st) = obs <$> parts st.
Proof.
  intros Hobs. unfold highlightPart. repeat case_match; try done. simpl.
  by eapply fmap_insert_same.
Qed.

Lemma removeHighlight_flags {B} (obs : RegisteredPart → B) i st :
  (∀ p b, obs (setIsHighlighted b p) = obs p) →
  obs <$> parts (removeHighlight i st) = obs <$> parts st.
Proof.
  intros Hobs. unfold removeHighlight. cbv zeta. repeat case_match; try done; simpl;
    by eapply fmap_insert_same.
Qed.

Lemma hidePart_flags {B} (obs : RegisteredPart → B) i st :
  (∀ p b, obs (setIsHidden b p) = obs p) →
  obs <$> parts (hidePart i st) = obs <$> parts st.
Proof.
  intros Hobs. unfold hidePart. repeat case_match; try done. simpl.
  by eapply fmap_insert_same.
Qed.

Lemma showPart_flags {B} (obs : RegisteredPart → B) i st :
  (∀ p b, obs (setIsHidden b p) = obs p) →
  obs <$> parts (showPart i st) = obs <$> parts st.
Proof.
  intros Hobs. unfold showPart. repeat case_match; try done. simpl.
  by eapply fmap_insert_same.
Qed.

Lemma togglePartVisibility_flags {B} (obs : RegisteredPart → B) i st :
  (∀ p b, obs (setIsHidden b p) = obs p) →
  obs <$> parts (togglePartVisibility i st) = obs <$> parts st.
Proof.
  intros Hobs. unfold togglePartVisibility.
  repeat case_match; auto using hidePart_flags, showPart_flags.
Qed.

Lemma isolatePart_flags {B} (obs : RegisteredPart → B) i st :
  (∀ p b, obs (setIsHidden b p) = obs p) →
  obs <$> parts (isolatePart i st) = obs <$> parts st.
Proof.
  intros Hobs. unfold isolatePart. cbv zeta. rewrite forOf_flags; [done|].
  intros id x r. destruct (bool_decide _); auto using hidePart_flags, showPart_flags.
Qed.

Lemma showAllParts_flags {B} (obs : RegisteredPart → B) st :
  (∀ p b, obs (setIsHidden b p) = obs p) →
  obs <$> parts (showAllParts st) = obs <$> parts st.
Proof.
  intros Hobs. unfold showAllParts. destruct (preIsolationState st); apply forOf_flags.
  - intros id x r. destruct x; auto using hidePart_flags, showPart_flags.
  - auto using showPart_flags.
Qed.

Lemma deselectPart_flags {B} (obs : RegisteredPart → B) i st :
  (∀ p b, obs (setIsSelected b p) = obs p) →
  (∀ p b, obs (setIsHighlighted b p) = obs p) →
  obs <$> parts (deselectPart i st) = obs <$> parts st.
Proof.
  intros Hsel Hhigh. unfold deselectPart. cbv zeta. rewrite maintainSectioningIsolation_parts.
  destruct (parts st !! i) as [p|] eqn:Hp; [|done].
  rewrite removeHighlight_flags by done. simpl. by eapply fmap_insert_same.
Qed.

Lemma selectPart_flags {B} (obs : RegisteredPart → B) i st :
  (∀ p b, obs (setIsSelected b p) = obs p) →
  (∀ p b, obs (setIsHighlighted b p) = obs p) →
  obs <$> parts (selectPart i st) = obs <$> parts st.
Proof.
  intros Hsel Hhigh. unfold selectPart. cbv zeta. rewrite maintainSectioningIsolation_parts.
  set (this1 := match selectedPart st with Some _ => _ | None => _ end).
  assert (H1 : obs <$> parts this1 = obs <$> parts st).
  { subst this1. repeat case_match; auto using deselectPart_flags. }
  rewrite <- H1. simpl. destruct (parts this1 !! i) as [p|] eqn:Hp; [|done].
  rewrite highlightPart_flags by done. simpl. by eapply fmap_insert_same.
Qed.

Lemma deselectAllParts_flags {B} (obs : RegisteredPart → B) st :
  (∀ p b, obs (setIsSelected b p) = obs p) →
  (∀ p b, obs (setIsHighlighted b p) = obs p) →
  obs <$> parts (deselectAllParts st) = obs <$> parts st.
Proof.
  intros Hsel Hhigh. unfold deselectAllParts. cbv zeta.
  rewrite maintainSectioningIsolation_parts.
  repeat case_match; try done. simpl. by apply deselectPart_flags.
Qed.

Lemma handleClick_flags {B} (obs : RegisteredPart → B) hit st :
  (∀ p b, obs (setIsSelected b p) = obs p) →
  (∀ p b, obs (setIsHighlighted b p) = obs p) →
  obs <$> parts (handleClick hit st) = obs <$> parts st.
Proof.
  intros Hsel Hhigh. unfold handleClick.
  repeat case_match; auto using selectPart_flags, deselectAllParts_flags.
Qed.

(** What no operation changes of an entry: whatever the three flags do
    not show. *)
Lemma step_flags {B} (obs : RegisteredPart → B) op st :
  (∀ p b, obs (setIsSelected b p) = obs p) →
  (∀ p b, obs (setIsHighlighted b p) = obs p) →
  (∀ p b, obs (setIsHidden b p) = obs p) →
  obs <$> parts (step op st) = obs <$> parts st.
Proof.
  intros Hsel Hhigh Hhid.
  destruct op as [i|i| |hit|i|i|i|i|i|i| |v|v|i ty position|i position|i| ]; cbn [step];
    auto using selectPart_flags, deselectPart_flags, deselectAllParts_flags,
      highlightPart_flags, removeHighlight_flags, hidePart_flags, showPart_flags,
      togglePartVisibility_flags, isolatePart_flags, showAllParts_flags.
  - by apply handleClick_flags.
  - by rewrite (parts_of_bookkeeping _ _ (toggleCuttingPlaneVisibility_bookkeeping v st)).
  - by rewrite (parts_of_bookkeeping _ _ (createSectionPlane_bookkeeping i ty position st)).
  - by rewrite (parts_of_bookkeeping _ _ (updateSectionPlane_bookkeeping i position st)).
  - by rewrite (parts_of_bookkeeping _ _ (removeSectionPlane_bookkeeping i st)).
  - by rewrite (parts_of_bookkeeping _ _ (update_bookkeeping st)).
Qed.

Lemma run_flags {B} (obs : RegisteredPart → B) ops st :
  (∀ p b, obs (setIsSelected b p) = obs p) →
  (∀ p b, obs (setIsHighlighted b p) = obs p) →
  (∀ p b, obs (setIsHidden b p) = obs p) →
  obs <$> parts (run ops st) = obs <$> parts st.
Proof.
  intros Hsel Hhigh Hhid. unfold run. revert st.
  induction ops as [|op ops IH]; intros st; simpl; [done|].
  rewrite IH. by apply step_flags.
Qed.

End ManagerFlags.

Section ManagerRegistry.
Import PartManager.

Lemma shelf_of_bookkeeping st st' :
  bookkeeping st' = bookkeeping st →
  dom (partLabels st') = dom (partLabels st) ∧ originalMaterials st' = originalMaterials st.
Proof. unfold bookkeeping. by intros [= _ _ _ _ -> -> _]. Qed.

Lemma forOf_shelf {V} (m : gmap string V) body st :
  (∀ i x r, dom (partLabels (body i x r)) = dom (partLabels r) ∧
            originalMaterials (body i x r) = originalMaterials r) →
  dom (partLabels (forOf m body st)) = dom (partLabels st) ∧
  originalMaterials (forOf m body st) = originalMaterials st.
Proof.
  intros Hbody.
  apply (forOf_invariant (λ r, dom (partLabels r) = dom (partLabels st) ∧
                               originalMaterials r = originalMaterials st)); [|done].
  intros i x r _ [<- <-]. apply Hbody.
Qed.

Lemma highlightPart_shelf i st :
  dom (partLabels (highlightPart i st)) = dom (partLabels st) ∧
  originalMaterials (highlightPart i st) = originalMaterials st.
Proof. unfold highlightPart. by repeat case_match. Qed.

Lemma removeHighlight_shelf i st :
  dom (partLabels (removeHighlight i st)) = dom (partLabels st) ∧
  originalMaterials (removeHighlight i st) = originalMaterials st.
Proof. unfold removeHighlight. cbv zeta. by repeat case_match. Qed.

Lemma hidePart_shelf i st :
  dom (partLabels (hidePart i st)) = dom (partLabels st) ∧
  originalMaterials (hidePart i st) = originalMaterials st.
Proof. unfold hidePart. repeat case_match; try done. simpl. by rewrite dom_alter_L. Qed.

Lemma showPart_shelf i st :
  dom (partLabels (showPart i st)) = dom (partLabels st) ∧
  originalMaterials (showPart i st) = originalMaterials st.
Proof. unfold showPart. repeat case_match; try done. simpl. by rewrite dom_alter_L. Qed.

Lemma maintainSectioningIsolation_shelf st :
  dom (partLabels (maintainSectioningIsolation st)) = dom (partLabels st) ∧
  originalMaterials (maintainSectioningIsolation st) = originalMaterials st.
Proof. apply shelf_of_bookkeeping, maintainSectioningIsolation_bookkeeping. Qed.

Lemma deselectPart_shelf i st :
  dom (partLabels (deselectPart i st)) = dom (partLabels st) ∧
  originalMaterials (deselectPart i st) = originalMaterials st.
Proof.
  unfold deselectPart. cbv zeta.
  destruct (maintainSectioningIsolation_shelf
              (match parts st !! i with
               | Some part => removeHighlight i
                                (setParts (<[i:=setIsSelected false part]> (parts st)) st)
               | None => st
               end)) as [-> ->].
  destruct (parts st !! i) as [p|]; [|done].
  by destruct (removeHighlight_shelf i (setParts (<[i:=setIsSelected false p]> (parts st)) st))
    as [-> ->].
Qed.

Lemma selectPart_shelf i st :
  dom (partLabels (selectPart i st)) = dom (partLabels st) ∧
  originalMaterials (selectPart i st) = originalMaterials st.
Proof.
  unfold selectPart. cbv zeta.
  set (this1 := match selectedPart st with Some _ => _ | None => _ end).
  assert (H1 : dom (partLabels this1) = dom (partLabels st) ∧
               originalMaterials this1 = originalMaterials st).
  { subst this1. repeat case_match; auto using deselectPart_shelf. }
  destruct H1 as [<- <-].
  match goal with |- context [maintainSectioningIsolation ?s] =>
    destruct (maintainSectioningIsolation_shelf s) as [-> ->] end.
  simpl. destruct (parts this1 !! i) as [p|]; [|done].
  match goal with |- context [highlightPart i ?s] =>
    by destruct (highlightPart_shelf i s) as [-> ->] end.
Qed.

Lemma deselectAllParts_shelf st :
  dom (partLabels (deselectAllParts st)) = dom (partLabels st) ∧
  originalMaterials (deselectAllParts st) = originalMaterials st.
Proof.
  unfold deselectAllParts. cbv zeta.
  match goal with |- context [maintainSectioningIsolation ?s] =>
    destruct (maintainSectioningIsolation_shelf s) as [-> ->] end.
  repeat case_match; try done. simpl. apply deselectPart_shelf.
Qed.

Lemma togglePartLabels_shelf visible st :
  dom (partLabels (togglePartLabels visible st)) = dom (partLabels st) ∧
  originalMaterials (togglePartLabels visible st) = originalMaterials st.
Proof.
  unfold togglePartLabels. simpl. split; [|done].
  apply (forOf_invariant (λ labels, dom labels = dom (partLabels st))); [|done].
  intros i x r _ <-. apply dom_alter_L.
Qed.

Lemma step_shelf op st :
  dom (partLabels (step op st)) = dom (partLabels st) ∧
  originalMaterials (step op st) = originalMaterials st.
Proof.
  destruct op as [i|i| |hit|i|i|i|i|i|i| |v|v|i ty position|i position|i| ]; cbn [step];
    auto using selectPart_shelf, deselectPart_shelf, deselectAllParts_shelf,
      highlightPart_shelf, removeHighlight_shelf, hidePart_shelf, showPart_shelf,
      togglePartLabels_shelf, shelf_of_bookkeeping, toggleCuttingPlaneVisibility_bookkeeping,
      createSectionPlane_bookkeeping, updateSectionPlane_bookkeeping,
      removeSectionPlane_bookkeeping, update_bookkeeping.
  - unfold handleClick. repeat case_match; auto using selectPart_shelf, deselectAllParts_shelf.
  - unfold togglePartVisibility. repeat case_match; auto using hidePart_shelf, showPart_shelf.
  - unfold isolatePart. cbv zeta.
    match goal with
    | |- dom (partLabels (forOf ?m ?body ?s)) = _ ∧ _ =>
        destruct (forOf_shelf m body s) as [-> ->]; [|done]
    end.
    intros id x r. destruct (bool_decide _); auto using hidePart_shelf, showPart_shelf.
  - unfold showAllParts. destruct (preIsolationState st); apply forOf_shelf.
    + intros id x r. destruct x; auto using hidePart_shelf, showPart_shelf.
    + auto using showPart_shelf.
Qed.

Lemma step_meshKeys op st : dom (partMeshes (step op st)) = dom (partMeshes st).
Proof.
  destruct (betweenTicks op) eqn:Hop; [by destruct (step_Kept op st Hop) as (_ & ? & _)|].
  destruct op as [| | | | | | | | | | | | |i ty position| |i| ]; try done; cbn [step].
  - destruct (parts st !! i) as [p|] eqn:Hp;
      [|by rewrite createSectionPlane_unregistered by auto].
    destruct (partMeshes st !! i) as [m|] eqn:Hm;
      [|by rewrite createSectionPlane_unregistered by auto].
    by destruct (createSectionPlane_fields i ty position st) as (_ & ? & _); eauto.
  - by destruct (removeSectionPlane_fields i st) as (_ & _ & _ & _ & ? & _).
Qed.

(** X14. No operation registers, unregisters or rewrites a part. After
    any sequence of the operations of the manager the part data and the
    [originalVisible] flag stored under every id are the ones stored
    before, the same ids have a part, a mesh and a label, and
    [originalMaterials] names the same material under every id: only
    [addPart] and [dispose] change the registry. What the operations
    write into the material objects is not part of the statement. *)
Theorem operations_keep_the_registry (ops : list Op) (st : PartManager) :
  (λ p, (data p, originalVisible p)) <$> parts (run ops st)
  = (λ p, (data p, originalVisible p)) <$> parts st ∧
  dom (parts (run ops st)) = dom (parts st) ∧
  dom (partMeshes (run ops st)) = dom (partMeshes st) ∧
  dom (partLabels (run ops st)) = dom (partLabels st) ∧
  originalMaterials (run ops st) = originalMaterials st.
Proof.
  assert (Hdata : (λ p, (data p, originalVisible p)) <$> parts (run ops st)
                  = (λ p, (data p, originalVisible p)) <$> parts st)
    by (by apply run_flags).
  split; [done|]. split.
  { by rewrite <- (dom_fmap_L (λ p, (data p, originalVisible p)) (parts (run ops st))),
      Hdata, dom_fmap_L. }
  unfold run. revert st Hdata. induction ops as [|op ops IH]; intros st _; simpl; [done|].
  destruct (IH (step op st)) as (-> & -> & ->); [by apply run_flags|].
  destruct (step_shelf op st) as [-> ->]. by rewrite step_meshKeys.
Qed.

End ManagerRegistry.

Section ManagerSets.
Import PartManager.

(** ** The fields that a call leaves alone *)

Lemma of_bookkeeping st st' :
  bookkeeping st' = bookkeeping st →
  parts st' = parts st ∧ selectedPart st' = selectedPart st ∧
  visibleParts st' = visibleParts st ∧ highlightedParts st' = highlightedParts st ∧
  preIsolationState st' = preIsolationState st.
Proof. unfold bookkeeping. by intros [= -> -> -> -> _ _ ->]. Qed.

Lemma maintainSectioningIsolation_fields st :
  parts (maintainSectioningIsolation st) = parts st ∧
  selectedPart (maintainSectioningIsolation st) = selectedPart st ∧
  visibleParts (maintainSectioningIsolation st) = visibleParts st ∧
  highlightedParts (maintainSectioningIsolation st) = highlightedParts st ∧
  preIsolationState (maintainSectioningIsolation st) = preIsolationState st.
Proof. apply of_bookkeeping, maintainSectioningIsolation_bookkeeping. Qed.

Lemma highlightPart_fields i st :
  selectedPart (highlightPart i st) = selectedPart st ∧
  visibleParts (highlightPart i st) = visibleParts st ∧
  preIsolationState (highlightPart i st) = preIsolationState st.
Proof. unfold highlightPart. by repeat case_match. Qed.

Lemma removeHighlight_fields i st :
  selectedPart (removeHighlight i st) = selectedPart st ∧
  visibleParts (removeHighlight i st) = visibleParts st ∧
  preIsolationState (removeHighlight i st) = preIsolationState st.
Proof. unfold removeHighlight. cbv zeta. by repeat case_match. Qed.

Lemma deselectPart_fields i st :
  selectedPart (deselectPart i st) = selectedPart st ∧
  visibleParts (deselectPart i st) = visibleParts st ∧
  preIsolationState (deselectPart i st) = preIsolationState st.
Proof.
  unfold deselectPart. cbv zeta.
  match goal with |- context [maintainSectioningIsolation ?s] =>
    destruct (maintainSectioningIsolation_fields s) as (_ & -> & -> & _ & ->) end.
  destruct (parts st !! i) as [p|]; [|done].
  match goal with |- context [removeHighlight i ?s] =>
    by destruct (removeHighlight_fields i s) as (-> & -> & ->) end.
Qed.

Lemma selectPart_fields i st :
  selectedPart (selectPart i st) = Some i ∧
  visibleParts (selectPart i st) = visibleParts st ∧
  preIsolationState (selectPart i st) = preIsolationState st.
Proof.
  unfold selectPart. cbv zeta.
  set (this1 := match selectedPart st with Some _ => _ | None => _ end).
  assert (H1 : visibleParts this1 = visibleParts st ∧
               preIsolationState this1 = preIsolationState st).
  { subst this1. repeat case_match; try done; by destruct (deselectPart_fields s st) as (_ & ? & ?). }
  destruct H1 as [<- <-].
  match goal with |- context [maintainSectioningIsolation ?s] =>
    destruct (maintainSectioningIsolation_fields s) as (_ & -> & -> & _ & ->) end.
  simpl. destruct (parts this1 !! i) as [p|]; [|done].
  match goal with |- context [highlightPart i ?s] =>
    by destruct (highlightPart_fields i s) as (-> & -> & ->) end.
Qed.

Lemma deselectAllParts_fields st :
  visibleParts (deselectAllParts st) = visibleParts st ∧
  preIsolationState (deselectAllParts st) = preIsolationState st.
Proof.
  unfold deselectAllParts. cbv zeta.
  match goal with |- context [maintainSectioningIsolation ?s] =>
    destruct (maintainSectioningIsolation_fields s) as (_ & _ & -> & _ & ->) end.
  repeat case_match; try done. simpl. by destruct (deselectPart_fields s st) as (_ & ? & ?).
Qed.

Lemma handleClick_fields hit st :
  visibleParts (handleClick hit st) = visibleParts st ∧
  preIsolationState (handleClick hit st) = preIsolationState st.
Proof.
  unfold handleClick. repeat case_match; try done.
  - by destruct (selectPart_fields s st) as (_ & ? & ?).
  - apply deselectAllParts_fields.
Qed.

Lemma applyHidden_fields h i st :
  selectedPart (applyHidden h i st) = selectedPart st ∧
  highlightedParts (applyHidden h i st) = highlightedParts st.
Proof. unfold applyHidden, hidePart, showPart. by repeat case_match. Qed.

Lemma forOf_applyHidden_fields {V} (h : string → V → bool) (m : gmap string V) st :
  selectedPart (forOf m (λ id x st', applyHidden (h id x) id st') st) = selectedPart st ∧
  highlightedParts (forOf m (λ id x st', applyHidden (h id x) id st') st) = highlightedParts st.
Proof.
  apply (forOf_invariant (λ r, selectedPart r = selectedPart st ∧
                               highlightedParts r = highlightedParts st)); [|done].
  intros i x r _ [<- <-]. apply applyHidden_fields.
Qed.

Lemma togglePartVisibility_fields i st :
  selectedPart (togglePartVisibility i st) = selectedPart st ∧
  highlightedParts (togglePartVisibility i st) = highlightedParts st.
Proof.
  unfold togglePartVisibility. destruct (parts st !! i) as [p|]; [|done].
  destruct (isHidden p); [apply (applyHidden_fields false)|apply (applyHidden_fields true)].
Qed.

Lemma isolatePart_fields i st :
  selectedPart (isolatePart i st) = selectedPart st ∧
  highlightedParts (isolatePart i st) = highlightedParts st.
Proof.
  unfold isolatePart. cbv zeta.
  match goal with
  | |- selectedPart (forOf ?m _ ?s) = _ ∧ _ =>
      exact (forOf_applyHidden_fields (λ id _, bool_decide (id ≠ i)) m s)
  end.
Qed.

Lemma showAllParts_fields st :
  selectedPart (showAllParts st) = selectedPart st ∧
  highlightedParts (showAllParts st) = highlightedParts st.
Proof.
  unfold showAllParts. destruct (preIsolationState st).
  - apply (forOf_applyHidden_fields (λ _ wasHidden, wasHidden)).
  - apply (forOf_applyHidden_fields (λ _ _, false)).
Qed.

(** ** The set of the visible parts *)

Lemma lookup_of_flags {B} (obs : RegisteredPart → B) st st' id :
  obs <$> parts st' = obs <$> parts st →
  obs <$> parts st' !! id = obs <$> parts st !! id.
Proof. intros H. by rewrite <- !lookup_fmap, H. Qed.

Lemma VisibleRecorded_same st st' :
  visibleParts st' = visibleParts st → isHidden <$> parts st' = isHidden <$> parts st →
  VisibleRecorded st → VisibleRecorded st'.
Proof.
  intros Hset Hflags Hst id. rewrite Hset, (Hst id).
  pose proof (lookup_of_flags isHidden st st' id Hflags) as Hid.
  destruct (parts st' !! id) as [p'|], (parts st !! id) as [p|]; simplify_eq/=.
  - split; intros (q & [= <-] & Hq); eexists; (split; [done|congruence]).
  - split; by intros (q & ? & _).
Qed.

Lemma applyHidden_VisibleRecorded h i st :
  VisibleRecorded st → VisibleRecorded (applyHidden h i st).
Proof.
  intros Hst.
  destruct (parts st !! i) as [p|] eqn:Hp;
    [|by rewrite applyHidden_unregistered by auto].
  destruct (partMeshes st !! i) as [m|] eqn:Hm;
    [|by rewrite applyHidden_unregistered by auto].
  intros id. specialize (Hst id).
  assert (Hparts : parts (applyHidden h i st) = <[i := setIsHidden h p]> (parts st)).
  { by destruct (applyHidden_parts h i st p m Hp Hm). }
  assert (Hset : visibleParts (applyHidden h i st)
                 = if h then visibleParts st ∖ {[i]} else {[i]} ∪ visibleParts st).
  { unfold applyHidden, hidePart, showPart. rewrite Hp, Hm. by destruct h. }
  rewrite Hparts, Hset. destruct (decide (id = i)) as [->|Hne].
  - rewrite lookup_insert_eq. destruct h.
    + split; [set_solver|]. by intros (q & [= <-] & Hq).
    + split; [by eexists|set_solver].
  - rewrite lookup_insert_ne by done. destruct h; set_solver.
Qed.

Lemma forOf_applyHidden_VisibleRecorded {V} (h : string → V → bool) (m : gmap string V) st :
  VisibleRecorded st → VisibleRecorded (forOf m (λ id x st', applyHidden (h id x) id st') st).
Proof.
  intros Hst. apply (forOf_invariant VisibleRecorded); [|done].
  intros i x r _ Hr. by apply applyHidden_VisibleRecorded.
Qed.

Lemma step_VisibleRecorded op st : VisibleRecorded st → VisibleRecorded (step op st).
Proof.
  intros Hst.
  assert (Hbook : ∀ st', bookkeeping st' = bookkeeping st → VisibleRecorded st').
  { intros st'. unfold bookkeeping. intros [= Hp _ Hv _ _ _ _].
    apply (VisibleRecorded_same st); [done|by rewrite Hp|done]. }
  destruct op as [i|i| |hit|i|i|i|i|i|i| |v|v|i ty position|i position|i| ]; cbn [step];
    auto using toggleCuttingPlaneVisibility_bookkeeping, createSectionPlane_bookkeeping,
      updateSectionPlane_bookkeeping, removeSectionPlane_bookkeeping, update_bookkeeping.
  - apply (VisibleRecorded_same st); [|by apply selectPart_flags|done].
    by destruct (selectPart_fields i st) as (_ & ? & _).
  - apply (VisibleRecorded_same st); [|by apply deselectPart_flags|done].
    by destruct (deselectPart_fields i st) as (_ & ? & _).
  - apply (VisibleRecorded_same st); [|by apply deselectAllParts_flags|done].
    by destruct (deselectAllParts_fields st) as (? & _).
  - apply (VisibleRecorded_same st); [| |done].
    + by destruct (handleClick_fields hit st) as (? & _).
    + by apply handleClick_flags.
  - apply (VisibleRecorded_same st); [|by apply highlightPart_flags|done].
    by destruct (highlightPart_fields i st) as (_ & ? & _).
  - apply (VisibleRecorded_same st); [|by apply removeHighlight_flags|done].
    by destruct (removeHighlight_fields i st) as (_ & ? & _).
  - by apply (applyHidden_VisibleRecorded true).
  - by apply (applyHidden_VisibleRecorded false).
  - unfold togglePartVisibility. destruct (parts st !! i) as [p|]; [|done].
    destruct (isHidden p);
      [by apply (applyHidden_VisibleRecorded false)|by apply (applyHidden_VisibleRecorded true)].
  - unfold isolatePart. cbv zeta.
    apply (forOf_applyHidden_VisibleRecorded (λ id _, bool_decide (id ≠ i))).
    by apply (VisibleRecorded_same st).
  - unfold showAllParts. destruct (preIsolationState st).
    + by apply (forOf_applyHidden_VisibleRecorded (λ _ wasHidden, wasHidden)).
    + by apply (forOf_applyHidden_VisibleRecorded (λ _ _, false)).
Qed.

Lemma run_invariant (P : PartManager → Prop) ops st :
  (∀ op r, P r → P (step op r)) → P st → P (run ops st).
Proof.
  intros Hstep. unfold run. revert st.
  induction ops as [|op ops IH]; intros st Hst; simpl; [done|]. by apply IH, Hstep.
Qed.

Lemma constructor_VisibleRecorded : VisibleRecorded constructor.
Proof. intros id. simpl. rewrite lookup_empty. split; [set_solver|]. by intros (p & ? & _). Qed.

Lemma addPart_VisibleRecorded partData mesh st :
  VisibleRecorded st → VisibleRecorded (addPart partData mesh st).
Proof.
  intros Hst id. specialize (Hst id). unfold addPart. simpl.
  destruct (decide (id = PartAnalyzer.partNumber partData)) as [->|Hne].
  - rewrite lookup_insert_eq. split; [by eexists|set_solver].
  - rewrite lookup_insert_ne by done. set_solver.
Qed.

Lemma twoParts_VisibleRecorded : VisibleRecorded twoParts.
Proof.
  unfold twoParts. do 2 apply addPart_VisibleRecorded.
  apply (VisibleRecorded_same constructor); [done|done|apply constructor_VisibleRecorded].
Qed.

Lemma insertBy_Permutation {A} (rank : A → nat) (a : A) (l : list A) :
  insertBy rank a l ≡ₚ a :: l.
Proof.
  induction l as [|b l IH]; [done|]. cbn [insertBy].
  destruct (Nat.ltb (rank a) (rank b)); [done|]. rewrite IH. apply Permutation_swap.
Qed.

Lemma sortBy_Permutation {A} (rank : A → nat) (l : list A) : sortBy rank l ≡ₚ l.
Proof.
  induction l as [|a l IH]; [done|]. unfold sortBy in *. cbn [foldr].
  by rewrite insertBy_Permutation, IH.
Qed.

Lemma elem_of_getAllParts st p : p ∈ getAllParts st ↔ ∃ id, parts st !! id = Some p.
Proof.
  unfold getAllParts, valuesInOrder. rewrite sortBy_Permutation, list_elem_of_fmap. split.
  - intros ((id & q) & -> & Hin%elem_of_map_to_list). by exists id.
  - intros (id & Hid). exists (id, p). split; [done|]. by apply elem_of_map_to_list.
Qed.

Lemma elem_of_getVisibleParts st p :
  p ∈ getVisibleParts st ↔ ∃ id, parts st !! id = Some p ∧ isHidden p = false.
Proof.
  unfold getVisibleParts. rewrite list_elem_of_In, filter_In, <- list_elem_of_In.
  rewrite elem_of_getAllParts. split.
  - intros [(id & Hid) Hvis]. exists id. split; [done|]. by destruct (isHidden p).
  - intros (id & Hid & Hvis). split; [by exists id|by rewrite Hvis].
Qed.

(** X17. The two records of what is hidden agree, and stay so. In a
    registry in which [visibleParts] holds exactly the registered parts
    that are not flagged hidden, as it is after loading, the same is true
    after any sequence of operations; so [getVisibleParts] returns the
    entries of the ids in [visibleParts]. *)
Theorem visible_set_follows_hidden_flags (ops : list Op) (st : PartManager) :
  VisibleRecorded st →
  VisibleRecorded (run ops st) ∧
  ∀ p, p ∈ getVisibleParts (run ops st) ↔
       ∃ id, id ∈ visibleParts (run ops st) ∧ parts (run ops st) !! id = Some p.
Proof.
  intros Hst.
  assert (Hrun : VisibleRecorded (run ops st))
    by (apply run_invariant; auto using step_VisibleRecorded).
  split; [done|]. intros p. rewrite elem_of_getVisibleParts. split.
  - intros (id & Hid & Hvis). exists id. split; [|done]. apply Hrun. by exists p.
  - intros (id & Hin & Hid). exists id. split; [done|].
    apply Hrun in Hin as (q & Hq & Hvis). congruence.
Qed.

Lemma visible_set_follows_hidden_flags_witness :
  VisibleRecorded
    (run [HidePart "P-002"; SelectPart "P-001"; IsolatePart "P-001"; ShowAllParts;
          CreateSectionPlane "P-001" "XY" 0.5; RemoveSectionPlane "P-001"] twoParts) ∧
  ∀ p, p ∈ getVisibleParts
             (run [HidePart "P-002"; SelectPart "P-001"; IsolatePart "P-001"; ShowAllParts;
                   CreateSectionPlane "P-001" "XY" 0.5; RemoveSectionPlane "P-001"] twoParts) ↔
       ∃ id, id ∈ visibleParts
                    (run [HidePart "P-002"; SelectPart "P-001"; IsolatePart "P-001";
                          ShowAllParts; CreateSectionPlane "P-001" "XY" 0.5;
                          RemoveSectionPlane "P-001"] twoParts) ∧
             parts (run [HidePart "P-002"; SelectPart "P-001"; IsolatePart "P-001";
                         ShowAllParts; CreateSectionPlane "P-001" "XY" 0.5;
                         RemoveSectionPlane "P-001"] twoParts) !! id = Some p.
Proof.
  apply (visible_set_follows_hidden_flags
           [HidePart "P-002"; SelectPart "P-001"; IsolatePart "P-001"; ShowAllParts;
            CreateSectionPlane "P-001" "XY" 0.5; RemoveSectionPlane "P-001"] twoParts).
  exact twoParts_VisibleRecorded.
Defined.

End ManagerSets.

Section ManagerHighlights.
Import PartManager.

(** ** The set of the highlighted parts *)

Lemma HighlightsRecorded_same st st' :
  highlightedParts st' = highlightedParts st →
  isHighlighted <$> parts st' = isHighlighted <$> parts st →
  HighlightsRecorded st → HighlightsRecorded st'.
Proof.
  intros Hset Hflags Hst id. rewrite Hset, (Hst id).
  pose proof (lookup_of_flags isHighlighted st st' id Hflags) as Hid.
  destruct (parts st' !! id) as [p'|], (parts st !! id) as [p|]; simplify_eq/=.
  - split; intros (q & [= <-] & Hq); eexists; (split; [done|congruence]).
  - split; by intros (q & ? & _).
Qed.

Lemma highlightPart_HighlightsRecorded i st :
  HighlightsRecorded st → HighlightsRecorded (highlightPart i st).
Proof.
  intros Hst. unfold highlightPart.
  destruct (parts st !! i) as [p|] eqn:Hp; [|done].
  destruct (partMeshes st !! i) as [m|] eqn:Hm; [|done].
  destruct (isHighlighted p) eqn:Hh; [done|].
  intros id. specialize (Hst id). simpl. destruct (decide (id = i)) as [->|Hne].
  - rewrite lookup_insert_eq. split; [by eexists|set_solver].
  - rewrite lookup_insert_ne by done. set_solver.
Qed.

Lemma removeHighlight_HighlightsRecorded i st :
  HighlightsRecorded st → HighlightsRecorded (removeHighlight i st).
Proof.
  intros Hst. unfold removeHighlight. cbv zeta.
  destruct (parts st !! i) as [p|] eqn:Hp; [|done].
  destruct (partMeshes st !! i) as [m|] eqn:Hm; [|done].
  destruct (isHighlighted p) eqn:Hh; [|done].
  assert (Hgoal : ∀ st', parts st' = <[i := setIsHighlighted false p]> (parts st) →
                         highlightedParts st' = highlightedParts st ∖ {[i]} →
                         HighlightsRecorded st').
  { intros st' Hparts Hset id. specialize (Hst id). rewrite Hparts, Hset.
    destruct (decide (id = i)) as [->|Hne].
    - rewrite lookup_insert_eq. split; [set_solver|]. by intros (q & [= <-] & Hq).
    - rewrite lookup_insert_ne by done. set_solver. }
  apply Hgoal; by destruct (originalMaterials _ !! i).
Qed.

Lemma deselectPart_HighlightsRecorded i st :
  HighlightsRecorded st → HighlightsRecorded (deselectPart i st).
Proof.
  intros Hst. unfold deselectPart. cbv zeta.
  match goal with |- context [maintainSectioningIsolation ?s] =>
    destruct (maintainSectioningIsolation_fields s) as (Hp & _ & _ & Hh & _);
    apply (HighlightsRecorded_same s); [done|by rewrite Hp|] end.
  destruct (parts st !! i) as [p|] eqn:Hpi; [|done].
  apply removeHighlight_HighlightsRecorded.
  apply (HighlightsRecorded_same st); [done| |done]. simpl. by eapply fmap_insert_same.
Qed.

Lemma selectPart_HighlightsRecorded i st :
  HighlightsRecorded st → HighlightsRecorded (selectPart i st).
Proof.
  intros Hst. unfold selectPart. cbv zeta.
  set (this1 := match selectedPart st with Some _ => _ | None => _ end).
  assert (H1 : HighlightsRecorded this1).
  { subst this1. repeat case_match; auto using deselectPart_HighlightsRecorded. }
  match goal with |- context [maintainSectioningIsolation ?s] =>
    destruct (maintainSectioningIsolation_fields s) as (Hp & _ & _ & Hh & _);
    apply (HighlightsRecorded_same s); [done|by rewrite Hp|] end.
  simpl. destruct (parts this1 !! i) as [p|] eqn:Hpi.
  - apply highlightPart_HighlightsRecorded.
    apply (HighlightsRecorded_same this1); [done| |done]. simpl. by eapply fmap_insert_same.
  - by apply (HighlightsRecorded_same this1).
Qed.

Lemma deselectAllParts_HighlightsRecorded st :
  HighlightsRecorded st → HighlightsRecorded (deselectAllParts st).
Proof.
  intros Hst. unfold deselectAllParts. cbv zeta.
  match goal with |- context [maintainSectioningIsolation ?s] =>
    destruct (maintainSectioningIsolation_fields s) as (Hp & _ & _ & Hh & _);
    apply (HighlightsRecorded_same s); [done|by rewrite Hp|] end.
  repeat case_match; try done.
  match goal with |- context [deselectPart ?i st] =>
    apply (HighlightsRecorded_same (deselectPart i st)); [done|done|] end.
  by apply deselectPart_HighlightsRecorded.
Qed.

Lemma step_HighlightsRecorded op st : HighlightsRecorded st → HighlightsRecorded (step op st).
Proof.
  intros Hst.
  assert (Hbook : ∀ st', bookkeeping st' = bookkeeping st → HighlightsRecorded st').
  { intros st' (Hp & _ & _ & Hh & _)%of_bookkeeping.
    apply (HighlightsRecorded_same st); [done|by rewrite Hp|done]. }
  destruct op as [i|i| |hit|i|i|i|i|i|i| |v|v|i ty position|i position|i| ]; cbn [step];
    auto using toggleCuttingPlaneVisibility_bookkeeping, createSectionPlane_bookkeeping,
      updateSectionPlane_bookkeeping, removeSectionPlane_bookkeeping, update_bookkeeping,
      selectPart_HighlightsRecorded, deselectPart_HighlightsRecorded,
      deselectAllParts_HighlightsRecorded, highlightPart_HighlightsRecorded,
      removeHighlight_HighlightsRecorded.
  - unfold handleClick. repeat case_match;
      auto using selectPart_HighlightsRecorded, deselectAllParts_HighlightsRecorded.
  - apply (HighlightsRecorded_same st); [|by apply hidePart_flags|done].
    by destruct (applyHidden_fields true i st) as (_ & ?).
  - apply (HighlightsRecorded_same st); [|by apply showPart_flags|done].
    by destruct (applyHidden_fields false i st) as (_ & ?).
  - apply (HighlightsRecorded_same st); [|by apply togglePartVisibility_flags|done].
    by destruct (togglePartVisibility_fields i st) as (_ & ?).
  - apply (HighlightsRecorded_same st); [|by apply isolatePart_flags|done].
    by destruct (isolatePart_fields i st) as (_ & ?).
  - apply (HighlightsRecorded_same st); [|by apply showAllParts_flags|done].
    by destruct (showAllParts_fields st) as (_ & ?).
Qed.

Lemma constructor_HighlightsRecorded : HighlightsRecorded constructor.
Proof. intros id. simpl. rewrite lookup_empty. split; [set_solver|]. by intros (p & ? & _). Qed.

(** Registering a part under an id that is not highlighted. *)
Lemma addPart_HighlightsRecorded partData mesh st :
  PartAnalyzer.partNumber partData ∉ highlightedParts st →
  HighlightsRecorded st → HighlightsRecorded (addPart partData mesh st).
Proof.
  intros Hnew Hst id. specialize (Hst id). unfold addPart. simpl.
  destruct (decide (id = PartAnalyzer.partNumber partData)) as [->|Hne].
  - rewrite lookup_insert_eq. split; [done|]. by intros (q & [= <-] & Hq).
  - by rewrite lookup_insert_ne.
Qed.

Lemma twoParts_HighlightsRecorded : HighlightsRecorded twoParts.
Proof.
  unfold twoParts. do 2 (apply addPart_HighlightsRecorded; [set_solver|]).
  apply (HighlightsRecorded_same constructor); [done|done|apply constructor_HighlightsRecorded].
Qed.

(** X16. In a registry in which [highlightedParts] holds exactly the
    registered parts that are flagged highlighted, as it is after
    loading, the same is true after any sequence of operations:
    selecting, deselecting, highlighting and removing a highlight write
    the flag and the set together, and nothing else writes either. *)
Theorem highlighted_set_follows_flags (ops : list Op) (st : PartManager) :
  HighlightsRecorded st → HighlightsRecorded (run ops st).
Proof. intros Hst. apply run_invariant; auto using step_HighlightsRecorded. Qed.

Lemma highlighted_set_follows_flags_witness :
  HighlightsRecorded
    (run [SelectPart "P-001"; HighlightPart "P-002"; SelectPart "P-002"; HidePart "P-001";
          HandleClick None; RemoveHighlight "P-002"] twoParts).
Proof.
  apply (highlighted_set_follows_flags
           [SelectPart "P-001"; HighlightPart "P-002"; SelectPart "P-002"; HidePart "P-001";
            HandleClick None; RemoveHighlight "P-002"] twoParts).
  exact twoParts_HighlightsRecorded.
Defined.

End ManagerHighlights.

Section ManagerSelection.
Import PartManager.

(** ** The selection *)

Lemma SingleSelection_same st st' :
  selectedPart st' = selectedPart st → isSelected <$> parts st' = isSelected <$> parts st →
  SingleSelection st → SingleSelection st'.
Proof.
  intros Hsel Hflags [Hempty Hst]. split.
  - pose proof (lookup_of_flags isSelected st st' "" Hflags) as Hid.
    rewrite Hempty in Hid. by destruct (parts st' !! "").
  - intros id p' Hid' Hp'. rewrite Hsel.
    pose proof (lookup_of_flags isSelected st st' id Hflags) as Hid.
    rewrite Hid' in Hid. destruct (parts st !! id) as [p|] eqn:Hp; simplify_eq/=.
    apply (Hst id p); [done|congruence].
Qed.

Lemma lookup_None_of_flags {B} (obs : RegisteredPart → B) st st' id :
  obs <$> parts st' = obs <$> parts st → parts st !! id = None → parts st' !! id = None.
Proof.
  intros Hflags Hid. pose proof (lookup_of_flags obs st st' id Hflags) as H.
  rewrite Hid in H. by destruct (parts st' !! id).
Qed.

(** The selected flags after [deselectPart]: the flag of the part is
    down, the others are as before. *)
Lemma deselectPart_selected i st id :
  isSelected <$> parts (deselectPart i st) !! id
  = if decide (id = i) then (λ _, false) <$> parts st !! i
    else isSelected <$> parts st !! id.
Proof.
  unfold deselectPart. cbv zeta. rewrite maintainSectioningIsolation_parts.
  destruct (parts st !! i) as [p|] eqn:Hp.
  - rewrite (lookup_of_flags isSelected
               (setParts (<[i:=setIsSelected false p]> (parts st)) st) _ id)
      by by apply removeHighlight_flags.
    simpl. destruct (decide (id = i)) as [->|Hne].
    + by rewrite lookup_insert_eq.
    + by rewrite lookup_insert_ne.
  - destruct (decide (id = i)) as [->|Hne]; [by rewrite Hp|done].
Qed.

Lemma deselectPart_SingleSelection i st :
  SingleSelection st → SingleSelection (deselectPart i st).
Proof.
  intros [Hempty Hst]. split.
  - apply (lookup_None_of_flags data st); [|done]. by apply deselectPart_flags.
  - intros id p' Hid' Hp'. destruct (deselectPart_fields i st) as (-> & _).
    pose proof (deselectPart_selected i st id) as H. rewrite Hid' in H. simpl in H.
    destruct (decide (id = i)) as [->|Hne].
    + destruct (parts st !! i); simplify_eq/=. congruence.
    + destruct (parts st !! id) as [p|] eqn:Hp; simplify_eq/=.
      apply (Hst id p); [done|congruence].
Qed.

(** After [deselectPart] of the selected part no part is flagged. *)
Lemma deselectPart_none_selected s st :
  SingleSelection st → selectedPart st = Some s →
  ∀ id p, parts (deselectPart s st) !! id = Some p → isSelected p = false.
Proof.
  intros [Hempty Hst] Hs id p' Hid'.
  pose proof (deselectPart_selected s st id) as H. rewrite Hid' in H. simpl in H.
  destruct (decide (id = s)) as [->|Hne].
  - destruct (parts st !! s); simplify_eq/=. done.
  - destruct (parts st !! id) as [p|] eqn:Hp; simplify_eq/=.
    destruct (isSelected p') eqn:Hsel; [|done].
    assert (selectedPart st = Some id) by (apply (Hst id p); [done|congruence]).
    congruence.
Qed.

Lemma selectPart_SingleSelection i st : SingleSelection st → SingleSelection (selectPart i st).
Proof.
  intros Hst. pose proof Hst as [Hempty Hsel].
  assert (Hkeys : parts (selectPart i st) !! "" = None).
  { apply (lookup_None_of_flags data st); [|done]. by apply selectPart_flags. }
  split; [done|]. intros id p' Hid' Hp'.
  destruct (selectPart_fields i st) as (-> & _). f_equal.
  destruct (decide (id = i)) as [|Hne]; [done|]. exfalso.
  revert Hid'. unfold selectPart. cbv zeta. rewrite maintainSectioningIsolation_parts.
  set (this1 := match selectedPart st with Some _ => _ | None => _ end).
  assert (H1 : ∀ q, parts this1 !! id = Some q → isSelected q = false).
  { intros q Hq. subst this1. destruct (isSelected q) eqn:Hsq; [exfalso|done].
    destruct (selectedPart st) as [s|] eqn:Hs.
    - destruct (String.eqb_spec s "") as [Hs0|Hs0]; simpl in Hq.
      { pose proof (Hsel id q Hq Hsq). congruence. }
      destruct (String.eqb_spec s i) as [Hsi|Hsi]; simpl in Hq.
      { pose proof (Hsel id q Hq Hsq). congruence. }
      pose proof (deselectPart_none_selected s st Hst Hs id q Hq). congruence.
    - pose proof (Hsel id q Hq Hsq). congruence. }
  simpl. destruct (parts this1 !! i) as [p|] eqn:Hp.
  - intros Hid'.
    pose proof (lookup_of_flags isSelected
                  (setParts (<[i:=setIsSelected true p]> (parts this1))
                     (setSelectedPart (Some i) this1)) _ id
                  (highlightPart_flags isSelected i _ (λ _ _, eq_refl))) as H.
    rewrite Hid' in H. simpl in H. rewrite lookup_insert_ne in H by done.
    destruct (parts this1 !! id) as [q|] eqn:Hq; simplify_eq/=.
    specialize (H1 q eq_refl). congruence.
  - intros Hid'. specialize (H1 p' Hid'). congruence.
Qed.

Lemma deselectAllParts_SingleSelection st :
  SingleSelection st → SingleSelection (deselectAllParts st).
Proof.
  intros Hst. unfold deselectAllParts. cbv zeta.
  match goal with |- context [maintainSectioningIsolation ?s] =>
    destruct (maintainSectioningIsolation_fields s) as (Hp & Hs & _);
    apply (SingleSelection_same s); [done|by rewrite Hp|] end.
  destruct (selectedPart st) as [s|] eqn:Hsel; [|done].
  destruct (String.eqb s ""); [done|].
  destruct (deselectPart_SingleSelection s st Hst) as [Hempty _]. split; [done|].
  intros id p Hid Hp'. simpl in Hid.
  pose proof (deselectPart_none_selected s st Hst Hsel id p Hid). congruence.
Qed.

Lemma step_SingleSelection op st : SingleSelection st → SingleSelection (step op st).
Proof.
  intros Hst.
  assert (Hbook : ∀ st', bookkeeping st' = bookkeeping st → SingleSelection st').
  { intros st' (Hp & Hs & _)%of_bookkeeping.
    apply (SingleSelection_same st); [done|by rewrite Hp|done]. }
  destruct op as [i|i| |hit|i|i|i|i|i|i| |v|v|i ty position|i position|i| ]; cbn [step];
    auto using toggleCuttingPlaneVisibility_bookkeeping, createSectionPlane_bookkeeping,
      updateSectionPlane_bookkeeping, removeSectionPlane_bookkeeping, update_bookkeeping,
      selectPart_SingleSelection, deselectPart_SingleSelection,
      deselectAllParts_SingleSelection.
  - unfold handleClick. repeat case_match;
      auto using selectPart_SingleSelection, deselectAllParts_SingleSelection.
  - apply (SingleSelection_same st); [|by apply highlightPart_flags|done].
    by destruct (highlightPart_fields i st) as (? & _).
  - apply (SingleSelection_same st); [|by apply removeHighlight_flags|done].
    by destruct (removeHighlight_fields i st) as (? & _).
  - apply (SingleSelection_same st); [|by apply hidePart_flags|done].
    by destruct (applyHidden_fields true i st) as (? & _).
  - apply (SingleSelection_same st); [|by apply showPart_flags|done].
    by destruct (applyHidden_fields false i st) as (? & _).
  - apply (SingleSelection_same st); [|by apply togglePartVisibility_flags|done].
    by destruct (togglePartVisibility_fields i st) as (? & _).
  - apply (SingleSelection_same st); [|by apply isolatePart_flags|done].
    by destruct (isolatePart_fields i st) as (? & _).
  - apply (SingleSelection_same st); [|by apply showAllParts_flags|done].
    by destruct (showAllParts_fields st) as (? & _).
Qed.

Lemma constructor_SingleSelection : SingleSelection constructor.
Proof. split; [done|]. intros id p. simpl. by rewrite lookup_empty. Qed.

(** Registering a part under a non-empty id. *)
Lemma addPart_SingleSelection partData mesh st :
  PartAnalyzer.partNumber partData ≠ "" →
  SingleSelection st → SingleSelection (addPart partData mesh st).
Proof.
  intros Hne [Hempty Hst]. unfold addPart. split; simpl.
  - by rewrite lookup_insert_ne.
  - intros id p. destruct (decide (id = PartAnalyzer.partNumber partData)) as [->|Hid].
    + rewrite lookup_insert_eq. by intros [= <-].
    + rewrite lookup_insert_ne by done. apply Hst.
Qed.

Lemma twoParts_SingleSelection : SingleSelection twoParts.
Proof.
  unfold twoParts. do 2 (apply addPart_SingleSelection; [done|]).
  apply (SingleSelection_same constructor); [done|done|apply constructor_SingleSelection].
Qed.

(** X15. At most one part is selected. In a registry without a part
    under the empty id in which only the part that [selectedPart] names
    may be flagged selected, as it is after loading, the same is true
    after any sequence of operations: [selectPart] takes the flag of the
    part selected before, and nothing but the selection calls writes the
    flag. *)
Theorem at_most_one_part_is_selected (ops : list Op) (st : PartManager) :
  SingleSelection st → SingleSelection (run ops st).
Proof. intros Hst. apply run_invariant; auto using step_SingleSelection. Qed.

Lemma at_most_one_part_is_selected_witness :
  SingleSelection
    (run [SelectPart "P-001"; SelectPart "P-002"; SelectPart "P-404"; DeselectPart "P-002";
          HandleClick (Some "P-001"); CreateSectionPlane "P-001" "XY" 0.5;
          HandleClick (Some "P-002")] twoParts).
Proof.
  apply (at_most_one_part_is_selected
           [SelectPart "P-001"; SelectPart "P-002"; SelectPart "P-404"; DeselectPart "P-002";
            HandleClick (Some "P-001"); CreateSectionPlane "P-001" "XY" 0.5;
            HandleClick (Some "P-002")] twoParts).
  exact twoParts_SingleSelection.
Defined.

End ManagerSelection.

Section ManagerRoundTrips.
Import PartManager.

(** ** Highlighting and removing the highlight *)

Lemma setPartMeshes_setPartMeshes v w st :
  setPartMeshes v (setPartMeshes w st) = setPartMeshes v st.
Proof. done. Qed.

(** X18. Highlighting a part and removing the highlight does not give
    the mesh back the material it held: for a registered part that is
    not highlighted, [highlightPart] followed by [removeHighlight] leaves
    the manager as it was except that the mesh now holds the material
    stored for the part at registration, the copy that [addPart] made.
    In between the mesh holds the highlight material and one more glow
    child. *)
Theorem highlight_cycle_installs_stored_material (i : string) (st : PartManager)
    (p : RegisteredPart) (mesh : Mesh) (stored : MaterialRef) :
  parts st !! i = Some p → partMeshes st !! i = Some mesh →
  originalMaterials st !! i = Some stored →
  isHighlighted p = false → i ∉ highlightedParts st →
  partMeshes (highlightPart i st) !! i
  = Some {| visible := visible mesh; material := Highlight;
            glowChildren := S (glowChildren mesh) |} ∧
  removeHighlight i (highlightPart i st) = setMeshMaterial i stored st.
Proof.
  intros Hp Hm Ho Hh Hnotin. unfold highlightPart. rewrite Hp, Hm, Hh. cbv zeta.
  split.
  { simpl. rewrite !lookup_alter_eq, Hm. done. }
  unfold removeHighlight. cbv zeta. simpl.
  rewrite lookup_insert_eq, !lookup_alter_eq, Hm. simpl. rewrite Ho. simpl.
  rewrite insert_insert_eq.
  replace (setIsHighlighted false (setIsHighlighted true p)) with p
    by (destruct p; simpl in *; by subst).
  rewrite insert_id by done.
  replace (({[i]} ∪ highlightedParts st) ∖ {[i]}) with (highlightedParts st) by set_solver.
  unfold removeGlowEffect, addGlowEffect, setMeshMaterial. destruct st. simpl in *.
  unfold setPartMeshes. simpl. f_equal.
  apply map_eq. intros k. destruct (decide (k = i)) as [->|Hne].
  - rewrite !lookup_alter_eq, Hm. simpl. by destruct mesh.
  - by rewrite !lookup_alter_ne.
Qed.

Lemma highlight_cycle_installs_stored_material_witness :
  partMeshes (highlightPart "P-001" twoParts) !! "P-001"
  = Some {| visible := true; material := Highlight; glowChildren := 1 |} ∧
  removeHighlight "P-001" (highlightPart "P-001" twoParts)
  = setMeshMaterial "P-001" (Original "P-001") twoParts.
Proof.
  apply (highlight_cycle_installs_stored_material "P-001" twoParts
           {| data := partData "flange" "P-001"; originalVisible := true;
              isSelected := false; isHighlighted := false; isHidden := false;
              insertionRank := 0 |}
           hdpeMesh (Original "P-001")).
  - vm_compute. reflexivity.
  - vm_compute. reflexivity.
  - vm_compute. reflexivity.
  - reflexivity.
  - unfold twoParts. simpl. set_solver.
Defined.

(** ** The tick *)

Lemma meshesAfter_idem {V} (g : string → Mesh → Mesh) (m : gmap string V) meshes :
  (∀ id mesh, g id (g id mesh) = g id mesh) →
  meshesAfter g m (meshesAfter g m meshes) = meshesAfter g m meshes.
Proof.
  intros Hg. apply map_eq. intros id. rewrite !lookup_meshesAfter.
  destruct (meshes !! id) as [mesh|]; simpl; [|done]. f_equal.
  destruct (m !! id); [apply Hg|done].
Qed.

Lemma maintainSectioningIsolation_idem st :
  maintainSectioningIsolation (maintainSectioningIsolation st) = maintainSectioningIsolation st.
Proof.
  destruct (sectionedPartId st) as [sectioned|] eqn:Hs.
  - rewrite (maintainSectioningIsolation_sectioned st sectioned Hs).
    rewrite (maintainSectioningIsolation_sectioned _ sectioned) by done. simpl.
    unfold setPartMeshes at 1. simpl. unfold setPartMeshes. f_equal.
    apply map_eq. intros id. rewrite !lookup_meshesAfter.
    destruct (partMeshes st !! id) as [mesh|] eqn:Hid; simpl; reflexivity.
  - rewrite (maintainSectioningIsolation_unsectioned st Hs).
    by apply maintainSectioningIsolation_unsectioned.
Qed.

Lemma update_maintains st : update st = maintainSectioningIsolation st.
Proof.
  unfold update. cbv zeta.
  destruct (sectionedPartId (maintainSectioningIsolation st)) as [sectioned|] eqn:Hs; [|done].
  unfold isInSectioningMode. rewrite Hs. rewrite bool_decide_true by done.
  by rewrite andb_false_r.
Qed.

(** X19. The tick is idempotent: a second [update] changes nothing, and
    outside section mode the first one changes nothing either. The
    guard of [update] that is to restore a lost section mode never
    fires, since it asks for a sectioned part outside section mode. *)
Theorem update_is_idempotent (st : PartManager) :
  update (update st) = update st ∧
  (sectionedPartId st = None → update st = st) ∧
  update st = maintainSectioningIsolation st.
Proof.
  rewrite !update_maintains. split; [apply maintainSectioningIsolation_idem|].
  split; [apply maintainSectioningIsolation_unsectioned|done].
Qed.

End ManagerRoundTrips.

Section ManagerIsolation.
Import PartManager.

(** ** Isolation and the snapshot it takes *)

Lemma step_preIsolationState op st :
  notIsolatePart op = true → preIsolationState (step op st) = preIsolationState st.
Proof.
  assert (Hbook : ∀ st', bookkeeping st' = bookkeeping st →
                         preIsolationState st' = preIsolationState st).
  { intros st' H. by destruct (of_bookkeeping _ _ H) as (_ & _ & _ & _ & ?). }
  destruct op as [i|i| |hit|i|i|i|i|i|i| |v|v|i ty position|i position|i| ]; cbn [step];
    intros Hop; try discriminate;
    auto using toggleCuttingPlaneVisibility_bookkeeping, createSectionPlane_bookkeeping,
      updateSectionPlane_bookkeeping, removeSectionPlane_bookkeeping, update_bookkeeping.
  - by destruct (selectPart_fields i st) as (_ & _ & ?).
  - by destruct (deselectPart_fields i st) as (_ & _ & ?).
  - by destruct (deselectAllParts_fields st) as (_ & ?).
  - by destruct (handleClick_fields hit st) as (_ & ?).
  - by destruct (highlightPart_fields i st) as (_ & _ & ?).
  - by destruct (removeHighlight_fields i st) as (_ & _ & ?).
  - apply (applyHidden_preIsolationState true).
  - apply (applyHidden_preIsolationState false).
  - unfold togglePartVisibility. destruct (parts st !! i) as [p|]; [|done].
    destruct (isHidden p);
      [apply (applyHidden_preIsolationState false)|apply (applyHidden_preIsolationState true)].
  - unfold showAllParts. destruct (preIsolationState st) as [snapshot|] eqn:Hpre.
    + destruct (forOf_applyHidden (λ (_ : string) (wasHidden : bool), wasHidden) snapshot st)
        as (_ & _ & H). by rewrite <- Hpre.
    + destruct (forOf_applyHidden (λ (_ : string) (_ : RegisteredPart), false) (parts st) st)
        as (_ & _ & H). by rewrite <- Hpre.
Qed.

Lemma run_preIsolationState ops st :
  forallb notIsolatePart ops = true → preIsolationState (run ops st) = preIsolationState st.
Proof.
  unfold run. revert st. induction ops as [|op ops IH]; intros st Hops; simpl; [done|].
  apply andb_true_iff in Hops as [Hop Hops]. rewrite IH by done.
  by apply step_preIsolationState.
Qed.

Lemma run_keys ops st :
  dom (parts (run ops st)) = dom (parts st) ∧
  dom (partMeshes (run ops st)) = dom (partMeshes st).
Proof.
  split.
  - rewrite <- (dom_fmap_L data (parts (run ops st))), <- (dom_fmap_L data (parts st)).
    f_equal. by apply run_flags.
  - apply (run_invariant (λ r, dom (partMeshes r) = dom (partMeshes st))); [|done].
    intros op r <-. apply step_meshKeys.
Qed.

(** X20. [showAllParts] goes back to the last isolation. After
    [isolatePart], whatever is hidden, shown, selected or sectioned
    afterwards short of another isolation, [showAllParts] gives every part
    that had a mesh the hidden flag it had before the isolation, and makes
    its mesh visible accordingly. *)
Theorem show_all_goes_back_to_the_last_isolation
  (A : string) (ops : list Op) (st : PartManager) :
  forallb notIsolatePart ops = true →
  ∀ id p, parts st !! id = Some p → is_Some (partMeshes st !! id) →
    isHidden <$> parts (showAllParts (run ops (isolatePart A st))) !! id = Some (isHidden p) ∧
    visible <$> partMeshes (showAllParts (run ops (isolatePart A st))) !! id
    = Some (negb (isHidden p)).
Proof.
  intros Hops id p Hp Hm.
  set (s := run ops (isolatePart A st)).
  assert (Hpre : preIsolationState s = Some (isHidden <$> parts st)).
  { subst s. rewrite run_preIsolationState by done.
    by destruct (isolatePart_lookups A st) as (_ & _ & ?). }
  destruct (run_keys (IsolatePart A :: ops) st) as [Hdp Hdm].
  change (run (IsolatePart A :: ops) st) with s in Hdp, Hdm.
  assert (Hps : is_Some (parts s !! id)) by (apply elem_of_dom; rewrite Hdp; by apply elem_of_dom).
  assert (Hms : is_Some (partMeshes s !! id)) by (apply elem_of_dom; rewrite Hdm; by apply elem_of_dom).
  destruct Hps as [q Hq], Hms as [mesh Hmesh].
  unfold showAllParts. rewrite Hpre.
  destruct (forOf_applyHidden (λ (_ : string) (wasHidden : bool), wasHidden)
              (isHidden <$> parts st) s) as (HP & HM & _).
  unfold applyHidden in HP, HM.
  rewrite (HP id), (HM id), lookup_fmap, Hp, Hq, Hmesh. done.
Qed.

Lemma constructor_Meshed : Meshed constructor.
Proof. intros id. simpl. rewrite lookup_empty. by intros [? ?]. Qed.

Lemma addPart_Meshed partData mesh st : Meshed st → Meshed (addPart partData mesh st).
Proof.
  intros Hst id. specialize (Hst id). unfold addPart. simpl.
  destruct (decide (id = PartAnalyzer.partNumber partData)) as [->|Hne].
  - by rewrite !lookup_insert_eq.
  - by rewrite !lookup_insert_ne.
Qed.

Lemma twoParts_Meshed : Meshed twoParts.
Proof. unfold twoParts. do 2 apply addPart_Meshed. apply constructor_Meshed. Qed.

Lemma show_all_goes_back_to_the_last_isolation_witness :
  ∃ p, parts twoParts !! "P-002" = Some p ∧
    isHidden <$> parts (showAllParts
                          (run [HidePart "P-001"; SelectPart "P-002"; ShowPart "P-002"; Update]
                             (isolatePart "P-001" twoParts))) !! "P-002" = Some (isHidden p) ∧
    visible <$> partMeshes (showAllParts
                          (run [HidePart "P-001"; SelectPart "P-002"; ShowPart "P-002"; Update]
                             (isolatePart "P-001" twoParts))) !! "P-002"
    = Some (negb (isHidden p)).
Proof.
  eexists. split; [vm_compute; reflexivity|].
  apply (show_all_goes_back_to_the_last_isolation "P-001"
           [HidePart "P-001"; SelectPart "P-002"; ShowPart "P-002"; Update] twoParts eq_refl
           "P-002"); vm_compute; eauto.
Defined.

(** X21. While every registered part has its mesh, after [isolatePart]
    the parts that [getVisibleParts] returns are the isolated part alone,
    flagged shown; for an id that is not registered every part is hidden
    and nothing is returned. *)
Theorem isolation_leaves_one_part_visible (A : string) (st : PartManager) :
  Meshed st →
  (∀ p, p ∈ getVisibleParts (isolatePart A st) ↔
        ∃ q, parts st !! A = Some q ∧ p = setIsHidden false q) ∧
  (parts st !! A = None → getVisibleParts (isolatePart A st) = []).
Proof.
  intros Hst.
  assert (Hiff : ∀ p, p ∈ getVisibleParts (isolatePart A st) ↔
                      ∃ q, parts st !! A = Some q ∧ p = setIsHidden false q).
  { intros p. rewrite elem_of_getVisibleParts.
    destruct (isolatePart_lookups A st) as (HP & _ & _). split.
    - intros (id & Hid & Hvis). rewrite (HP id) in Hid.
      destruct (parts st !! id) as [q|] eqn:Hq.
      2:{ by destruct (partMeshes st !! id). }
      destruct (Hst id) as [mesh Hmesh]; [by rewrite Hq|].
      rewrite Hmesh in Hid. simpl in Hid. injection Hid as <-.
      simpl in Hvis. apply bool_decide_eq_false in Hvis.
      destruct (decide (id = A)) as [->|Hne]; [|done].
      exists q. split; [done|]. by rewrite bool_decide_eq_false_2 by auto.
    - intros (q & Hq & ->). exists A. rewrite (HP A), Hq.
      destruct (Hst A) as [mesh ->]; [by rewrite Hq|]. simpl.
      by rewrite bool_decide_eq_false_2 by auto. }
  split; [done|]. intros HA.
  destruct (getVisibleParts (isolatePart A st)) as [|p rest] eqn:Hlist; [done|].
  destruct (proj1 (Hiff p)) as (q & Hq & _); [left|congruence].
Qed.

Lemma isolation_leaves_one_part_visible_witness :
  (∀ p, p ∈ getVisibleParts (isolatePart "P-002" twoParts) ↔
        ∃ q, parts twoParts !! "P-002" = Some q ∧ p = setIsHidden false q) ∧
  (parts twoParts !! "P-002" = None → getVisibleParts (isolatePart "P-002" twoParts) = []).
Proof. apply (isolation_leaves_one_part_visible "P-002" twoParts), twoParts_Meshed. Defined.

End ManagerIsolation.

Section ManagerLifeCycle.
Import PartManager.

(** ** Toggling, disposing and the section plane of a part *)

Lemma applyHidden_visibleParts h i st p mesh :
  parts st !! i = Some p → partMeshes st !! i = Some mesh →
  visibleParts (applyHidden h i st)
  = if h then visibleParts st ∖ {[i]} else {[i]} ∪ visibleParts st.
Proof. intros Hp Hm. unfold applyHidden, hidePart, showPart. rewrite Hp, Hm. by destruct h. Qed.

Lemma togglePartVisibility_registered i st p mesh :
  parts st !! i = Some p → partMeshes st !! i = Some mesh →
  togglePartVisibility i st = applyHidden (negb (isHidden p)) i st.
Proof. intros Hp Hm. unfold togglePartVisibility. rewrite Hp. by destruct (isHidden p). Qed.

(** X22. [togglePartVisibility] twice gives back the part entries as
    they were. The mesh of the part ends up visible exactly when the part
    is not flagged hidden, and in a registry whose [visibleParts] agrees
    with the hidden flags that set is as it was. *)
Theorem toggling_twice_restores_the_entries (i : string) (st : PartManager) :
  parts (togglePartVisibility i (togglePartVisibility i st)) = parts st ∧
  (VisibleRecorded st →
   visibleParts (togglePartVisibility i (togglePartVisibility i st)) = visibleParts st) ∧
  (∀ p mesh, parts st !! i = Some p → partMeshes st !! i = Some mesh →
     partMeshes (togglePartVisibility i (togglePartVisibility i st))
     = <[i := setVisible (negb (isHidden p)) mesh]> (partMeshes st)).
Proof.
  destruct (parts st !! i) as [p|] eqn:Hp.
  2:{ unfold togglePartVisibility. rewrite Hp. simpl. rewrite Hp. done. }
  destruct (partMeshes st !! i) as [mesh|] eqn:Hm.
  2:{ assert (H : togglePartVisibility i st = st).
      { unfold togglePartVisibility. rewrite Hp.
        destruct (isHidden p); [apply (applyHidden_unregistered false)
                               |apply (applyHidden_unregistered true)]; auto. }
      rewrite !H. done. }
  rewrite (togglePartVisibility_registered i st p mesh Hp Hm).
  destruct (applyHidden_parts (negb (isHidden p)) i st p mesh Hp Hm) as [Hparts Hmeshes].
  set (st1 := applyHidden (negb (isHidden p)) i st) in *.
  assert (Hp1 : parts st1 !! i = Some (setIsHidden (negb (isHidden p)) p))
    by (by rewrite Hparts, lookup_insert_eq).
  assert (Hm1 : partMeshes st1 !! i = Some (setVisible (negb (negb (isHidden p))) mesh))
    by (by rewrite Hmeshes, lookup_insert_eq).
  rewrite (togglePartVisibility_registered i st1 _ _ Hp1 Hm1).
  destruct (applyHidden_parts (negb (isHidden (setIsHidden (negb (isHidden p)) p))) i st1 _ _
              Hp1 Hm1) as [Hparts2 Hmeshes2].
  split; [|split].
  - rewrite Hparts2, Hparts, insert_insert_eq. apply insert_id. rewrite Hp. f_equal.
    destruct p as [d o s hl hd rk]. simpl. by destruct hd.
  - intros Hrec. rewrite (applyHidden_visibleParts _ i st1 _ _ Hp1 Hm1).
    subst st1. rewrite (applyHidden_visibleParts _ i st p mesh Hp Hm).
    specialize (Hrec i). simpl. destruct (isHidden p) eqn:Hh; simpl.
    + assert (i ∉ visibleParts st); [|set_solver].
      intros (q & Hq & Hvis)%Hrec. congruence.
    + assert (i ∈ visibleParts st) by (apply Hrec; by exists p).
      apply set_eq. intros k. destruct (decide (k = i)) as [->|]; set_solver.
  - intros ? ? [= <-] [= <-]. rewrite Hmeshes2, Hmeshes, insert_insert_eq. simpl.
    by rewrite negb_involutive.
Qed.

Lemma run_shelf ops st :
  dom (partLabels (run ops st)) = dom (partLabels st) ∧
  originalMaterials (run ops st) = originalMaterials st.
Proof.
  apply (run_invariant (λ r, dom (partLabels r) = dom (partLabels st) ∧
                             originalMaterials r = originalMaterials st)); [|done].
  intros op r [<- <-]. apply step_shelf.
Qed.

(** X23. [dispose] throws exactly when the second highlight material has
    not been created. Otherwise it empties the registry but keeps the
    selection, the section planes and the sectioned part;
    whatever is called afterwards, no part, mesh, label or stored material
    comes back, the two sets stay empty and [getSelectedPart] finds
    nothing. *)
Theorem dispose_empties_the_registry_for_good (st : PartManager) :
  match dispose st with
  | JS.Throw _ => highlight2Material st = None
  | JS.Normal st' =>
      is_Some (highlight2Material st) ∧
      selectedPart st' = selectedPart st ∧ sectionPlanes st' = sectionPlanes st ∧
      sectionedPartId st' = sectionedPartId st ∧
      ∀ ops, getAllParts (run ops st') = [] ∧ partMeshes (run ops st') = ∅ ∧
             partLabels (run ops st') = ∅ ∧ originalMaterials (run ops st') = ∅ ∧
             visibleParts (run ops st') = ∅ ∧ highlightedParts (run ops st') = ∅ ∧
             getSelectedPart (run ops st') = None
  end.
Proof.
  unfold dispose. destruct (highlight2Material st) as [r|] eqn:Hr; [|done]. cbv zeta.
  set (st' := setHighlightedParts ∅ _).
  assert (Hst' : parts st' = ∅ ∧ partMeshes st' = ∅ ∧ partLabels st' = ∅ ∧
                 originalMaterials st' = ∅ ∧ visibleParts st' = ∅ ∧ highlightedParts st' = ∅ ∧
                 selectedPart st' = selectedPart st ∧ sectionPlanes st' = sectionPlanes st ∧
                 sectionedPartId st' = sectionedPartId st).
  { subst st'. by destruct (cuttingPlaneVisuals st). }
  destruct Hst' as (Hp & Hm & Hl & Ho & Hv & Hh & Hsel & Hsec & Hsid).
  split; [done|]. do 3 (split; [done|]). intros ops.
  destruct (run_keys ops st') as [Hdp Hdm]. destruct (run_shelf ops st') as [Hdl Hom].
  rewrite Hp, dom_empty_L in Hdp. rewrite Hm, dom_empty_L in Hdm.
  rewrite Hl, dom_empty_L in Hdl. rewrite Ho in Hom.
  apply dom_empty_inv_L in Hdp, Hdm, Hdl.
  assert (HV : VisibleRecorded (run ops st')).
  { apply run_invariant; [auto using step_VisibleRecorded|].
    intros id. rewrite Hv, Hp, lookup_empty. split; [set_solver|]. by intros (p & ? & _). }
  assert (HH : HighlightsRecorded (run ops st')).
  { apply run_invariant; [auto using step_HighlightsRecorded|].
    intros id. rewrite Hh, Hp, lookup_empty. split; [set_solver|]. by intros (p & ? & _). }
  repeat split; try done.
  - unfold getAllParts, valuesInOrder. by rewrite Hdp, map_to_list_empty.
  - apply set_eq. intros id. rewrite (HV id), Hdp, lookup_empty. split; [|set_solver].
    by intros (p & ? & _).
  - apply set_eq. intros id. rewrite (HH id), Hdp, lookup_empty. split; [|set_solver].
    by intros (p & ? & _).
  - unfold getSelectedPart. rewrite Hdp. destruct (selectedPart (run ops st')) as [s|]; [|done].
    destruct (String.eqb s ""); [done|]. apply lookup_empty.
Qed.

Lemma switchToOrangeHighlight_sectionPlanes i st :
  sectionPlanes (switchToOrangeHighlight i st) = sectionPlanes st ∧
  dom (partMeshes (switchToOrangeHighlight i st)) = dom (partMeshes st).
Proof.
  unfold switchToOrangeHighlight, setMeshMaterial.
  repeat case_match; simpl; rewrite ?dom_alter_L; done.
Qed.

Lemma addClippingPlane_sectionPlanes i plane st :
  sectionPlanes (addClippingPlane i plane st) = sectionPlanes st.
Proof. unfold addClippingPlane. by repeat case_match. Qed.

Lemma createSectionPlane_returns i ty position st :
  is_Some (parts st !! i) → is_Some (partMeshes st !! i) →
  (createSectionPlane i ty position st).1
  = Some (positionSectionPlane {| planeType := ty; offset := None |} ty position) ∧
  sectionPlanes (createSectionPlane i ty position st).2 !! i = (createSectionPlane i ty position st).1.
Proof.
  intros Hp Hm. split.
  - destruct Hp as [p Hp], Hm as [m Hm]. unfold createSectionPlane. by rewrite Hp, Hm.
  - rewrite createSectionPlane_registered by done. cbv zeta.
    rewrite addClippingPlane_sectionPlanes.
    rewrite (proj1 (switchToOrangeHighlight_sectionPlanes _ _)). simpl.
    rewrite lookup_insert_eq.
    destruct Hp as [p Hp], Hm as [m Hm]. unfold createSectionPlane. by rewrite Hp, Hm.
Qed.

Lemma updateSectionPlane_sectionPlanes i position st plane :
  sectionPlanes st !! i = Some plane → is_Some (partMeshes st !! i) →
  sectionPlanes (updateSectionPlane i position st)
  = <[i := positionSectionPlane plane (planeType plane) position]> (sectionPlanes st).
Proof.
  intros Hs [mesh Hm]. unfold updateSectionPlane. rewrite Hs, Hm. cbv zeta.
  by repeat case_match.
Qed.

Lemma positionSectionPlane_again plane ty p q :
  positionSectionPlane (positionSectionPlane plane ty p)
    (planeType (positionSectionPlane plane ty p)) q
  = positionSectionPlane plane (planeType plane) q.
Proof.
  unfold positionSectionPlane.
  by destruct (String.eqb ty "XY" || String.eqb ty "XZ" || String.eqb ty "YZ")%bool.
Qed.

(** X24. The section plane of a registered part through its life. After
    [createSectionPlane] the plane returned is the one that
    [getSectionPlane] gives; [updateSectionPlane] to [q] turns it into the
    plane that creating the section at [q] would have returned; and after
    [removeSectionPlane] the part has no section plane and no part is
    sectioned. *)
Theorem section_plane_is_stored_moved_and_removed
  (i ty : string) (p q : float) (st : PartManager) :
  is_Some (parts st !! i) → is_Some (partMeshes st !! i) →
  is_Some (createSectionPlane i ty p st).1 ∧
  getSectionPlane i (createSectionPlane i ty p st).2 = (createSectionPlane i ty p st).1 ∧
  hasSectionPlane i (createSectionPlane i ty p st).2 = true ∧
  getSectionPlane i (updateSectionPlane i q (createSectionPlane i ty p st).2)
  = (createSectionPlane i ty q st).1 ∧
  getSectionPlane i (removeSectionPlane i (createSectionPlane i ty p st).2) = None ∧
  hasSectionPlane i (removeSectionPlane i (createSectionPlane i ty p st).2) = false ∧
  sectionedPartId (removeSectionPlane i (createSectionPlane i ty p st).2) = None.
Proof.
  intros Hp Hm.
  destruct (createSectionPlane_returns i ty p st Hp Hm) as [Hret Hlook].
  destruct (createSectionPlane_returns i ty q st Hp Hm) as [Hretq _].
  destruct (createSectionPlane_fields i ty p st Hp Hm) as (_ & Hdm & _).
  set (st1 := (createSectionPlane i ty p st).2) in *.
  assert (Hm1 : is_Some (partMeshes st1 !! i)) by (apply elem_of_dom; rewrite Hdm; by apply elem_of_dom).
  assert (Hgone : sectionPlanes (removeSectionPlane i st1) !! i = None).
  { rewrite (proj1 (proj2 (removeSectionPlane_look i st1))).
    unfold removePlanes. cbv zeta. rewrite Hlook, Hret.
    repeat case_match; simpl; by rewrite lookup_delete_eq. }
  unfold getSectionPlane, hasSectionPlane. rewrite Hgone, Hlook, Hret.
  split_and!.
  - by eexists.
  - done.
  - rewrite bool_decide_eq_true_2; [done|by eexists].
  - rewrite Hret in Hlook.
    rewrite (updateSectionPlane_sectionPlanes i q st1 _ Hlook Hm1), lookup_insert_eq, Hretq.
    f_equal. unfold positionSectionPlane.
    destruct (String.eqb ty "XY" || String.eqb ty "XZ" || String.eqb ty "YZ")%bool eqn:Hty;
      simpl; by rewrite Hty.
  - done.
  - rewrite bool_decide_eq_false_2; [done|]. by intros [? ?].
  - by destruct (removeSectionPlane_fields i st1) as (? & _).
Qed.

Lemma section_plane_is_stored_moved_and_removed_witness :
  is_Some (createSectionPlane "P-001" "XZ" 0.5 twoParts).1 ∧
  getSectionPlane "P-001" (createSectionPlane "P-001" "XZ" 0.5 twoParts).2
  = (createSectionPlane "P-001" "XZ" 0.5 twoParts).1 ∧
  hasSectionPlane "P-001" (createSectionPlane "P-001" "XZ" 0.5 twoParts).2 = true ∧
  getSectionPlane "P-001"
    (updateSectionPlane "P-001" (-1) (createSectionPlane "P-001" "XZ" 0.5 twoParts).2)
  = (createSectionPlane "P-001" "XZ" (-1) twoParts).1 ∧
  getSectionPlane "P-001"
    (removeSectionPlane "P-001" (createSectionPlane "P-001" "XZ" 0.5 twoParts).2) = None ∧
  hasSectionPlane "P-001"
    (removeSectionPlane "P-001" (createSectionPlane "P-001" "XZ" 0.5 twoParts).2) = false ∧
  sectionedPartId
    (removeSectionPlane "P-001" (createSectionPlane "P-001" "XZ" 0.5 twoParts).2) = None.
Proof.
  apply (section_plane_is_stored_moved_and_removed "P-001" "XZ" 0.5 (-1) twoParts);
    vm_compute; eauto.
Defined.

End ManagerLifeCycle.

Section ManagerMoves.
Import PartManager.

(** ** Moving a section plane, and the queries *)

Lemma alter_alter_eq {A} (f g : A → A) (m : gmap string A) i :
  alter f i (alter g i m) = alter (f ∘ g) i m.
Proof.
  apply map_eq. intros k. destruct (decide (i = k)) as [<-|Hne].
  - rewrite !lookup_alter_eq. by destruct (m !! i).
  - by rewrite !lookup_alter_ne.
Qed.

(** [updateSectionPlane] for a part with a section plane and a mesh, field
    by field. *)
Lemma updateSectionPlane_result i position st plane mesh :
  sectionPlanes st !! i = Some plane → partMeshes st !! i = Some mesh →
  let moved := positionSectionPlane plane (planeType plane) position in
  let m := getMaterial (material mesh) st in
  updateSectionPlane i position st =
  {| parts := parts st; partMeshes := partMeshes st; partLabels := partLabels st;
     selectedPart := selectedPart st; visibleParts := visibleParts st;
     highlightedParts := highlightedParts st;
     sectionPlanes := <[i := moved]> (sectionPlanes st);
     crossSections :=
       match crossSections st !! i with
       | Some _ => <[i := {| crossPlane := clippingPlaneOf moved |}]> (crossSections st)
       | None => crossSections st
       end;
     cuttingPlaneVisuals :=
       alter (λ vp, {| visualVisible := visualVisible vp; visualPlane := moved |}) i
         <$> cuttingPlaneVisuals st;
     sectionedPartId := sectionedPartId st; showCuttingPlane := showCuttingPlane st;
     originalMaterials := originalMaterials st;
     highlight2Material := highlight2Material st;
     materialStore :=
       match clippingPlanes m with
       | Some (_ :: planes) =>
           <[material mesh := {| clippingPlanes := Some (clippingPlaneOf moved :: planes);
                                 clipIntersection := clipIntersection m;
                                 needsUpdate := needsUpdate m |}]> (materialStore st)
       | _ => materialStore st
       end;
     preIsolationState := preIsolationState st;
     localClippingEnabled := localClippingEnabled st |}.
Proof.
  intros Hs Hm. cbv zeta. unfold updateSectionPlane. rewrite Hs, Hm. cbv zeta.
  destruct st as [ps ms ls sel vis hl sps cs cpv sid scp om h2 store pre lce].
  unfold getMaterial. simpl.
  destruct cpv as [visuals|]; simpl;
    destruct (clippingPlanes (default newMaterial (store !! material mesh))) as [[|c0 planes]|];
    simpl; destruct (cs !! i); reflexivity.
Qed.

(** X25. Moving a section plane twice is moving it once: after
    [updateSectionPlane] to [p] and then to [q] the manager is in the
    state that [updateSectionPlane] to [q] alone gives. *)
Theorem moving_a_section_plane_twice (i : string) (p q : float) (st : PartManager) :
  updateSectionPlane i q (updateSectionPlane i p st) = updateSectionPlane i q st.
Proof.
  destruct (sectionPlanes st !! i) as [plane|] eqn:Hs.
  2:{ unfold updateSectionPlane at 2. rewrite Hs. done. }
  destruct (partMeshes st !! i) as [mesh|] eqn:Hm.
  2:{ unfold updateSectionPlane at 2. rewrite Hs, Hm. done. }
  rewrite (updateSectionPlane_result i q st plane mesh Hs Hm).
  pose proof (updateSectionPlane_result i p st plane mesh Hs Hm) as H1. cbv zeta in H1.
  set (st1 := updateSectionPlane i p st) in *.
  assert (Hs1 : sectionPlanes st1 !! i = Some (positionSectionPlane plane (planeType plane) p))
    by (rewrite H1; simpl; apply lookup_insert_eq).
  assert (Hm1 : partMeshes st1 !! i = Some mesh) by (by rewrite H1).
  rewrite (updateSectionPlane_result i q st1 _ mesh Hs1 Hm1). cbv zeta.
  rewrite positionSectionPlane_again. unfold getMaterial.
  set (moved := positionSectionPlane plane (planeType plane) q).
  rewrite H1. cbn [parts partMeshes partLabels selectedPart visibleParts highlightedParts
                   sectionPlanes crossSections cuttingPlaneVisuals sectionedPartId
                   showCuttingPlane originalMaterials highlight2Material materialStore
                   preIsolationState localClippingEnabled].
  f_equal.
  - apply insert_insert_eq.
  - destruct (crossSections st !! i) eqn:Hc; [|by rewrite Hc].
    rewrite lookup_insert_eq. apply insert_insert_eq.
  - destruct (cuttingPlaneVisuals st) as [visuals|]; [|done]. simpl.
    by rewrite alter_alter_eq.
  - unfold getMaterial. destruct (materialStore st !! material mesh) as [m|] eqn:Hst; simpl.
    + destruct (clippingPlanes m) as [[|c0 planes]|] eqn:Hcl; rewrite ?Hst; simpl; rewrite ?Hcl;
        try done.
      rewrite lookup_insert_eq. simpl. apply insert_insert_eq.
    + rewrite Hst. done.
Qed.

Lemma fmap_filter_pre {A B} (f : A → B) (P : B → bool) (l : list A) :
  f <$> List.filter (λ x, P (f x)) l = List.filter P (f <$> l).
Proof.
  induction l as [|a l IH]; [done|]. cbn [List.filter]. rewrite fmap_cons. cbn [List.filter].
  destruct (P (f a)); [rewrite fmap_cons|]; by rewrite IH.
Qed.

Lemma insertBy_fmap {A B} (f : A → B) (rank : B → nat) (a : A) (l : list A) :
  f <$> insertBy (λ x, rank (f x)) a l = insertBy rank (f a) (f <$> l).
Proof.
  induction l as [|b l IH]; [done|]. cbn [insertBy]. rewrite fmap_cons. cbn [insertBy].
  destruct (Nat.ltb (rank (f a)) (rank (f b))); [done|]. by rewrite fmap_cons, IH.
Qed.

Lemma sortBy_fmap {A B} (f : A → B) (rank : B → nat) (l : list A) :
  f <$> sortBy (λ x, rank (f x)) l = sortBy rank (f <$> l).
Proof.
  induction l as [|a l IH]; [done|]. unfold sortBy in *. rewrite fmap_cons. cbn [foldr].
  by rewrite insertBy_fmap, IH.
Qed.

(** The data that [getAllParts] lists, from the data and the ranks of the
    entries. *)
(** The order of [getAllParts] is the order of registration, not the
    order of the ids. *)
Lemma getAllParts_in_registration_order :
  (λ p, PartAnalyzer.partNumber (data p)) <$>
    getAllParts (addPart (partData "flange" "P-001") hdpeMesh
                   (addPart (partData "bend pipe" "P-002") hdpeMesh constructor))
  = ["P-002"; "P-001"].
Proof. vm_compute. reflexivity. Qed.

Lemma getAllParts_data st :
  data <$> getAllParts st
  = fst <$> sortBy snd (map_to_list ((λ p, (data p, insertionRank p)) <$> parts st)).*2.
Proof.
  unfold getAllParts, valuesInOrder.
  rewrite map_to_list_fmap, <- (list_fmap_compose _ snd).
  rewrite (list_fmap_ext (snd ∘ prod_map id (λ p, (data p, insertionRank p)))
             ((λ p, (data p, insertionRank p)) ∘ snd) (map_to_list (parts st)))
    by done.
  rewrite (list_fmap_compose snd).
  rewrite <- (sortBy_fmap (λ p, (data p, insertionRank p)) snd).
  rewrite <- list_fmap_compose. by apply list_fmap_ext.
Qed.

(** X26. Whatever is called, [getAllParts] returns the data of the same
    parts in the same order, the order in which their ids were first
    registered, and so does [findPartsByType] for every type: the
    operations change the flags of the entries only, never their data or
    their place in the Map. *)
Theorem queries_keep_returning_the_same_parts (ops : list Op) (type : string)
    (st : PartManager) :
  data <$> getAllParts (run ops st) = data <$> getAllParts st ∧
  data <$> findPartsByType type (run ops st) = data <$> findPartsByType type st.
Proof.
  assert (Hall : data <$> getAllParts (run ops st) = data <$> getAllParts st).
  { rewrite !getAllParts_data. do 4 f_equal. by apply run_flags. }
  split; [done|]. unfold findPartsByType.
  by rewrite !(fmap_filter_pre data (λ d, String.eqb (PartAnalyzer.type d) type)), Hall.
Qed.

End ManagerMoves.
